(** * Translation service: normalizer, retry controller, translation and
      summarization orchestrators

    Shallow embedding of the translation service module (LibreTranslate as
    primary provider, OpenAI chat completion as fallback) and the
    properties of its text-enrichment pipeline.

    Layout: JavaScript strings, the regular expressions of the module with
    their backtracking matcher, JSON values with [JSON.parse], asynchronous
    computations as finite trees of await points, then the functions of the
    module in source order, then the theorems. *)

From Stdlib Require Import Ascii String List NArith ZArith Bool Lia Arith.
From Stdlib Require DecimalString.
Import ListNotations.

Set Implicit Arguments.
Set Warnings "-register-all".

(* ===================================================================== *)
(** ** JavaScript strings *)
(* ===================================================================== *)

(** A JavaScript string is a sequence of UTF-16 code units; [length],
    [substring], [split] and the regular expressions of the module all work
    on code units. *)
Definition jsstring := list N.

(** An ASCII literal as a JavaScript string. *)
Definition js (s : string) : jsstring := map N_of_ascii (list_ascii_of_string s).

Definition jsstring_eqb (a b : jsstring) : bool :=
  if list_eq_dec N.eq_dec a b then true else false.

(** Truthiness of a string: every string but the empty one. *)
Definition truthy_str (s : jsstring) : bool :=
  match s with [] => false | _ :: _ => true end.

(** [a || b] on strings. *)
Definition or_else (a b : jsstring) : jsstring :=
  if truthy_str a then a else b.

(** White space and line terminators of ECMAScript: the class [\s] and the
    characters removed by [String.prototype.trim]. *)
Definition is_space (c : N) : bool :=
  ((9 <=? c) && (c <=? 13)          (* \t \n \v \f \r *)
   || (c =? 32) || (c =? 160) || (c =? 5760)
   || ((8192 <=? c) && (c <=? 8202))
   || (c =? 8232) || (c =? 8233) || (c =? 8239) || (c =? 8287)
   || (c =? 12288) || (c =? 65279))%N.

Fixpoint trimStart (s : jsstring) : jsstring :=
  match s with
  | c :: s' => if is_space c then trimStart s' else s
  | [] => []
  end.

(** Drops the trailing white space: a character is kept when it is not
    white space or something is kept after it. *)
Fixpoint trimEnd (s : jsstring) : jsstring :=
  match s with
  | c :: s' =>
      match trimEnd s' with
      | [] => if is_space c then [] else [c]
      | t => c :: t
      end
  | [] => []
  end.

Definition trim (s : jsstring) : jsstring := trimEnd (trimStart s).

(** [!s || s.trim().length === 0] *)
Definition blank (s : jsstring) : bool := negb (truthy_str (trim s)).

Definition pipe : N := 124.

(** [s.split('|')[0]]: the segment before the first pipe character. *)
Fixpoint first_segment (s : jsstring) : jsstring :=
  match s with
  | c :: s' => if (c =? pipe)%N then [] else c :: first_segment s'
  | [] => []
  end.

(** [s.substring(0, n)] *)
Definition substring0 (n : nat) (s : jsstring) : jsstring := firstn n s.

(* ===================================================================== *)
(** ** Regular expressions *)
(* ===================================================================== *)

(** The fragment of ECMAScript regular expressions used by the module:
    character sets, sequence, ordered alternation, greedy repetition and
    the end-of-input assertion. Capturing groups in the source only group:
    no replacement string refers to a capture. *)
Inductive regex : Type :=
| Eps
| Chr (p : N -> bool)
| Seq (r1 r2 : regex)
| Alt (r1 r2 : regex)
| Star (r : regex)
| Eoi.

Definition Plus (r : regex) : regex := Seq r (Star r).
Definition Opt (r : regex) : regex := Alt r Eps.

(** The iterations of a greedy star, given the matcher [m] of its body:
    one more iteration is tried first, and an iteration that consumes
    nothing is rejected. Every iteration consumes a character, so the
    length of the input bounds their number. *)
Fixpoint star_loop
  (m : jsstring -> (jsstring -> option jsstring) -> option jsstring)
  (k : jsstring -> option jsstring) (fuel : nat) (s : jsstring)
  : option jsstring :=
  match fuel with
  | O => k s
  | S fuel' =>
      match m s (fun s' =>
               if length s' <? length s then star_loop m k fuel' s'
               else None) with
      | Some t => Some t
      | None => k s
      end
  end.

(** Backtracking matcher in continuation-passing style, as the
    specification of [RegExp] defines it: alternatives are tried left to
    right and repetition is greedy. The result is the input left after the
    match. *)
Fixpoint rmatch (r : regex) (s : jsstring) (k : jsstring -> option jsstring)
  : option jsstring :=
  match r with
  | Eps => k s
  | Chr p =>
      match s with
      | c :: s' => if p c then k s' else None
      | [] => None
      end
  | Seq a b => rmatch a s (fun s' => rmatch b s' k)
  | Alt a b =>
      match rmatch a s k with
      | Some t => Some t
      | None => rmatch b s k
      end
  | Star a => star_loop (rmatch a) k (S (length s)) s
  | Eoi => match s with [] => k s | _ :: _ => None end
  end.

(** A match starting at the first character of [s]. *)
Definition exec_at (r : regex) (s : jsstring) : option jsstring :=
  rmatch r s (fun t => Some t).

(** [s.replace(/r/g, rep)]: scans left to right; after a match the scan
    resumes where the match ended, after an empty match one character
    further. [skip] counts the characters of the current match still to be
    dropped. *)
Fixpoint replace_from (r : regex) (rep : jsstring) (skip : nat) (s : jsstring)
  : jsstring :=
  match s with
  | [] =>
      match skip, exec_at r [] with
      | O, Some _ => rep
      | _, _ => []
      end
  | c :: s' =>
      match skip with
      | S n => replace_from r rep n s'
      | O =>
          match exec_at r s with
          | Some rest =>
              match length s - length rest with
              | O => rep ++ c :: replace_from r rep 0 s'
              | S n => rep ++ replace_from r rep n s'
              end
          | None => c :: replace_from r rep 0 s'
          end
      end
  end.

Definition replace_all (r : regex) (rep : jsstring) (s : jsstring) : jsstring :=
  replace_from r rep 0 s.

(** [/r/.test(s)]: a match starting anywhere. *)
Fixpoint test (r : regex) (s : jsstring) : bool :=
  match exec_at r s with
  | Some _ => true
  | None => match s with [] => false | _ :: s' => test r s' end
  end.

(** *** Character sets *)

Definition one (c : N) : N -> bool := fun x => (x =? c)%N.
Definition range (lo hi : N) : N -> bool := fun x => ((lo <=? x) && (x <=? hi))%N.
Definition neg (p : N -> bool) : N -> bool := fun x => negb (p x).
Definition either (p q : N -> bool) : N -> bool := fun x => p x || q x.

Definition lower : N -> bool := range 97 122.
Definition upper : N -> bool := range 65 90.
Definition digit : N -> bool := range 48 57.
Definition underscore : N := 95.
Definition dot : N := 46.

(** [\w] *)
Definition word : N -> bool :=
  either lower (either upper (either digit (one underscore))).

(** Canonicalization of the [i] flag restricted to the characters the
    patterns use: without the [u] flag a code unit outside ASCII never
    canonicalizes to an ASCII letter, so an ASCII letter of a pattern matches
    exactly its two ASCII cases. *)
Definition fold_case (c : N) : N := if lower c then (c - 32)%N else c.
Definition is_ci (c : N) : N -> bool := fun x => (fold_case x =? fold_case c)%N.

(** A literal, case-sensitive and case-insensitive. *)
Definition lit (s : string) : regex :=
  fold_right (fun c r => Seq (Chr (one c)) r) Eps (js s).
Definition lit_ci (s : string) : regex :=
  fold_right (fun c r => Seq (Chr (is_ci c)) r) Eps (js s).

Definition alts (rs : list regex) : regex :=
  match rs with
  | [] => Eps
  | r :: rs' => fold_left Alt rs' r
  end.

(** Concatenation of the parts of a pattern. *)
Definition cat (rs : list regex) : regex := fold_right Seq Eps rs.

Definition non_space : N -> bool := neg is_space.
Definition not_dot : N -> bool := neg (one dot).
Definition newline : N := 10.

(** [[a-z_]] under the [i] flag. *)
Definition letter_or_underscore : N -> bool :=
  either lower (either upper (one underscore)).
(** [[a-z]] under the [i] flag. *)
Definition letter : N -> bool := either lower upper.
(** [[^\s&]] *)
Definition not_space_amp : N -> bool := neg (either is_space (one 38)).

(** *** The patterns of [stripHtml], in source order *)

(** [/https?:\/\/[^\s]+/g] *)
Definition re_url : regex :=
  cat [lit "http"; Opt (Chr (one 115)); lit "://"; Plus (Chr non_space)].
(** [/www\.[^\s]+/g] *)
Definition re_www : regex := cat [lit "www."; Plus (Chr non_space)].
(** [/t\.co\/[^\s]+/g] *)
Definition re_tco : regex := cat [lit "t.co/"; Plus (Chr non_space)].
(** [/source=(twitter|web|facebook|instagram|reddit|telegram)[^\s]*/gi] *)
Definition re_source : regex :=
  cat [lit_ci "source=";
       alts [lit_ci "twitter"; lit_ci "web"; lit_ci "facebook";
             lit_ci "instagram"; lit_ci "reddit"; lit_ci "telegram"];
       Star (Chr non_space)].
(** [/utm_[a-z_]+=[^\s&]*/gi] *)
Definition re_utm : regex :=
  cat [lit_ci "utm_"; Plus (Chr letter_or_underscore); lit "=";
       Star (Chr not_space_amp)].
(** [/ref=[^\s&]*/gi] *)
Definition re_ref : regex := cat [lit_ci "ref="; Star (Chr not_space_amp)].
(** [/\?[a-z_]+=\w+(&[a-z_]+=\w+)*/gi] *)
Definition re_query : regex :=
  cat [lit "?"; Plus (Chr letter_or_underscore); lit "="; Plus (Chr word);
       Star (cat [lit "&"; Plus (Chr letter_or_underscore); lit "=";
                  Plus (Chr word)])].
(** [/RSVP:/gi], [/Read more:/gi], [/Click here:/gi] *)
Definition re_rsvp : regex := lit_ci "RSVP:".
Definition re_read_more : regex := lit_ci "Read more:".
Definition re_click_here : regex := lit_ci "Click here:".
(** [/\[…\]/g] with the horizontal ellipsis U+2026, and [/\[\.\.\.\]/g] *)
Definition re_ellipsis : regex := cat [lit "["; Chr (one 8230); lit "]"].
Definition re_three_dots : regex := lit "[...]".
(** [/\s+/g] and [/\n\s*\n/g] *)
Definition re_spaces : regex := Plus (Chr is_space).
Definition re_blank_lines : regex :=
  cat [Chr (one newline); Star (Chr is_space); Chr (one newline)].
(** [/<[^>]*>/g] *)
Definition re_tag : regex :=
  cat [lit "<"; Star (Chr (neg (one 62))); lit ">"].

(** The URL, tracking and artifact patterns that the structured path
    removes, in the order in which it removes them. *)
Definition noise_patterns : list regex :=
  [re_url; re_www; re_tco; re_source; re_utm; re_ref; re_query;
   re_rsvp; re_read_more; re_click_here; re_ellipsis; re_three_dots].

(** [text.replace(p1, '').replace(p2, '')...] *)
Definition remove_all (ps : list regex) (text : jsstring) : jsstring :=
  fold_left (fun t p => replace_all p [] t) ps text.

(** *** The patterns of [summarizeAndTranslate], in source order *)

(** [/```json\n?|```\n?/g] *)
Definition re_code_fence : regex :=
  Alt (cat [lit "```json"; Opt (Chr (one newline))])
      (cat [lit "```"; Opt (Chr (one newline))]).

(** [/\. [A-Z][a-z]+ (is|are|...|being)[^.]*\./g] *)
Definition re_english_sentence : regex :=
  cat [lit ". "; Chr upper; Plus (Chr lower); lit " ";
       alts (map lit ["is"; "are"; "was"; "were"; "has"; "have"; "will";
                      "would"; "could"; "should"; "can"; "may"; "might";
                      "had"; "been"; "being"]%string);
       Star (Chr not_dot); lit "."].

(** [/\. The [^.]*\./g] and its siblings: a sentence that starts with the
    given words. *)
Definition re_sentence_from (start : string) : regex :=
  cat [lit ". "; lit start; Star (Chr not_dot); lit "."].

Definition sentence_starts : list string :=
  ["The "; "This "; "It "; "According to "; "In "; "On "; "At "; "For ";
   "With "; "From "; "By "; "As "; "However"; "Additionally"; "Furthermore";
   "Meanwhile"; "Moreover"]%string.

(** [/\s+(is|are|was|were|has|have|had|been|being)\s+[a-z][^.]*$/gi] *)
Definition re_trailing_verb : regex :=
  cat [Plus (Chr is_space);
       alts (map lit_ci ["is"; "are"; "was"; "were"; "has"; "have"; "had";
                         "been"; "being"]%string);
       Plus (Chr is_space); Chr letter; Star (Chr not_dot); Eoi].
(** [/\s+(the|this|that|these|those|it|he|she|they)\s+[a-z][^.]*$/gi] *)
Definition re_trailing_pronoun : regex :=
  cat [Plus (Chr is_space);
       alts (map lit_ci ["the"; "this"; "that"; "these"; "those"; "it"; "he";
                         "she"; "they"]%string);
       Plus (Chr is_space); Chr letter; Star (Chr not_dot); Eoi].
(** [/\s+[A-Z][a-z]+\s*$/g] *)
Definition re_trailing_word : regex :=
  cat [Plus (Chr is_space); Chr upper; Plus (Chr lower);
       Star (Chr is_space); Eoi].
(** [/\.+/g] and [/\.\s*$/g] *)
Definition re_dots : regex := Plus (Chr (one dot)).
Definition re_final_dot : regex :=
  cat [Chr (one dot); Star (Chr is_space); Eoi].

(** [/[üğışöçÜĞİŞÖÇ]/] *)
Definition turkish_letters : list N :=
  [252; 287; 305; 351; 246; 231; 220; 286; 304; 350; 214; 199]%N.
Definition re_turkish : regex :=
  Chr (fun c => existsb (N.eqb c) turkish_letters).

(* ===================================================================== *)
(** ** JSON values and [JSON.parse] *)
(* ===================================================================== *)

(** The values [JSON.parse] produces. A number keeps the exact decimal value
    [mantissa * 10 ^ exponent] of its token; the members of an object are
    in source order. *)
Inductive json : Type :=
| JNull
| JBool (b : bool)
| JNumber (mantissa exponent : Z)
| JString (s : jsstring)
| JArray (elements : list json)
| JObject (members : list (jsstring * json)).

(** White space of the JSON grammar: space, tab, line feed, carriage
    return. *)
Definition json_ws (c : N) : bool :=
  ((c =? 32) || (c =? 9) || (c =? 10) || (c =? 13))%N.

Fixpoint skip_ws (s : jsstring) : jsstring :=
  match s with
  | c :: s' => if json_ws c then skip_ws s' else s
  | [] => []
  end.

Definition hex_value (c : N) : option N :=
  if digit c then Some (c - 48)%N
  else if range 97 102 c then Some (c - 87)%N
  else if range 65 70 c then Some (c - 55)%N
  else None.

(** The four hexadecimal digits of a [\u] escape. *)
Definition parse_hex4 (s : jsstring) : option (N * jsstring) :=
  match s with
  | a :: b :: c :: d :: rest =>
      match hex_value a, hex_value b, hex_value c, hex_value d with
      | Some x, Some y, Some z, Some w =>
          Some ((((x * 16 + y) * 16 + z) * 16 + w)%N, rest)
      | _, _, _, _ => None
      end
  | _ => None
  end.

(** The characters of a string token after its opening quote. *)
Fixpoint parse_chars (fuel : nat) (s : jsstring) (acc : jsstring)
  : option (jsstring * jsstring) :=
  match fuel with
  | O => None
  | S fuel' =>
      match s with
      | [] => None
      | 34%N :: rest => Some (rev acc, rest)
      | 92%N :: e :: rest =>
          match e with
          | 34%N => parse_chars fuel' rest (34%N :: acc)
          | 92%N => parse_chars fuel' rest (92%N :: acc)
          | 47%N => parse_chars fuel' rest (47%N :: acc)
          | 98%N => parse_chars fuel' rest (8%N :: acc)
          | 102%N => parse_chars fuel' rest (12%N :: acc)
          | 110%N => parse_chars fuel' rest (10%N :: acc)
          | 114%N => parse_chars fuel' rest (13%N :: acc)
          | 116%N => parse_chars fuel' rest (9%N :: acc)
          | 117%N =>
              match parse_hex4 rest with
              | Some (u, rest') => parse_chars fuel' rest' (u :: acc)
              | None => None
              end
          | _ => None
          end
      | c :: rest =>
          if (c <? 32)%N then None else parse_chars fuel' rest (c :: acc)
      end
  end.

(** A run of decimal digits: its value, its length and the rest. *)
Fixpoint parse_digits (s : jsstring) (acc : Z) (n : nat)
  : Z * nat * jsstring :=
  match s with
  | c :: s' =>
      if digit c then parse_digits s' (acc * 10 + Z.of_N (c - 48)) (S n)
      else (acc, n, s)
  | [] => (acc, n, s)
  end.

(** A number token: [-? int frac? exp?] with [int] either [0] or a digit
    run without leading zero. *)
Definition parse_number (s : jsstring) : option (json * jsstring) :=
  let '(negative, s1) :=
    match s with
    | 45%N :: r => (true, r)
    | _ => (false, s)
    end in
  let '(int, n, s2) := parse_digits s1 0 0 in
  let leading_zero :=
    match s1 with 48%N :: _ => true | _ => false end in
  if (n =? 0)%nat || (leading_zero && (1 <? n)%nat) then None
  else
    let frac :=
      match s2 with
      | 46%N :: r =>
          let '(m, fn, s3) := parse_digits r int 0 in
          if (fn =? 0)%nat then None else Some (m, fn, s3)
      | _ => Some (int, O, s2)
      end in
    match frac with
    | None => None
    | Some (m, fn, s3) =>
        let signed := if negative then (- m)%Z else m in
        match s3 with
        | e :: r =>
            if (e =? 101)%N || (e =? 69)%N then
              let '(eneg, r1) :=
                match r with
                | 45%N :: r' => (true, r')
                | 43%N :: r' => (false, r')
                | _ => (false, r)
                end in
              let '(ex, en, s4) := parse_digits r1 0 0 in
              if (en =? 0)%nat then None
              else Some (JNumber signed
                           ((if eneg then - ex else ex) - Z.of_nat fn)%Z, s4)
            else Some (JNumber signed (- Z.of_nat fn)%Z, s3)
        | [] => Some (JNumber signed (- Z.of_nat fn)%Z, s3)
        end
    end.

(** A literal name ([true], [false], [null]). *)
Fixpoint expect (name : jsstring) (s : jsstring) : option jsstring :=
  match name, s with
  | [], _ => Some s
  | c :: name', d :: s' => if (c =? d)%N then expect name' s' else None
  | _ :: _, [] => None
  end.

(** One JSON value with the white space before it; the elements of an array
    after its first [[]; the members of an object after its first [{]. *)
Fixpoint parse_value (fuel : nat) (s : jsstring) : option (json * jsstring) :=
  match fuel with
  | O => None
  | S fuel' =>
      match skip_ws s with
      | 123%N :: r =>
          match skip_ws r with
          | 125%N :: r' => Some (JObject [], r')
          | _ => parse_members fuel' r []
          end
      | 91%N :: r =>
          match skip_ws r with
          | 93%N :: r' => Some (JArray [], r')
          | _ => parse_elements fuel' r []
          end
      | 34%N :: r =>
          match parse_chars (S (length r)) r [] with
          | Some (str, r') => Some (JString str, r')
          | None => None
          end
      | 116%N :: r =>
          match expect (js "rue") r with
          | Some r' => Some (JBool true, r')
          | None => None
          end
      | 102%N :: r =>
          match expect (js "alse") r with
          | Some r' => Some (JBool false, r')
          | None => None
          end
      | 110%N :: r =>
          match expect (js "ull") r with
          | Some r' => Some (JNull, r')
          | None => None
          end
      | t => parse_number t
      end
  end
with parse_elements (fuel : nat) (s : jsstring) (acc : list json)
  : option (json * jsstring) :=
  match fuel with
  | O => None
  | S fuel' =>
      match parse_value fuel' s with
      | Some (v, r) =>
          match skip_ws r with
          | 44%N :: r' => parse_elements fuel' r' (v :: acc)
          | 93%N :: r' => Some (JArray (rev (v :: acc)), r')
          | _ => None
          end
      | None => None
      end
  end
with parse_members (fuel : nat) (s : jsstring) (acc : list (jsstring * json))
  : option (json * jsstring) :=
  match fuel with
  | O => None
  | S fuel' =>
      match skip_ws s with
      | 34%N :: r =>
          match parse_chars (S (length r)) r [] with
          | Some (key, r1) =>
              match skip_ws r1 with
              | 58%N :: r2 =>
                  match parse_value fuel' r2 with
                  | Some (v, r3) =>
                      match skip_ws r3 with
                      | 44%N :: r4 => parse_members fuel' r4 ((key, v) :: acc)
                      | 125%N :: r4 =>
                          Some (JObject (rev ((key, v) :: acc)), r4)
                      | _ => None
                      end
                  | None => None
                  end
              | _ => None
              end
          | None => None
          end
      | _ => None
      end
  end.

(** [JSON.parse(text)]: [None] stands for the [SyntaxError] it throws.
    Every call of the parser consumes a character within two nested calls,
    so twice the length of the text is fuel enough. *)
Definition JSON_parse (text : jsstring) : option json :=
  match parse_value (2 * length text + 2) text with
  | Some (v, rest) =>
      match skip_ws rest with
      | [] => Some v
      | _ :: _ => None
      end
  | None => None
  end.

(** The value of a member of a parsed object; a later member of the same
    name overrides an earlier one. *)
Fixpoint lookup (key : jsstring) (members : list (jsstring * json))
  : option json :=
  match members with
  | [] => None
  | (k, v) :: rest =>
      match lookup key rest with
      | Some w => Some w
      | None => if jsstring_eqb k key then Some v else None
      end
  end.

(** A number is falsy when its double-precision value is zero: when the
    decimal value is zero or at most [2 ^ -1075], half the least positive
    double, which rounds to zero. *)
Definition number_truthy (m e : Z) : bool :=
  if (m =? 0)%Z then false
  else if (0 <=? e)%Z then true
  else (10 ^ (- e) <? Z.abs m * 2 ^ 1075)%Z.

(** Truthiness of an optional JSON value; [None] is [undefined]. *)
Definition truthy (v : option json) : bool :=
  match v with
  | None | Some JNull => false
  | Some (JBool b) => b
  | Some (JNumber m e) => number_truthy m e
  | Some (JString s) => truthy_str s
  | Some (JArray _) | Some (JObject _) => true
  end.

(* ===================================================================== *)
(** ** Exceptions and completions *)
(* ===================================================================== *)

(** The values the module can see thrown: its own [Error]s, the
    [TypeError] of a property access or a method call on a value that does
    not support it, the [SyntaxError] of [JSON.parse], the [undefined] that
    [retryWithBackoff] throws when it never ran an attempt, and whatever a
    collaborator rejects with. *)
Inductive exn : Type :=
| Error (message : jsstring)
| TypeError
| SyntaxError
| ThrownUndefined
| External (code : N).

(** The completion of a [try] block, and the settlement of a promise. *)
Inductive outcome (A : Type) : Type :=
| Ok (a : A)
| Raise (e : exn).
Arguments Raise {A} e.

Definition obind {A B} (o : outcome A) (f : A -> outcome B) : outcome B :=
  match o with
  | Ok a => f a
  | Raise e => Raise e
  end.

Declare Scope js_scope.
Delimit Scope js_scope with js.
Notation "'let?' x ':=' o 'in' f" := (obind o (fun x => f))
  (at level 10, x name, o at level 100, f at level 200) : js_scope.
Open Scope js_scope.

(** [v.key] for a parsed value [v]: a [TypeError] on [null], the member of
    an object, [undefined] on every other value (neither [Object.prototype]
    nor the prototypes of arrays, strings, numbers and booleans have a
    property of the names the module reads). *)
Definition get_member (v : json) (key : string) : outcome (option json) :=
  match v with
  | JNull => Raise TypeError
  | JObject members => Ok (lookup (js key) members)
  | _ => Ok None
  end.

(* ===================================================================== *)
(** ** Collaborators *)
(* ===================================================================== *)

Inductive lang : Type := tr | en.

Definition lang_code (l : lang) : jsstring :=
  match l with tr => js "tr" | en => js "en" end.

(** The request [translateWithLibreTranslate] posts to [/api/proxy]. *)
Record proxy_request : Type := {
  origin : jsstring;
  path : jsstring;
  q : jsstring;
  source : jsstring;
  target : jsstring;
  format : jsstring
}.

(** What the module reads of a [Response]: [ok], [status], and the body
    that [response.json()] parses. *)
Record http_response : Type := {
  ok : bool;
  status : N;
  body : jsstring
}.

(** The system instructions of the three chat requests; their text does not
    take part in any computation of the module. *)
Inductive instruction : Type :=
| TranslatorInstruction
| TurkishSummaryInstruction
| EnglishSummaryInstruction.

Record chat_request : Type := {
  model : jsstring;
  system : instruction;
  user : jsstring;
  (** [temperature] in tenths and [max_tokens], when given *)
  sampling : option (N * N)
}.

(** The shape [openaiChatCompletion] declares for its result:
    [choices[i].message.content], each step of which may be absent. *)
Record chat_message : Type := { content : option jsstring }.
Record chat_choice : Type := { message : option chat_message }.
Record chat_response : Type := { choices : list chat_choice }.

(** [response.choices[0]?.message?.content || ''] *)
Definition first_content (response : chat_response) : jsstring :=
  match choices response with
  | [] => []
  | choice :: _ =>
      match message choice with
      | None => []
      | Some m =>
          match content m with
          | None => []
          | Some s => or_else s []
          end
      end
  end.

(** What the module takes from its runtime and from the [cheerio] library.
    [cheerio_load html] stands for [cheerio.load(html)], the removal of the
    [script] and [style] elements and the two text extractions
    [$('body').text()] and [$.text()]; it is [None] when any of them
    throws. [greater_than v n] is the relational comparison [v > n] of the
    language on an arbitrary parsed value. *)
Record dom_text : Type := { body_text : jsstring; root_text : jsstring }.

Class Platform : Type := {
  cheerio_load : jsstring -> option dom_text;
  toLowerCase : jsstring -> jsstring;
  greater_than : json -> nat -> outcome bool
}.

(* ===================================================================== *)
(** ** Asynchronous computations *)
(* ===================================================================== *)

(** An [async] function body as a finite tree: it fulfils, rejects, or
    awaits a collaborator and continues with the way the awaited promise
    settled. *)
Inductive async (A : Type) : Type :=
| Resolve (a : A)
| Reject (e : exn)
| AwaitFetch (req : proxy_request) (k : outcome http_response -> async A)
| AwaitChat (req : chat_request) (k : outcome chat_response -> async A)
| AwaitTimeout (ms : Z) (k : unit -> async A).
Arguments Reject {A} e.

Fixpoint bind {A B} (p : async A) (f : A -> async B) : async B :=
  match p with
  | Resolve a => f a
  | Reject e => Reject e
  | AwaitFetch req k => AwaitFetch req (fun r => bind (k r) f)
  | AwaitChat req k => AwaitChat req (fun r => bind (k r) f)
  | AwaitTimeout ms k => AwaitTimeout ms (fun u => bind (k u) f)
  end.

(** [try { p } catch (e) { handler e }] *)
Fixpoint try_catch {A} (p : async A) (handler : exn -> async A) : async A :=
  match p with
  | Resolve a => Resolve a
  | Reject e => handler e
  | AwaitFetch req k => AwaitFetch req (fun r => try_catch (k r) handler)
  | AwaitChat req k => AwaitChat req (fun r => try_catch (k r) handler)
  | AwaitTimeout ms k => AwaitTimeout ms (fun u => try_catch (k u) handler)
  end.

Notation "x '<-' p ';;' f" := (bind p (fun x => f))
  (at level 61, p at next level, right associativity) : js_scope.
Notation "p ';;' f" := (bind p (fun _ => f))
  (at level 61, right associativity) : js_scope.

(** A synchronous completion inside an [async] body. *)
Definition lift {A} (o : outcome A) : async A :=
  match o with
  | Ok a => Resolve a
  | Raise e => Reject e
  end.

(** [await fetch('/api/proxy', ...)], [await openaiChatCompletion(...)] and
    [await new Promise(resolve => setTimeout(resolve, ms))]. *)
Definition fetch_proxy (req : proxy_request) : async http_response :=
  AwaitFetch req lift.
Definition openaiChatCompletion (req : chat_request) : async chat_response :=
  AwaitChat req lift.
Definition sleep (ms : Z) : async unit :=
  AwaitTimeout ms (fun u => Resolve u).

(** The collaborators as transitions of a world [W]: any deterministic,
    stateful behaviour of the proxy, of the model endpoint and of the
    timer. *)
Class Collaborators (W : Type) : Type := {
  on_fetch : proxy_request -> W -> outcome http_response * W;
  on_chat : chat_request -> W -> outcome chat_response * W;
  on_timeout : Z -> W -> W
}.

(** One invocation awaited to its end. *)
Fixpoint run {W} `{Collaborators W} {A} (p : async A) (w : W)
  : outcome A * W :=
  match p with
  | Resolve a => (Ok a, w)
  | Reject e => (Raise e, w)
  | AwaitFetch req k => let (r, w') := on_fetch req w in run (k r) w'
  | AwaitChat req k => let (r, w') := on_chat req w in run (k r) w'
  | AwaitTimeout ms k => run (k tt) (on_timeout ms w)
  end.

(** *** Concurrent invocations

    [Promise.all] over invocations started together: at each step any
    invocation that is waiting takes the reply to its pending request. The
    replies an invocation received are recorded beside it. *)
Inductive reply : Type :=
| FetchReply (r : outcome http_response)
| ChatReply (r : outcome chat_response)
| TimeoutReply.

(** One await of one invocation. *)
Definition await_step {W} `{Collaborators W} {A} (p : async A) (w : W)
  : option (async A * reply * W) :=
  match p with
  | Resolve _ | Reject _ => None
  | AwaitFetch req k =>
      let (r, w') := on_fetch req w in Some (k r, FetchReply r, w')
  | AwaitChat req k =>
      let (r, w') := on_chat req w in Some (k r, ChatReply r, w')
  | AwaitTimeout ms k => Some (k tt, TimeoutReply, on_timeout ms w)
  end.

(** The invocation [p] after it received the replies [log], oldest
    first; [None] when a reply does not answer the pending request. *)
Fixpoint replay {A} (p : async A) (log : list reply) {struct log}
  : option (async A) :=
  match log with
  | [] => Some p
  | r :: log' =>
      match p, r with
      | AwaitFetch _ k, FetchReply x => replay (k x) log'
      | AwaitChat _ k, ChatReply x => replay (k x) log'
      | AwaitTimeout _ k, TimeoutReply => replay (k tt) log'
      | _, _ => None
      end
  end.

(** Replaces the element of index [i]. *)
Fixpoint update {X} (i : nat) (x : X) (l : list X) : list X :=
  match l, i with
  | [], _ => []
  | _ :: l', O => x :: l'
  | y :: l', S i' => y :: update i' x l'
  end.

Definition pool (A : Type) : Type := list (async A * list reply).

Inductive pool_step {W} `{Collaborators W} {A}
  : W * pool A -> W * pool A -> Prop :=
| pool_step_at (i : nat) (p p' : async A) (log : list reply) (r : reply)
    (w w' : W) (ps : pool A) :
    nth_error ps i = Some (p, log) ->
    await_step p w = Some (p', r, w') ->
    pool_step (w, ps) (w', update i (p', log ++ [r]) ps).

Inductive pool_steps {W} `{Collaborators W} {A}
  : W * pool A -> W * pool A -> Prop :=
| pool_done (c : W * pool A) : pool_steps c c
| pool_more (c1 c2 c3 : W * pool A) :
    pool_steps c1 c2 -> pool_step c2 c3 -> pool_steps c1 c3.

(** The values of a pool whose invocations all fulfilled. *)
Fixpoint fulfilled {A} (ps : pool A) : option (list A) :=
  match ps with
  | [] => Some []
  | (Resolve a, _) :: ps' =>
      match fulfilled ps' with
      | Some l => Some (a :: l)
      | None => None
      end
  | _ :: _ => None
  end.

Definition rejected {A} (p : async A * list reply) : bool :=
  match fst p with Reject _ => true | _ => false end.

(* ===================================================================== *)
(** ** The translation service *)
(* ===================================================================== *)

Section Service.

Context {platform : Platform}.

(** *** translateWithLibreTranslate *)

Definition libre_request (text : jsstring) (targetLang : lang) : proxy_request :=
  {| origin := js "libretranslate.com";
     path := js "/translate";
     q := text;
     source := js "en";
     target := lang_code targetLang;
     format := js "text" |}.

Definition decimal (n : N) : jsstring :=
  js (DecimalString.NilZero.string_of_uint (N.to_uint n)).

(** [data.translatedText] checked as the source checks it: absent or blank
    is an [Error]; a truthy value without a [trim] method is a
    [TypeError]. *)
Definition translated_text (data : json) : outcome jsstring :=
  let? member := get_member data "translatedText" in
  if negb (truthy member) then Raise (Error (js "Empty translation result"))
  else
    match member with
    | Some (JString s) =>
        if (length (trim s) =? 0)%nat
        then Raise (Error (js "Empty translation result"))
        else Ok s
    | _ => Raise TypeError
    end.

(** [await response.json()] *)
Definition response_json (response : http_response) : outcome json :=
  match JSON_parse (body response) with
  | Some v => Ok v
  | None => Raise SyntaxError
  end.

Definition translateWithLibreTranslate (text : jsstring) (targetLang : lang)
  : async jsstring :=
  try_catch
    (response <- fetch_proxy (libre_request text targetLang) ;;
     if negb (ok response) then
       Reject (Error (js "LibreTranslate API error: " ++ decimal (status response)))
     else
       data <- lift (response_json response) ;;
       lift (translated_text data))
    (fun error => Reject error).

(** *** stripHtml *)

(** The [catch] branch of [stripHtml]. A method call binds tighter than
    [||]: the left operand is the tag-stripped input up to its first pipe,
    the right operand is the whole chain
    [html.replace(url, '').replace(/\s+/g, ' ').trim()]. *)
Definition stripHtml_fallback (html : jsstring) : jsstring :=
  or_else (first_segment (replace_all re_tag (js " ") html))
          (trim (replace_all re_spaces (js " ") (replace_all re_url [] html))).

(** The cleaning steps of the [try] branch after the text extraction. *)
Definition clean_text (text : jsstring) : jsstring :=
  let text := or_else (first_segment text) text in
  let text := remove_all noise_patterns text in
  let text :=
    trim (replace_all re_blank_lines [newline]
            (replace_all re_spaces (js " ") text)) in
  if (length text <? 10)%nat then [] else text.

Definition stripHtml (html : jsstring) : jsstring :=
  match cheerio_load html with
  | Some dom => clean_text (or_else (body_text dom) (root_text dom))
  | None => stripHtml_fallback html
  end.

(** *** translateToTurkish and translateText *)

Definition translator_request (cleanText : jsstring) : chat_request :=
  {| model := js "gpt-4o-mini";
     system := TranslatorInstruction;
     user := cleanText;
     sampling := None |}.

(** The check on the fast provider's answer. *)
Definition libre_accepted (cleanText libreTranslation : jsstring) : bool :=
  truthy_str libreTranslation
  && negb (jsstring_eqb (toLowerCase libreTranslation) (toLowerCase cleanText))
  && (10 <? length libreTranslation)%nat.

(** The check on the fallback provider's answer. *)
Definition openai_accepted (translation : jsstring) : bool :=
  truthy_str translation && (10 <? length translation)%nat.

(** A [try] block that either returns from the function ([Some]) or falls
    through to the statement after it ([None]); its [catch] only logs. *)
Definition attempt {A} (p : async (option A)) : async (option A) :=
  try_catch p (fun _ => Resolve None).

Definition translateToTurkish (text : jsstring) : async jsstring :=
  try_catch
    (if negb (truthy_str text) || (length (trim text) =? 0)%nat then
       Resolve text
     else
       let cleanText := stripHtml text in
       if negb (truthy_str cleanText) || (length (trim cleanText) =? 0)%nat then
         Resolve text
       else
         first <- attempt
           (libreTranslation <- translateWithLibreTranslate cleanText tr ;;
            if libre_accepted cleanText libreTranslation
            then Resolve (Some libreTranslation)
            else Resolve None) ;;
         match first with
         | Some translation => Resolve translation
         | None =>
             second <- attempt
               (response <- openaiChatCompletion (translator_request cleanText) ;;
                let translation := first_content response in
                if openai_accepted translation
                then Resolve (Some (stripHtml translation))
                else Resolve None) ;;
             match second with
             | Some translation => Resolve translation
             | None => Resolve cleanText
             end
         end)
    (fun error => Resolve (stripHtml text)).

Definition translateText (text : jsstring) (targetLang : lang) : async jsstring :=
  match targetLang with
  | en => Resolve (stripHtml text)
  | tr => translateToTurkish text
  end.

(** *** translateBatch *)

(** The invocations [texts.map(text => translateToTurkish(text))], none of
    which has received a reply yet. *)
Definition batch_pool (texts : list jsstring) : pool jsstring :=
  map (fun text => (translateToTurkish text, [])) texts.

(** [translateBatch texts w result]: called in the world [w],
    [translateBatch(texts)] returns [result]. The invocations, interleaved
    in some order, either all fulfilled, and [await Promise.all(...)] gave
    the list of their values in index order, or one of them rejected, and
    the [catch] returned [texts]. *)
Definition translateBatch {W} `{Collaborators W}
  (texts : list jsstring) (w : W) (result : list jsstring) : Prop :=
  exists (w' : W) (ps : pool jsstring),
    pool_steps (w, batch_pool texts) (w', ps)
    /\ (fulfilled ps = Some result
        \/ (existsb rejected ps = true /\ result = texts)).

(** *** retryWithBackoff *)

(** [throw lastError] *)
Definition throw_last {T} (lastError : option exn) : async T :=
  match lastError with
  | Some e => Reject e
  | None => Reject ThrownUndefined
  end.

(** An awaited promise with the way it settled. *)
Definition settle {T} (p : async T) : async (outcome T) :=
  try_catch (v <- p ;; Resolve (Ok v)) (fun e => Resolve (Raise e)).

(** The [for] loop of [retryWithBackoff] at index [i], with [remaining]
    iterations before [i] reaches [maxRetries]. *)
Fixpoint retry_loop {T} (fn : async T) (maxRetries initialDelay : Z)
  (remaining : nat) (i : Z) (lastError : option exn) : async T :=
  match remaining with
  | O => throw_last lastError
  | S remaining' =>
      r <- settle fn ;;
      match r with
      | Ok v => Resolve v
      | Raise error =>
          (if (i <? maxRetries - 1)%Z
           then sleep (initialDelay * 2 ^ i)
           else Resolve tt) ;;
          retry_loop fn maxRetries initialDelay remaining' (i + 1)
                     (Some error)
      end
  end.

Definition retryWithBackoff {T} (fn : async T) (maxRetries initialDelay : Z)
  : async T :=
  retry_loop fn maxRetries initialDelay (Z.to_nat maxRetries) 0 None.

(** *** summarizeAndTranslate and summarizeInEnglish *)

(** The fields hold what the code puts into them at run time: the
    interface declares a string and one of three string literals, the
    parsed provider answer is cast to it unchecked. *)
Record SummaryWithSentiment : Type := {
  summary : json;
  sentiment : json
}.

Definition positive : json := JString (js "positive").
Definition negative : json := JString (js "negative").
Definition neutral : json := JString (js "neutral").

(** [['positive', 'negative', 'neutral'].includes(v)] *)
Definition in_sentiments (v : option json) : bool :=
  match v with
  | Some (JString s) =>
      jsstring_eqb s (js "positive") || jsstring_eqb s (js "negative")
      || jsstring_eqb s (js "neutral")
  | _ => false
  end.

(** [includes(parsed.sentiment) ? parsed.sentiment : 'neutral'] *)
Definition coerce_sentiment (v : option json) : json :=
  match v with
  | Some s => if in_sentiments v then s else neutral
  | None => neutral
  end.

(** [title] alone or [`${title}\n\n${text}`], cut at 2000 code units. *)
Definition summary_content (title : jsstring) (text : option jsstring)
  : jsstring :=
  let content :=
    match text with
    | Some t => if truthy_str t then title ++ [newline; newline] ++ t else title
    | None => title
    end in
  if (2000 <? length content)%nat
  then substring0 2000 content ++ js "..."
  else content.

Definition summary_request (system : instruction) (content : jsstring)
  : chat_request :=
  {| model := js "gpt-4o-mini";
     system := system;
     user := content;
     sampling := Some (3, 500)%N |}.

(** The retried action: one chat completion and its first content. *)
Definition ask_summary (system : instruction) (content : jsstring)
  : async jsstring :=
  response <- openaiChatCompletion (summary_request system content) ;;
  Resolve (first_content response).

(** [result.replace(/```json\n?|```\n?/g, '').trim()] *)
Definition strip_code_fence (result : jsstring) : jsstring :=
  trim (replace_all re_code_fence [] result).

Definition parse_result (result : jsstring) : outcome json :=
  match JSON_parse (strip_code_fence result) with
  | Some v => Ok v
  | None => Raise SyntaxError
  end.

(** The chain of replacements on [cleanSummary]. *)
Definition scrub (cleanSummary : jsstring) : jsstring :=
  let s := replace_all re_english_sentence (js ".") cleanSummary in
  let s :=
    fold_left (fun t start => replace_all (re_sentence_from start) (js ".") t)
              sentence_starts s in
  let s := replace_all re_trailing_verb [] s in
  let s := replace_all re_trailing_pronoun [] s in
  let s := replace_all re_trailing_word [] s in
  let s := trim s in
  let s := replace_all re_dots (js ".") s in
  replace_all re_final_dot (js ".") s.

(** The inner [try] block of [summarizeAndTranslate]. A truthy
    [parsed.summary] that is not a string has no [replace] method. *)
Definition turkish_summary (title result : jsstring)
  : outcome SummaryWithSentiment :=
  let? parsed := parse_result result in
  let? member := get_member parsed "summary" in
  let? cleanSummary :=
    (if truthy member then
       match member with
       | Some (JString s) => Ok s
       | _ => Raise TypeError
       end
     else Ok title) in
  let cleanSummary := scrub cleanSummary in
  let? label := get_member parsed "sentiment" in
  Ok {| summary :=
          JString (if truthy_str cleanSummary && (10 <? length cleanSummary)%nat
                   then cleanSummary else title);
        sentiment := coerce_sentiment label |}.

(** [v.length > 10] for a truthy parsed value [v]. *)
Definition length_exceeds_10 (v : json) : outcome bool :=
  match v with
  | JString s => Ok (10 <? length s)%nat
  | JArray l => Ok (10 <? length l)%nat
  | JObject members =>
      match lookup (js "length") members with
      | Some len => greater_than len 10
      | None => Ok false
      end
  | _ => Ok false
  end.

(** The inner [try] block of [summarizeInEnglish]. *)
Definition english_summary (title result : jsstring)
  : outcome SummaryWithSentiment :=
  let? parsed := parse_result result in
  let? member := get_member parsed "summary" in
  let? long :=
    (match member with
     | Some v => if truthy member then length_exceeds_10 v else Ok false
     | None => Ok false
     end) in
  let? label := get_member parsed "sentiment" in
  Ok {| summary :=
          match member with
          | Some v => if long then v else JString title
          | None => JString title
          end;
        sentiment := coerce_sentiment label |}.

(** The [catch (parseError)] of both functions. *)
Definition on_parse_error (result : jsstring) (parseError : exn)
  : async SummaryWithSentiment :=
  if truthy_str result && (10 <? length result)%nat
  then Resolve {| summary := JString result; sentiment := neutral |}
  else Reject parseError.

Definition untranslated (title : jsstring) : SummaryWithSentiment :=
  {| summary := JString title; sentiment := neutral |}.

(** The check on the translated title in the fallback of
    [summarizeAndTranslate]. *)
Definition title_accepted (title translatedTitle : jsstring) : bool :=
  let isDifferent :=
    negb (jsstring_eqb (toLowerCase translatedTitle) (toLowerCase title)) in
  let isLongEnough := (8 <? length translatedTitle)%nat in
  let hasNonEnglishChars := test re_turkish translatedTitle in
  truthy_str translatedTitle
  && (isDifferent || isLongEnough || hasNonEnglishChars).

Definition summarizeAndTranslate (title : jsstring) (text : option jsstring)
  : async SummaryWithSentiment :=
  try_catch
    (let content := summary_content title text in
     if negb (truthy_str content) || (length (trim content) =? 0)%nat then
       Resolve (untranslated title)
     else
       result <- retryWithBackoff
                   (ask_summary TurkishSummaryInstruction content) 3 1000 ;;
       try_catch (lift (turkish_summary title result))
                 (on_parse_error result))
    (fun error =>
       try_catch
         (translatedTitle <- retryWithBackoff (translateToTurkish title) 2 500 ;;
          if title_accepted title translatedTitle
          then Resolve {| summary := JString translatedTitle;
                          sentiment := neutral |}
          else Resolve (untranslated title))
         (fun translationError => Resolve (untranslated title))).

Definition summarizeInEnglish (title : jsstring) (text : option jsstring)
  : async SummaryWithSentiment :=
  try_catch
    (let content := summary_content title text in
     if negb (truthy_str content) || (length (trim content) =? 0)%nat then
       Resolve (untranslated title)
     else
       result <- retryWithBackoff
                   (ask_summary EnglishSummaryInstruction content) 3 1000 ;;
       try_catch (lift (english_summary title result))
                 (on_parse_error result))
    (fun error => Resolve (untranslated title)).

End Service.

(** The matcher, the parser and the normalizer are unfolded on demand
    only. *)
Arguments replace_all : simpl never.
Arguments exec_at : simpl never.
Arguments test : simpl never.
Arguments trim : simpl never.
Arguments JSON_parse : simpl never.
Arguments scrub : simpl never.
Arguments stripHtml : simpl never.
Arguments clean_text : simpl never.
Arguments stripHtml_fallback : simpl never.
Arguments retryWithBackoff : simpl never.
Arguments translateToTurkish : simpl never.

(* ===================================================================== *)
(** ** Properties of computations and results *)
(* ===================================================================== *)

(** Every way [p] can end is a fulfilment with a value in [P]: whatever the
    collaborators reply, [p] never rejects. *)
Inductive always {A} (P : A -> Prop) : async A -> Prop :=
| always_resolve (a : A) : P a -> always P (Resolve a)
| always_fetch req k :
    (forall r, always P (k r)) -> always P (AwaitFetch req k)
| always_chat req k :
    (forall r, always P (k r)) -> always P (AwaitChat req k)
| always_timeout ms k :
    (forall u, always P (k u)) -> always P (AwaitTimeout ms k).

(** Every fulfilment of [p] has a value in [P]; [p] may reject. *)
Inductive leaves {A} (P : A -> Prop) : async A -> Prop :=
| leaves_resolve (a : A) : P a -> leaves P (Resolve a)
| leaves_reject (e : exn) : leaves P (Reject e)
| leaves_fetch req k :
    (forall r, leaves P (k r)) -> leaves P (AwaitFetch req k)
| leaves_chat req k :
    (forall r, leaves P (k r)) -> leaves P (AwaitChat req k)
| leaves_timeout ms k :
    (forall u, leaves P (k u)) -> leaves P (AwaitTimeout ms k).

(** The declared type of a result: [summary: string] and
    [sentiment: 'positive' | 'negative' | 'neutral']. *)
Definition is_string (v : json) : Prop := exists s, v = JString s.
Definition nonempty_string (v : json) : Prop :=
  exists s, v = JString s /\ s <> [].
Definition valid_sentiment (v : json) : Prop :=
  v = positive \/ v = negative \/ v = neutral.
Definition well_typed (r : SummaryWithSentiment) : Prop :=
  is_string (summary r) /\ valid_sentiment (sentiment r).

(** The answer of the model endpoint that [summarizeAndTranslate] and
    [summarizeInEnglish] parse in the run from the world [w]: the content
    with which the retried summary request is fulfilled, when the content
    to summarize is not blank. *)
Definition provider_answer {W} `{Collaborators W} (system : instruction)
  (title : jsstring) (text : option jsstring) (w : W) (result : jsstring)
  : Prop :=
  negb (truthy_str (summary_content title text))
    || (length (trim (summary_content title text)) =? 0)%nat = false
  /\ fst (run (retryWithBackoff
                 (ask_summary system (summary_content title text)) 3 1000) w)
     = Ok result.

(** The answer parses, and [label] is the [sentiment] member of the parsed
    value: [None] when it has no such member. *)
Definition provider_sentiment (result : jsstring) (label : option json)
  : Prop :=
  exists parsed,
    parse_result result = Ok parsed
    /\ get_member parsed "sentiment" = Ok label.

(** What the closure says of a result [r] of a run that parsed the answer
    of the model endpoint or had none to parse. *)
Definition closed_under (answered : jsstring -> Prop)
  (r : SummaryWithSentiment) : Prop :=
  valid_sentiment (sentiment r)
  /\ (forall result label,
        answered result -> provider_sentiment result label ->
        (forall v, label = Some v -> ~ valid_sentiment v) ->
        sentiment r = neutral)
  /\ (sentiment r <> neutral ->
      exists result,
        answered result /\ provider_sentiment result (Some (sentiment r))).

(** Each invocation of a batch is where [translateToTurkish] of its text
    gets with the replies recorded beside it. *)
Definition batch_consistent {platform : Platform}
  (texts : list jsstring) (ps : pool jsstring) : Prop :=
  Forall2 (fun text pl => replay (translateToTurkish text) (snd pl)
                          = Some (fst pl)) texts ps.

(** *** The schedule of the retry controller, in the words of its
    contract

    Attempts are sequential; a failed attempt of index [j] is followed by a
    wait of [initialDelay * 2 ^ j] before the attempt of index [j + 1].
    [world_before i] is the world in which the attempt of index [i] starts
    when every earlier attempt failed. *)
Section RetrySchedule.

Context {W : Type} `{Collaborators W} {T : Type}.
Variable fn : async T.
Variable initialDelay : Z.

Fixpoint world_before (i : nat) (w : W) : W :=
  match i with
  | O => w
  | S j =>
      on_timeout (initialDelay * 2 ^ Z.of_nat j)
                 (snd (run fn (world_before j w)))
  end.

Definition attempt_outcome (i : nat) (w : W) : outcome T * W :=
  run fn (world_before i w).

Definition failed (r : outcome T * W) : Prop := exists e, fst r = Raise e.
Definition succeeded (r : outcome T * W) : Prop := exists v, fst r = Ok v.

End RetrySchedule.

(** *** Shapes of normalized text *)

(** Every white-space character is a single space not followed by white
    space. *)
Fixpoint collapsed (s : jsstring) : bool :=
  match s with
  | [] => true
  | c :: s' =>
      (if is_space c
       then (c =? 32)%N
            && match s' with d :: _ => negb (is_space d) | [] => true end
       else true)
      && collapsed s'
  end.

(** The white-space collapse [/\s+/g -> ' '] written directly: [in_run]
    tells that the preceding character was white space. *)
Fixpoint collapse_ws (in_run : bool) (s : jsstring) : jsstring :=
  match s with
  | [] => []
  | c :: s' =>
      if is_space c
      then if in_run then collapse_ws true s' else 32%N :: collapse_ws true s'
      else c :: collapse_ws false s'
  end.

(** The input after its leading characters in [p], and their number. *)
Fixpoint skip_while (p : N -> bool) (s : jsstring) : jsstring :=
  match s with
  | c :: s' => if p c then skip_while p s' else s
  | [] => []
  end.

Fixpoint run_length (p : N -> bool) (s : jsstring) : nat :=
  match s with
  | c :: s' => if p c then S (run_length p s') else O
  | [] => O
  end.

Definition head_not_space (s : jsstring) : bool :=
  match s with d :: _ => negb (is_space d) | [] => true end.

Definition no_pipe (s : jsstring) : Prop := Forall (fun c => c <> pipe) s.

(** A pattern that cannot match at a pipe character. *)
Definition no_match_at_pipe (p : regex) : Prop :=
  forall s, exec_at p (pipe :: s) = None.

Definition starts_with_pipe (s : jsstring) : Prop :=
  exists s', s = pipe :: s'.

(* ===================================================================== *)
(** ** Reference collaborators for the examples *)
(* ===================================================================== *)

Definition ascii_lower (c : N) : N := if upper c then (c + 32)%N else c.

(** The platform on text that is already plain: the text extraction of an
    input without markup, character references or leading white space is
    the input, and the lower case of an ASCII string is taken letter by
    letter. The examples use it on such input only and never reach
    [greater_than]. *)
Definition plain_platform : Platform :=
  {| cheerio_load := fun html => Some {| body_text := html; root_text := html |};
     toLowerCase := map ascii_lower;
     greater_than := fun _ _ => Ok false |}.

(** [s] inside [n] copies of the opening [tag]. *)
Fixpoint wrap (tag : jsstring) (n : nat) (s : jsstring) : jsstring :=
  match n with
  | O => s
  | S n' => tag ++ wrap tag n' s
  end.

(** Text nested [n] elements deep: [n] opening [div] tags, the text, [n]
    closing tags, and what follows the outermost element. *)
Definition nested (n : nat) (inner rest : jsstring) : jsstring :=
  wrap (js "<div>") n (inner ++ wrap (js "</div>") n rest).

(** A headline with a double space nested [n] elements deep, followed by a
    pipe and a source; and a single space nested [n] elements deep. *)
Definition deep_headline (n : nat) : jsstring :=
  nested n (js "Bitcoin  rallies") (js " | via feed").
Definition deep_blank (n : nat) : jsstring := nested n (js " ") [].

(** The number of elements open at the deepest point of [s]: [<] opens
    an element unless a slash follows it, and then it closes one. *)
Fixpoint nesting_from (open deepest : N) (s : jsstring) : N :=
  match s with
  | [] => deepest
  | c :: s' =>
      if (c =? 60)%N then
        match s' with
        | d :: _ =>
            if (d =? 47)%N then nesting_from (N.pred open) deepest s'
            else nesting_from (N.succ open) (N.max deepest (N.succ open)) s'
        | [] => deepest
        end
      else nesting_from open deepest s'
  end.

Definition nesting_depth (s : jsstring) : N := nesting_from 0 0 s.

(** The text of a document of elements and plain text: the document
    without its tags. *)
Definition text_content (html : jsstring) : jsstring :=
  replace_all re_tag [] html.

(** The depth of nesting beyond which the recursive text extraction of the
    library overflows the call stack on this platform. *)
Definition stack_limit : N := 100000.

(** The platform on documents of nested elements and plain text: the text
    extraction throws [RangeError] on a document nested deeper than
    [stack_limit], and returns the text without the tags otherwise. The
    examples use it on such documents only and never reach
    [greater_than]. *)
Definition overflowing_platform : Platform :=
  {| cheerio_load := fun html =>
       if (stack_limit <? nesting_depth html)%N then None
       else Some {| body_text := text_content html;
                    root_text := text_content html |};
     toLowerCase := map ascii_lower;
     greater_than := fun _ _ => Ok false |}.

(** A scripted world: the replies the proxy and the model endpoint will
    give, in order, and the waits requested so far, oldest first. A
    collaborator with no reply left rejects. *)
Record script : Type := {
  fetch_replies : list (outcome http_response);
  chat_replies : list (outcome chat_response);
  waits : list Z
}.

Definition scripted : Collaborators script :=
  {| on_fetch := fun _ w =>
       match fetch_replies w with
       | r :: rest =>
           (r, {| fetch_replies := rest; chat_replies := chat_replies w;
                  waits := waits w |})
       | [] => (Raise (External 0), w)
       end;
     on_chat := fun _ w =>
       match chat_replies w with
       | r :: rest =>
           (r, {| fetch_replies := fetch_replies w; chat_replies := rest;
                  waits := waits w |})
       | [] => (Raise (External 0), w)
       end;
     on_timeout := fun ms w =>
       {| fetch_replies := fetch_replies w; chat_replies := chat_replies w;
          waits := waits w ++ [ms] |} |}.

Definition headline_a : jsstring := js "Bitcoin hits a  new record".
Definition headline_b : jsstring := js "Ether falls below support".

(** Three failures of the model endpoint, each with its own error. *)
Definition failing_thrice : script :=
  {| fetch_replies := [];
     chat_replies := [Raise (External 1); Raise (External 2);
                      Raise (External 3)];
     waits := [] |}.

(** The world in which every request is rejected. *)
Definition silent : script :=
  {| fetch_replies := []; chat_replies := []; waits := [] |}.

(** The world in which the model endpoint answers once, then rejects. *)
Definition answering (response : chat_response) : script :=
  {| fetch_replies := []; chat_replies := [Ok response]; waits := [] |}.

(** A chat response whose first choice has the given content. *)
Definition answer (text : jsstring) : chat_response :=
  {| choices := [ {| message := Some {| content := Some text |} |} ] |}.

(** A string literal of JSON source text. *)
Definition quoted (s : string) : jsstring := (34%N :: js s) ++ [34%N].

(** [{"summary": "ok", "sentiment": "positive"}] *)
Definition short_summary_answer : jsstring :=
  js "{" ++ quoted "summary" ++ js ": " ++ quoted "ok" ++ js ", "
     ++ quoted "sentiment" ++ js ": " ++ quoted "positive" ++ js "}".

(** [{"summary": "Ether rose sharply today", "sentiment": ...}] with the
    given source text for the sentiment; without the member when there is
    none. *)
Definition labelled_answer (label : option jsstring) : jsstring :=
  js "{" ++ quoted "summary" ++ js ": " ++ quoted "Ether rose sharply today"
     ++ match label with
        | Some l => js ", " ++ quoted "sentiment" ++ js ": " ++ l
        | None => []
        end
     ++ js "}".

(** [{"summary": [1,2,3,4,5,6,7,8,9,10,11], "sentiment": "neutral"}] *)
Definition array_summary_answer : jsstring :=
  js "{" ++ quoted "summary" ++ js ": [1,2,3,4,5,6,7,8,9,10,11], "
     ++ quoted "sentiment" ++ js ": " ++ quoted "neutral" ++ js "}".

(* ===================================================================== *)
(** ** Counting the requests of a computation *)
(* ===================================================================== *)

(** On every path [p] issues at most [f] proxy requests, [c] chat requests
    and [t] waits. *)
Inductive at_most {A} : nat -> nat -> nat -> async A -> Prop :=
| at_most_resolve f c t (a : A) : at_most f c t (Resolve a)
| at_most_reject f c t (e : exn) : at_most f c t (Reject e)
| at_most_fetch f c t req k :
    (forall r, at_most f c t (k r)) -> at_most (S f) c t (AwaitFetch req k)
| at_most_chat f c t req k :
    (forall r, at_most f c t (k r)) -> at_most f (S c) t (AwaitChat req k)
| at_most_timeout f c t ms k :
    (forall u, at_most f c t (k u)) -> at_most f c (S t) (AwaitTimeout ms k).

(** Every proxy request of [p] is in [F], every chat request in [C], every
    wait in [T]. *)
Inductive requests {A} (F : proxy_request -> Prop) (C : chat_request -> Prop)
  (T : Z -> Prop) : async A -> Prop :=
| requests_resolve (a : A) : requests F C T (Resolve a)
| requests_reject (e : exn) : requests F C T (Reject e)
| requests_fetch req k :
    F req -> (forall r, requests F C T (k r)) ->
    requests F C T (AwaitFetch req k)
| requests_chat req k :
    C req -> (forall r, requests F C T (k r)) ->
    requests F C T (AwaitChat req k)
| requests_timeout ms k :
    T ms -> (forall u, requests F C T (k u)) ->
    requests F C T (AwaitTimeout ms k).

(** The body of a news item, [''] when there is none. *)
Definition body_text_of (text : option jsstring) : jsstring :=
  match text with Some t => t | None => [] end.

(** The proxy rejects every request, whatever the world. *)
Definition fetch_always_rejects {W} `{Collaborators W} : Prop :=
  forall req (w : W), exists e w', on_fetch req w = (Raise e, w').

(** The model endpoint rejects every request, whatever the world. *)
Definition chat_always_rejects {W} `{Collaborators W} : Prop :=
  forall req (w : W), exists e w', on_chat req w = (Raise e, w').

(** A successful response of the translation endpoint with the given
    translation. *)
Definition translated_reply (translation : string) : http_response :=
  {| ok := true;
     status := 200;
     body := js "{" ++ quoted "translatedText" ++ js ": " ++ quoted translation
                ++ js "}" |}.

(** Collaborators that reject every request; the world is the list of the
    waits so far, the latest first. *)
Definition outage : Collaborators (list Z) :=
  {| on_fetch := fun _ w => (Raise (External 0), w);
     on_chat := fun _ w => (Raise (External 0), w);
     on_timeout := fun ms w => ms :: w |}.

(** The world after three failed attempts at the model endpoint with the
    same request: a wait of 1000 ms after the first, of 2000 ms after the
    second, none after the third. *)
Definition after_three_attempts {W} `{Collaborators W} (req : chat_request)
  (w : W) : W :=
  snd (on_chat req
         (on_timeout 2000
            (snd (on_chat req (on_timeout 1000 (snd (on_chat req w))))))).

(** The answers on which the inner [try] block of [summarizeAndTranslate]
    throws. After the removal of the code fences and the trimming, the
    answer is not JSON source text ([JSON.parse] throws), or it is [null]
    ([parsed.summary] throws), or it is an object whose [summary] member is
    truthy and not a string: a number other than zero, [true], an array or
    an object, none of which has a [replace] method. *)
Definition unusable_answer (result : jsstring) : Prop :=
  JSON_parse (strip_code_fence result) = None
  \/ JSON_parse (strip_code_fence result) = Some JNull
  \/ exists members v,
       JSON_parse (strip_code_fence result) = Some (JObject members)
       /\ lookup (js "summary") members = Some v
       /\ truthy (Some v) = true
       /\ forall s, v <> JString s.

(** [{"summary": 5, "sentiment": "positive"}] *)
Definition numeric_summary_answer : jsstring :=
  js "{" ++ quoted "summary" ++ js ": 5, " ++ quoted "sentiment" ++ js ": "
     ++ quoted "positive" ++ js "}".

(** The world in which the proxy gives the reply once, then rejects. *)
Definition translating (reply : http_response) : script :=
  {| fetch_replies := [Ok reply]; chat_replies := []; waits := [] |}.

(* ===================================================================== *)
(** ** The metadata store *)
(* ===================================================================== *)

Module MetadataStorage.

(** [value: string | number] *)
Inductive trait_value : Type :=
| TraitString (s : jsstring)
| TraitNumber (n : Z).

Record attribute : Type := {
  trait_type : jsstring;
  value : trait_value
}.

Record NFTMetadata : Type := {
  tokenId : jsstring;
  name : jsstring;
  description : jsstring;
  image : jsstring;
  external_url : option jsstring;
  attributes : list attribute;
  timestamp : Z;
  minterAddress : option jsstring;
  newsId : option jsstring
}.

(** [new Map<string, NFTMetadata>()]: the entries in insertion order. *)
Definition metadataStore : Type := list (jsstring * NFTMetadata).

(** [map.set(key, v)]: the value of an existing key is replaced where the
    key stands, a new key goes to the end. *)
Fixpoint map_set (key : jsstring) (v : NFTMetadata) (m : metadataStore)
  : metadataStore :=
  match m with
  | [] => [(key, v)]
  | (k, x) :: rest =>
      if jsstring_eqb k key then (key, v) :: rest
      else (k, x) :: map_set key v rest
  end.

(** [map.get(key)]; [None] is [undefined]. *)
Fixpoint map_get (key : jsstring) (m : metadataStore) : option NFTMetadata :=
  match m with
  | [] => None
  | (k, x) :: rest => if jsstring_eqb k key then Some x else map_get key rest
  end.

(** [map.has(key)] *)
Fixpoint map_has (key : jsstring) (m : metadataStore) : bool :=
  match m with
  | [] => false
  | (k, _) :: rest => jsstring_eqb k key || map_has key rest
  end.

Definition saveMetadata (metadata : NFTMetadata) (store : metadataStore)
  : metadataStore :=
  map_set (tokenId metadata) metadata store.

(** [metadataStore.get(tokenId) || null]: an object is truthy, so the
    result is [null] exactly when the key is absent. *)
Definition getMetadata (id : jsstring) (store : metadataStore)
  : option NFTMetadata :=
  map_get id store.

Definition hasMetadata (id : jsstring) (store : metadataStore) : bool :=
  map_has id store.

(** [Array.from(metadataStore.values())] *)
Definition getAllMetadata (store : metadataStore) : list NFTMetadata :=
  map snd store.

(** The store after the calls [saveMetadata(m)] for the [m] of a list, in
    order, from the empty map the module starts with. *)
Definition saved (ms : list NFTMetadata) : metadataStore :=
  fold_left (fun store m => saveMetadata m store) ms [].

(** The keys are pairwise different and each entry stands under its own
    token id. *)
Definition store_invariant (store : metadataStore) : Prop :=
  NoDup (map fst store) /\ Forall (fun e => fst e = tokenId (snd e)) store.

(** The two readings of the clock in [createNFTMetadata]:
    [new Date().toISOString()] and [Date.now()]. *)
Record clock : Type := {
  toISOString : jsstring;
  now : Z
}.

Definition volt_image : jsstring :=
  js "https://chocolate-fascinating-hare-258.mypinata.cloud/ipfs/bafybeigwiu7fzvzi7zzdkive7fbdjnsrb66smkflsubq4fitu46cxbbvrm".

(** [newsContent.length > 200 ? newsContent.substring(0, 200) + '...' :
    newsContent] *)
Definition shortDescription (newsContent : jsstring) : jsstring :=
  if (200 <? length newsContent)%nat
  then substring0 200 newsContent ++ js "..."
  else newsContent.

Definition createNFTMetadata (time : clock)
  (id newsTitle newsContent newsDate : jsstring) (newsUrl : option jsstring)
  (language : lang) (minter : option jsstring) (news : option jsstring)
  : NFTMetadata :=
  {| tokenId := id;
     name := js "Volt News";
     description := shortDescription newsContent;
     image := volt_image;
     external_url := newsUrl;
     attributes :=
       [ {| trait_type := js "Date"; value := TraitString newsDate |};
         {| trait_type := js "Source"; value := TraitString (js "Volt News") |};
         {| trait_type := js "Mint Time";
            value := TraitString (toISOString time) |} ];
     timestamp := now time;
     minterAddress := minter;
     newsId := news |}.



End MetadataStorage.

(* ===================================================================== *)
(** ** The storage module on unchecked values *)
(* ===================================================================== *)

(** The save route casts the body of the request to its declared shape
    without a check and passes the members on, so any JSON value can
    arrive where the signatures of the storage module declare a string.
    This is the storage module on such values; on values of the declared
    types it is [MetadataStorage]. *)

(** [String(x)] for a number, given by its token: taken from the runtime,
    like the lower case of a string. *)
Class Numbers : Type := {
  number_toString : Z -> Z -> jsstring
}.

Module UncheckedStorage.

Section Values.

Context {platform : Platform} {numbers : Numbers}.

(** [ToString] of a parsed value, as a template literal applies it. An
    array is its elements joined by commas, [null] among them as the empty
    string. An object is [[object Object]], unless it has a member named
    [toString]: the member hides the method, it is not callable, and the
    conversion throws. *)
Fixpoint to_string (v : json) : outcome jsstring :=
  match v with
  | JNull => Ok (js "null")
  | JBool b => Ok (if b then js "true" else js "false")
  | JNumber m e => Ok (number_toString m e)
  | JString s => Ok s
  | JArray l =>
      (fix join (first : bool) (l : list json) : outcome jsstring :=
         match l with
         | [] => Ok []
         | x :: rest =>
             let? s := match x with
                       | JNull => Ok []
                       | _ => to_string x
                       end in
             let? t := join false rest in
             Ok ((if first then [] else js ",") ++ s ++ t)
         end) true l
  | JObject members =>
      match lookup (js "toString") members with
      | Some _ => Raise TypeError
      | None => Ok (js "[object Object]")
      end
  end.

(** [`${v}`] for a member that may be absent. *)
Definition interpolate (v : option json) : outcome jsstring :=
  match v with
  | Some x => to_string x
  | None => Ok (js "undefined")
  end.

(** The comparison of map keys. Strings, booleans and [null] are compared
    by value, numbers by the value of their tokens: two numbers are the
    same exactly when their strings are. An array or an object is a
    reference: the one a request body was parsed into is new, and is the
    same as no key of the map and as no key used later. *)
Definition same_key (a b : json) : bool :=
  match a, b with
  | JNull, JNull => true
  | JBool x, JBool y => Bool.eqb x y
  | JNumber m e, JNumber m' e' =>
      jsstring_eqb (number_toString m e) (number_toString m' e')
  | JString s, JString t => jsstring_eqb s t
  | _, _ => false
  end.

Record attribute : Type := {
  trait_type : jsstring;
  value : json
}.

(** An object built by [createNFTMetadata], with what its members hold at
    run time. *)
Record NFTMetadata : Type := {
  tokenId : json;
  name : jsstring;
  description : json;
  image : jsstring;
  external_url : option jsstring;
  attributes : list attribute;
  timestamp : Z;
  minterAddress : option json;
  newsId : option json
}.

Definition metadataStore : Type := list (json * NFTMetadata).

Fixpoint map_set (key : json) (v : NFTMetadata) (m : metadataStore)
  : metadataStore :=
  match m with
  | [] => [(key, v)]
  | (k, x) :: rest =>
      if same_key k key then (key, v) :: rest
      else (k, x) :: map_set key v rest
  end.

Fixpoint map_get (key : json) (m : metadataStore) : option NFTMetadata :=
  match m with
  | [] => None
  | (k, x) :: rest => if same_key k key then Some x else map_get key rest
  end.

(** [saveMetadata]: the entry is set, then the log line converts the token
    id to a string, which can throw. *)
Definition saveMetadata (metadata : NFTMetadata) (store : metadataStore)
  : outcome unit * metadataStore :=
  (let? _ := to_string (tokenId metadata) in Ok tt,
   map_set (tokenId metadata) metadata store).

Definition getMetadata (id : json) (store : metadataStore)
  : option NFTMetadata :=
  map_get id store.

(** [newsContent.length > 200 ? newsContent.substring(0, 200) + '...' :
    newsContent]. [null] has no [length]; a number and a boolean have
    none either, and [undefined > 200] is false; an array or an object
    with a [length] above 200 has no [substring] method. *)
Definition shortDescription (newsContent : json) : outcome json :=
  match newsContent with
  | JNull => Raise TypeError
  | JBool _ | JNumber _ _ => Ok newsContent
  | JString s => Ok (JString (MetadataStorage.shortDescription s))
  | JArray l =>
      if (200 <? length l)%nat then Raise TypeError else Ok newsContent
  | JObject members =>
      match lookup (js "length") members with
      | Some len =>
          let? long := greater_than len 200 in
          if long then Raise TypeError else Ok newsContent
      | None => Ok newsContent
      end
  end.

Definition createNFTMetadata (time : MetadataStorage.clock)
  (id newsTitle newsContent newsDate : json) (newsUrl : option jsstring)
  (language : json) (minter : option json) (news : option json)
  : outcome NFTMetadata :=
  let? shortDescription := shortDescription newsContent in
  Ok {| tokenId := id;
        name := js "Volt News";
        description := shortDescription;
        image := MetadataStorage.volt_image;
        external_url := newsUrl;
        attributes :=
          [ {| trait_type := js "Date"; value := newsDate |};
            {| trait_type := js "Source"; value := JString (js "Volt News") |};
            {| trait_type := js "Mint Time";
               value := JString (MetadataStorage.toISOString time) |} ];
        timestamp := MetadataStorage.now time;
        minterAddress := minter;
        newsId := news |}.

(** A value of the declared types as the value it is at run time. *)
Definition of_trait (v : MetadataStorage.trait_value) : json :=
  match v with
  | MetadataStorage.TraitString s => JString s
  | MetadataStorage.TraitNumber n => JNumber n 0
  end.

Definition of_typed (m : MetadataStorage.NFTMetadata) : NFTMetadata :=
  {| tokenId := JString (MetadataStorage.tokenId m);
     name := MetadataStorage.name m;
     description := JString (MetadataStorage.description m);
     image := MetadataStorage.image m;
     external_url := MetadataStorage.external_url m;
     attributes :=
       map (fun a => {| trait_type := MetadataStorage.trait_type a;
                        value := of_trait (MetadataStorage.value a) |})
           (MetadataStorage.attributes m);
     timestamp := MetadataStorage.timestamp m;
     minterAddress := option_map JString (MetadataStorage.minterAddress m);
     newsId := option_map JString (MetadataStorage.newsId m) |}.

Definition of_typed_store (store : MetadataStorage.metadataStore)
  : metadataStore :=
  map (fun e => (JString (fst e), of_typed (snd e))) store.

End Values.

End UncheckedStorage.

(* ===================================================================== *)
(** ** The metadata routes *)
(* ===================================================================== *)

Module MetadataRoutes.

(** The bodies the two routes answer with. *)
Inductive payload : Type :=
| ErrorBody (error : jsstring)
| NotFoundBody (error message tokenId : jsstring)
| MetadataBody (name : jsstring) (description : json) (image : jsstring)
    (external_url : option jsstring)
    (attributes : list UncheckedStorage.attribute)
| SavedBody (tokenId : json) (metadataUrl : jsstring).

(** [NextResponse.json(body, { status, headers })]; the status is 200 when
    none is given. *)
Record NextResponse : Type := {
  status : N;
  body : payload;
  headers : list (jsstring * jsstring)
}.

Definition json_response (b : payload) (code : N) : NextResponse :=
  {| status := code; body := b; headers := [] |}.

(** [`Token ID ${tokenId} henüz mint edilmemiş veya metadata
    kaydedilmemiş.`] *)
Definition not_minted_message (id : jsstring) : jsstring :=
  js "Token ID " ++ id ++ js " hen" ++ [252%N] ++ js "z mint edilmemi"
     ++ [351%N] ++ js " veya metadata kaydedilmemi" ++ [351%N] ++ js ".".

Section Routes.

Context {platform : Platform} {numbers : Numbers}.

(** [GET /api/metadata/[tokenId]]. [params] is the way [context.params]
    settled; the parameter of a route is a string. *)
Definition GET (params : outcome jsstring)
  (store : UncheckedStorage.metadataStore) : NextResponse :=
  match params with
  | Raise _ => json_response (ErrorBody (js "Internal server error")) 500
  | Ok id =>
      if negb (truthy_str id) then
        json_response (ErrorBody (js "Token ID is required")) 400
      else
        match UncheckedStorage.getMetadata (JString id) store with
        | None =>
            json_response
              (NotFoundBody (js "Metadata not found") (not_minted_message id) id)
              404
        | Some metadata =>
            {| status := 200;
               body := MetadataBody (UncheckedStorage.name metadata)
                         (UncheckedStorage.description metadata)
                         (UncheckedStorage.image metadata)
                         (UncheckedStorage.external_url metadata)
                         (UncheckedStorage.attributes metadata);
               headers :=
                 [ (js "Content-Type", js "application/json");
                   (js "Cache-Control",
                    js "public, s-maxage=3600, stale-while-revalidate=86400") ] |}
        end
  end.

(** [a || b] when [a] is a string or absent. *)
Definition or_default (a : option jsstring) (b : jsstring) : jsstring :=
  match a with
  | Some s => or_else s b
  | None => b
  end.

(** [process.env.NEXT_PUBLIC_BASE_URL || request.headers.get('origin') ||
    'https://your-app.vercel.app'] *)
Definition base_url (env origin : option jsstring) : jsstring :=
  or_default env (or_default origin (js "https://your-app.vercel.app")).

(** The members that the route takes from the body, in the order of the
    destructuring pattern; an absent member is [undefined]. *)
Record save_body : Type := {
  tokenId : option json;
  title : option json;
  content : option json;
  date : option json;
  newsId : option json;
  language : option json;
  minterAddress : option json
}.

(** [const { tokenId, title, content, date, newsId, language = 'tr',
    minterAddress } = body]: a [TypeError] on [null], the members of an
    object, [undefined] for each on any other value. *)
Definition destructure (body : json) : outcome save_body :=
  let? tokenId := get_member body "tokenId" in
  let? title := get_member body "title" in
  let? content := get_member body "content" in
  let? date := get_member body "date" in
  let? newsId := get_member body "newsId" in
  let? language := get_member body "language" in
  let? minterAddress := get_member body "minterAddress" in
  Ok {| tokenId := tokenId; title := title; content := content; date := date;
        newsId := newsId; language := language;
        minterAddress := minterAddress |}.

(** The negation of [!tokenId || !title || !content || !date]. *)
Definition required (b : save_body) : bool :=
  truthy (tokenId b) && truthy (title b) && truthy (content b)
  && truthy (date b).

(** The metadata the route builds from a body that passed the check: the
    URL of the news, then [createNFTMetadata]. A member that passed the
    check is not [undefined]. *)
Definition build (time : MetadataStorage.clock) (env origin : option jsstring)
  (b : save_body) : outcome UncheckedStorage.NFTMetadata :=
  match tokenId b, title b, content b, date b with
  | Some id, Some newsTitle, Some newsContent, Some newsDate =>
      let baseUrl := base_url env origin in
      let? news := UncheckedStorage.interpolate (newsId b) in
      let newsUrl := baseUrl ++ js "/news/" ++ news in
      UncheckedStorage.createNFTMetadata time id newsTitle newsContent
        newsDate (Some newsUrl)
        (match language b with Some l => l | None => JString (js "tr") end)
        (minterAddress b) (newsId b)
  | _, _, _, _ => Raise TypeError
  end.

(** [POST /api/metadata/save]. [parsed] is the way [request.json()]
    settled, [env] the environment variable and [origin] the request
    header, each a string or absent. The [catch] answers 500 whatever was
    thrown and wherever: also after [saveMetadata] has set the entry, when
    one of the three template literals that follow cannot convert the
    token id. *)
Definition POST (time : MetadataStorage.clock) (env origin : option jsstring)
  (parsed : outcome json) (store : UncheckedStorage.metadataStore)
  : NextResponse * UncheckedStorage.metadataStore :=
  let failed := json_response (ErrorBody (js "Failed to save metadata")) 500 in
  match (let? body := parsed in destructure body) with
  | Raise _ => (failed, store)
  | Ok b =>
      if negb (required b) then
        (json_response
           (ErrorBody
              (js "Missing required fields: tokenId, title, content, date"))
           400, store)
      else
        match build time env origin b with
        | Raise _ => (failed, store)
        | Ok metadata =>
            let (logged, store') :=
              UncheckedStorage.saveMetadata metadata store in
            match logged,
                  UncheckedStorage.to_string (UncheckedStorage.tokenId metadata)
            with
            | Ok _, Ok id =>
                (json_response
                   (SavedBody (UncheckedStorage.tokenId metadata)
                      (base_url env origin ++ js "/api/metadata/" ++ id))
                   200, store')
            | _, _ => (failed, store')
            end
        end
  end.

(** The store after a sequence of save requests, oldest first. *)
Definition after_posts (time : MetadataStorage.clock)
  (env origin : option jsstring) (posts : list (outcome json))
  (store : UncheckedStorage.metadataStore) : UncheckedStorage.metadataStore :=
  fold_left (fun s p => snd (POST time env origin p s)) posts store.

(** A save request that sets the entry of the token id [id], a string:
    the body is read, passes the check with that token id, and the
    metadata can be built. *)
Definition saves_token (time : MetadataStorage.clock)
  (env origin : option jsstring) (id : jsstring) (p : outcome json) : bool :=
  match (let? body := p in destructure body) with
  | Ok b =>
      required b
      && match tokenId b with
         | Some (JString i) => jsstring_eqb i id
         | _ => false
         end
      && match build time env origin b with Ok _ => true | Raise _ => false end
  | Raise _ => false
  end.

End Routes.

End MetadataRoutes.

(* ===================================================================== *)
(** ** Token identifiers *)
(* ===================================================================== *)

Module Web3Config.

(** [ToInt32]: the integer modulo [2 ^ 32] in the signed 32-bit range. *)
Definition toInt32 (x : Z) : Z := ((x + 2 ^ 31) mod 2 ^ 32 - 2 ^ 31)%Z.

(** One turn of the loop: [hash = ((hash << 5) - hash) + char] and
    [hash = hash & hash]. The shift takes [ToInt32] of its operand and of
    its result; the subtraction and the addition are exact. *)
Definition hash_step (hash : Z) (char : N) : Z :=
  let shifted := toInt32 (toInt32 hash * 2 ^ 5) in
  let hash := (shifted - hash + Z.of_N char)%Z in
  toInt32 hash.

(** [Math.abs(hash).toString()] of the hash of the code units. *)
Definition generateTokenId (id : jsstring) : jsstring :=
  decimal (Z.to_N (Z.abs (fold_left hash_step id 0%Z))).

(** The polynomial of base 31 over the code units, without reduction. *)
Definition polynomial31 (id : jsstring) : Z :=
  fold_left (fun h c => (h * 31 + Z.of_N c)%Z) id 0%Z.

End Web3Config.

(* ===================================================================== *)
(** ** The save request of the mint hook *)
(* ===================================================================== *)

Module UseNFTMint.

(** [interface NewsMetadata] as far as the save request reads it. *)
Record NewsMetadata : Type := {
  title : jsstring;
  content : jsstring;
  date : jsstring
}.

(** The body [mintNFT] posts to [/api/metadata/save] before minting, as
    [request.json()] reads it back: an object whose members are the
    strings of the hook, in the order in which it lists them. The token
    id is [generateTokenId(newsId)]. *)
Definition save_request (newsId : jsstring) (metadata : NewsMetadata)
  (language : lang) (signerAddress : jsstring) : json :=
  JObject
    [ (js "tokenId", JString (Web3Config.generateTokenId newsId));
      (js "title", JString (title metadata));
      (js "content", JString (content metadata));
      (js "date", JString (date metadata));
      (js "newsId", JString newsId);
      (js "language", JString (lang_code language));
      (js "minterAddress", JString signerAddress) ].

End UseNFTMint.

(** The numbers of the examples: integers, written without an exponent,
    below [10 ^ 21], where [String] gives the decimal digits. The examples
    use it on such numbers only. *)
Definition integer_numbers : Numbers :=
  {| number_toString := fun m e =>
       (if (m <? 0)%Z then js "-" else [])
       ++ decimal (Z.to_N (Z.abs m * 10 ^ e)) |}.

(** [{"tokenId": 47, "title": "t", "content": "c", "date": "d"}] as
    [request.json()] reads it. *)
Definition numeric_token_body : json :=
  JObject [ (js "tokenId", JNumber 47 0); (js "title", JString (js "t"));
            (js "content", JString (js "c")); (js "date", JString (js "d")) ].

(** The same with the token id [{"toString": 1}], an object that cannot be
    converted to a string. *)
Definition opaque_token_body : json :=
  JObject [ (js "tokenId", JObject [(js "toString", JNumber 1 0)]);
            (js "title", JString (js "t"));
            (js "content", JString (js "c")); (js "date", JString (js "d")) ].

(* ===================================================================== *)
(** ** Theorems *)
(* ===================================================================== *)

(** *** Running binds and handlers *)

Section RunLemmas.

Context {W : Type} `{Collaborators W}.

Lemma run_bind {A B} (p : async A) (f : A -> async B) (w : W) :
  run (bind p f) w =
  match run p w with
  | (Ok a, w') => run (f a) w'
  | (Raise e, w') => (Raise e, w')
  end.
Proof.
  revert w; induction p as [a|e|req k IH|req k IH|ms k IH]; intro w; simpl;
    try reflexivity.
  - destruct (on_fetch req w) as [r w']; apply IH.
  - destruct (on_chat req w) as [r w']; apply IH.
  - apply IH.
Qed.

Lemma run_try_catch {A} (p : async A) (handler : exn -> async A) (w : W) :
  run (try_catch p handler) w =
  match run p w with
  | (Ok a, w') => (Ok a, w')
  | (Raise e, w') => run (handler e) w'
  end.
Proof.
  revert w; induction p as [a|e|req k IH|req k IH|ms k IH]; intro w; simpl;
    try reflexivity.
  - destruct (on_fetch req w) as [r w']; apply IH.
  - destruct (on_chat req w) as [r w']; apply IH.
  - apply IH.
Qed.

Lemma run_settle {T} (p : async T) (w : W) :
  run (settle p) w = (Ok (fst (run p w)), snd (run p w)).
Proof.
  unfold settle. rewrite run_try_catch, run_bind.
  destruct (run p w) as [[v|e] w']; reflexivity.
Qed.

Lemma always_run {A} (P : A -> Prop) (p : async A) :
  always P p -> forall w : W, exists a w', run p w = (Ok a, w') /\ P a.
Proof.
  induction 1 as [a Ha|req k _ IH|req k _ IH|ms k _ IH]; intro w; simpl.
  - exists a, w; split; [reflexivity|assumption].
  - destruct (on_fetch req w) as [r w']; apply IH.
  - destruct (on_chat req w) as [r w']; apply IH.
  - apply IH.
Qed.

End RunLemmas.

(** *** The shape of computation trees *)

Lemma always_weaken {A} (P Q : A -> Prop) (p : async A) :
  (forall a, P a -> Q a) -> always P p -> always Q p.
Proof. intros HPQ; induction 1; constructor; auto. Qed.

Lemma leaves_weaken {A} (P Q : A -> Prop) (p : async A) :
  (forall a, P a -> Q a) -> leaves P p -> leaves Q p.
Proof. intros HPQ; induction 1; constructor; auto. Qed.

Lemma always_leaves {A} (P : A -> Prop) (p : async A) :
  always P p -> leaves P p.
Proof. induction 1; constructor; auto. Qed.

Lemma leaves_bind {A B} (P : B -> Prop) (p : async A) (f : A -> async B) :
  (forall a, leaves P (f a)) -> leaves P (bind p f).
Proof. intro Hf; induction p; simpl; try constructor; auto. Qed.

Lemma always_bind {A B} (Q : A -> Prop) (P : B -> Prop)
  (p : async A) (f : A -> async B) :
  always Q p -> (forall a, Q a -> always P (f a)) -> always P (bind p f).
Proof. intros Hp Hf; induction Hp; simpl; try constructor; auto. Qed.

Lemma leaves_try_catch {A} (P : A -> Prop) (p : async A) handler :
  leaves P p -> (forall e, leaves P (handler e)) ->
  leaves P (try_catch p handler).
Proof. intros Hp Hh; induction Hp; simpl; try constructor; auto. Qed.

(** A handler that never rejects makes the whole [try] never reject. *)
Lemma always_try_catch {A} (P : A -> Prop) (p : async A) handler :
  leaves P p -> (forall e, always P (handler e)) ->
  always P (try_catch p handler).
Proof. intros Hp Hh; induction Hp; simpl; try constructor; auto. Qed.

(** A body that never rejects never reaches its handler. *)
Lemma try_catch_always {A} (P : A -> Prop) (p : async A) handler :
  always P p -> always P (try_catch p handler).
Proof. induction 1; simpl; constructor; auto. Qed.

Lemma leaves_lift {A} (P : A -> Prop) (o : outcome A) :
  (forall a, o = Ok a -> P a) -> leaves P (lift o).
Proof. destruct o; simpl; constructor; auto. Qed.

Lemma leaves_true {A} (p : async A) : leaves (fun _ => True) p.
Proof. induction p; constructor; auto. Qed.

(** *** Strings *)

Lemma jsstring_eqb_eq (a b : jsstring) : jsstring_eqb a b = true <-> a = b.
Proof.
  unfold jsstring_eqb; destruct (list_eq_dec N.eq_dec a b); split;
    congruence.
Qed.

Lemma truthy_str_nonempty (s : jsstring) : truthy_str s = true <-> s <> [].
Proof. destruct s; simpl; split; congruence. Qed.

Lemma longer_nonempty (n : nat) (s : jsstring) :
  (n <? length s)%nat = true -> s <> [].
Proof. destruct s; simpl; [rewrite Nat.ltb_lt; lia|congruence]. Qed.

Lemma Ok_inj {A} (a b : A) : Ok a = Ok b -> a = b.
Proof. congruence. Qed.

(** *** Sentiment coercion *)

Lemma coerce_sentiment_valid (v : option json) :
  valid_sentiment (coerce_sentiment v).
Proof.
  unfold valid_sentiment, coerce_sentiment.
  destruct v as [v|]; [|auto].
  destruct (in_sentiments (Some v)) eqn:E; [|auto].
  destruct v; simpl in E; try discriminate.
  apply orb_prop in E as [E|E]; [apply orb_prop in E as [E|E]|];
    apply jsstring_eqb_eq in E; subst; unfold positive, negative, neutral;
    auto.
Qed.

(** A value outside the set, a number and an absent member all become
    ['neutral']; a value of the set is kept. *)
Example coerce_sentiment_examples :
  coerce_sentiment (Some (JString (js "Positive!"))) = neutral
  /\ coerce_sentiment (Some (JNumber 1 0)) = neutral
  /\ coerce_sentiment None = neutral
  /\ coerce_sentiment (Some (JString (js "negative"))) = negative.
Proof. repeat split; vm_compute; reflexivity. Qed.

Section Orchestrators.

Context {platform : Platform}.

Lemma turkish_summary_typed (title result : jsstring) r :
  turkish_summary title result = Ok r -> well_typed r.
Proof.
  unfold turkish_summary, obind.
  destruct (parse_result result) as [parsed|]; [|discriminate].
  destruct (get_member parsed "summary") as [member|]; [|discriminate].
  destruct (if truthy member then _ else _) as [cleanSummary|];
    [|discriminate].
  destruct (get_member parsed "sentiment") as [label|]; [|discriminate].
  intro E; apply Ok_inj in E; rewrite <- E; split; cbn [summary sentiment].
  - eexists; reflexivity.
  - apply coerce_sentiment_valid.
Qed.

Lemma english_summary_sentiment (title result : jsstring) r :
  english_summary title result = Ok r -> valid_sentiment (sentiment r).
Proof.
  unfold english_summary, obind.
  destruct (parse_result result) as [parsed|]; [|discriminate].
  destruct (get_member parsed "summary") as [member|]; [|discriminate].
  destruct (match member with Some _ => _ | None => _ end) as [long|];
    [|discriminate].
  destruct (get_member parsed "sentiment") as [label|]; [|discriminate].
  intro E; apply Ok_inj in E; rewrite <- E; cbn [sentiment].
  apply coerce_sentiment_valid.
Qed.

Lemma valid_neutral : valid_sentiment neutral.
Proof. unfold valid_sentiment; auto. Qed.

Lemma on_parse_error_leaves (P : SummaryWithSentiment -> Prop) result e :
  (result <> [] -> P {| summary := JString result; sentiment := neutral |}) ->
  leaves P (on_parse_error result e).
Proof.
  intro HP; unfold on_parse_error.
  destruct (truthy_str result && _) eqn:E; constructor.
  apply andb_prop in E as [E _]. apply HP, truthy_str_nonempty, E.
Qed.

(** The fallback tier of [summarizeAndTranslate] never rejects; its result
    is the translated title, when accepted, or the title. *)
Lemma title_fallback_always (P : SummaryWithSentiment -> Prop) title :
  P (untranslated title) ->
  (forall t, t <> [] -> P {| summary := JString t; sentiment := neutral |}) ->
  always P
    (try_catch
       (translatedTitle <- retryWithBackoff (translateToTurkish title) 2 500 ;;
        if title_accepted title translatedTitle
        then Resolve {| summary := JString translatedTitle;
                        sentiment := neutral |}
        else Resolve (untranslated title))
       (fun translationError => Resolve (untranslated title))).
Proof.
  intros Htitle Hany. apply always_try_catch.
  - apply leaves_bind; intro t.
    destruct (title_accepted title t) eqn:E; constructor; auto.
    apply Hany. unfold title_accepted in E.
    apply andb_prop in E as [E _]. apply truthy_str_nonempty, E.
  - intro e; constructor; assumption.
Qed.

Lemma summarizeAndTranslate_always (P : SummaryWithSentiment -> Prop)
  title text :
  P (untranslated title) ->
  (forall t, t <> [] -> P {| summary := JString t; sentiment := neutral |}) ->
  (forall result r, turkish_summary title result = Ok r -> P r) ->
  always P (summarizeAndTranslate title text).
Proof.
  intros Htitle Hany Hparsed. unfold summarizeAndTranslate.
  apply always_try_catch.
  - destruct (negb _ || _); [constructor; assumption|].
    apply leaves_bind; intro result. apply leaves_try_catch.
    + apply leaves_lift, Hparsed.
    + intro e; apply on_parse_error_leaves, Hany.
  - intro e; apply title_fallback_always; assumption.
Qed.

Lemma summarizeInEnglish_always (P : SummaryWithSentiment -> Prop)
  title text :
  P (untranslated title) ->
  (forall t, t <> [] -> P {| summary := JString t; sentiment := neutral |}) ->
  (forall result r, english_summary title result = Ok r -> P r) ->
  always P (summarizeInEnglish title text).
Proof.
  intros Htitle Hany Hparsed. unfold summarizeInEnglish.
  apply always_try_catch.
  - destruct (negb _ || _); [constructor; assumption|].
    apply leaves_bind; intro result. apply leaves_try_catch.
    + apply leaves_lift, Hparsed.
    + intro e; apply on_parse_error_leaves, Hany.
  - intro e; constructor; assumption.
Qed.

Lemma translateToTurkish_never_rejects text :
  always (fun _ => True) (translateToTurkish text).
Proof.
  unfold translateToTurkish. apply always_try_catch.
  - apply leaves_true.
  - intro e; constructor; exact I.
Qed.

Lemma translateText_never_rejects text targetLang :
  always (fun _ => True) (translateText text targetLang).
Proof.
  destruct targetLang; simpl.
  - apply translateToTurkish_never_rejects.
  - constructor; exact I.
Qed.

(** Totality of the four orchestrators: whatever the input and whatever the
    collaborators do, the promise is fulfilled; the result of
    [summarizeAndTranslate] has the declared type. *)
Lemma orchestrators_never_reject {W} `{Collaborators W}
  (text title : jsstring) (targetLang : lang) (body : option jsstring) (w : W) :
  (exists s w', run (translateText text targetLang) w = (Ok s, w'))
  /\ (exists s w', run (translateToTurkish text) w = (Ok s, w'))
  /\ (exists r w', run (summarizeAndTranslate title body) w = (Ok r, w')
                   /\ well_typed r)
  /\ (exists r w', run (summarizeInEnglish title body) w = (Ok r, w')
                   /\ valid_sentiment (sentiment r)).
Proof.
  repeat split.
  - destruct (always_run (translateText_never_rejects text targetLang) w)
      as (s & w' & E & _); eauto.
  - destruct (always_run (translateToTurkish_never_rejects text) w)
      as (s & w' & E & _); eauto.
  - apply always_run, summarizeAndTranslate_always.
    + split; [eexists; reflexivity|apply valid_neutral].
    + intros t _; split; [eexists; reflexivity|apply valid_neutral].
    + intros result r; apply turkish_summary_typed.
  - apply always_run, summarizeInEnglish_always.
    + apply valid_neutral.
    + intros t _; apply valid_neutral.
    + intros result r; apply english_summary_sentiment.
Qed.

End Orchestrators.

(** *** The retry controller *)

Section RetryController.

Context {platform : Platform} {W : Type} `{Collaborators W} {T : Type}.
Variable fn : async T.
Variables maxRetries initialDelay : Z.

Lemma run_sleep_then {A} (ms : Z) (f : unit -> async A) (w : W) :
  run (bind (sleep ms) f) w = run (f tt) (on_timeout ms w).
Proof. reflexivity. Qed.

(** The loop at index [i], entered in the world the schedule prescribes,
    ends as one of the attempts [k >= i] ends: the first that succeeds, or
    the last one. *)
Lemma retry_loop_schedule (remaining i : nat) (lastError : option exn) (w : W) :
  (Z.of_nat i + Z.of_nat (S remaining) = maxRetries)%Z ->
  exists k : nat,
    (i <= k)%nat /\ (Z.of_nat k < maxRetries)%Z
    /\ (forall j, (i <= j < k)%nat -> failed (attempt_outcome fn initialDelay j w))
    /\ run (retry_loop fn maxRetries initialDelay (S remaining) (Z.of_nat i)
                       lastError)
           (world_before fn initialDelay i w)
       = attempt_outcome fn initialDelay k w
    /\ (succeeded (attempt_outcome fn initialDelay k w)
        \/ Z.of_nat k = (maxRetries - 1)%Z).
Proof.
  revert i lastError.
  induction remaining as [|remaining IH]; intros i lastError Hi.
  - (* the final attempt *)
    exists i. split; [lia|]. split; [lia|]. split; [intros j Hj; lia|].
    cbn [retry_loop]. rewrite run_bind, run_settle.
    unfold attempt_outcome.
    destruct (run fn (world_before fn initialDelay i w)) as [[v|e] w1] eqn:E;
      cbn [fst snd].
    + split; [reflexivity|]. left; exists v; reflexivity.
    + replace (Z.of_nat i <? maxRetries - 1)%Z with false
        by (symmetry; apply Z.ltb_ge; lia).
      split; [reflexivity|]. right; lia.
  - (* an attempt followed by others *)
    cbn [retry_loop]. rewrite run_bind, run_settle.
    destruct (run fn (world_before fn initialDelay i w)) as [[v|e] w1] eqn:E;
      cbn [fst snd].
    + exists i. split; [lia|]. split; [lia|]. split; [intros j Hj; lia|].
      unfold attempt_outcome; rewrite E.
      split; [reflexivity|]. left; exists v; reflexivity.
    + replace (Z.of_nat i <? maxRetries - 1)%Z with true
        by (symmetry; apply Z.ltb_lt; lia).
      rewrite run_sleep_then.
      destruct (IH (S i) (Some e)) as (k & Hik & Hk & Hfail & Hrun & Hend);
        [lia|].
      exists k. split; [lia|]. split; [assumption|]. split.
      * intros j Hj. destruct (Nat.eq_dec j i) as [->|Hne].
        -- exists e. unfold attempt_outcome; rewrite E; reflexivity.
        -- apply Hfail; lia.
      * split; [|assumption].
        rewrite <- Hrun. cbn [world_before]. rewrite E; cbn [snd].
        replace (Z.of_nat (S i)) with (Z.of_nat i + 1)%Z by lia.
        reflexivity.
Qed.

(** C4. Retry schedule and last-error propagation: for every action and
    every [maxRetries >= 1], [retryWithBackoff] ends exactly as one attempt
    [k < maxRetries] ends, value or error, in the world that attempt left.
    Every attempt before [k] failed, and attempt [k] started in
    [world_before k]: the attempts ran one after the other, each failed
    attempt [j] followed by a wait of [initialDelay * 2 ^ j] and nothing
    else. Either attempt [k] succeeded, and nothing ran after it, or it is
    the last attempt, index [maxRetries - 1], whose error is the one
    propagated with no wait after it. *)
Theorem retryWithBackoff_schedule (w : W) :
  (1 <= maxRetries)%Z ->
  exists k : nat,
    (Z.of_nat k < maxRetries)%Z
    /\ (forall j, (j < k)%nat -> failed (attempt_outcome fn initialDelay j w))
    /\ run (retryWithBackoff fn maxRetries initialDelay) w
       = attempt_outcome fn initialDelay k w
    /\ (succeeded (attempt_outcome fn initialDelay k w)
        \/ Z.of_nat k = (maxRetries - 1)%Z).
Proof.
  intro Hmax. unfold retryWithBackoff.
  destruct (Z.to_nat maxRetries) as [|remaining] eqn:E; [lia|].
  destruct (retry_loop_schedule remaining 0 None w)
    as (k & _ & Hk & Hfail & Hrun & Hend); [lia|].
  exists k. split; [assumption|]. split.
  - intros j Hj; apply Hfail; lia.
  - split; assumption.
Qed.

(** An action that succeeds at once is run once. *)
Lemma retry_first_success (w w' : W) (v : T) :
  (1 <= maxRetries)%Z -> run fn w = (Ok v, w') ->
  run (retryWithBackoff fn maxRetries initialDelay) w = (Ok v, w').
Proof.
  intros Hmax E. unfold retryWithBackoff.
  destruct (Z.to_nat maxRetries) as [|remaining] eqn:En; [lia|].
  cbn [retry_loop]. rewrite run_bind, run_settle, E. reflexivity.
Qed.

End RetryController.

(** C4, witness: three attempts against a model endpoint that fails three
    times. *)
Lemma retryWithBackoff_schedule_witness :
  (1 <= 3)%Z
  /\ exists k : nat,
       (Z.of_nat k < 3)%Z
       /\ (forall j, (j < k)%nat ->
             failed (@attempt_outcome script scripted _
                       (ask_summary EnglishSummaryInstruction headline_a)
                       1000 j failing_thrice))
       /\ @run script scripted _
            (retryWithBackoff
               (ask_summary EnglishSummaryInstruction headline_a) 3 1000)
            failing_thrice
          = @attempt_outcome script scripted _
              (ask_summary EnglishSummaryInstruction headline_a)
              1000 k failing_thrice
       /\ (succeeded (@attempt_outcome script scripted _
                        (ask_summary EnglishSummaryInstruction headline_a)
                        1000 k failing_thrice)
           \/ Z.of_nat k = (3 - 1)%Z).
Proof.
  split; [lia|].
  apply (@retryWithBackoff_schedule script scripted _
           (ask_summary EnglishSummaryInstruction headline_a) 3 1000
           failing_thrice).
  lia.
Defined.

(** Retry exhaustion: three failures, waits of 1000 and 2000 between the
    attempts, none after the last, whose error is the one propagated. *)
Example retry_exhaustion :
  @run script scripted _
     (retryWithBackoff (ask_summary EnglishSummaryInstruction headline_a)
                       3 1000)
     failing_thrice
  = (Raise (External 3),
     {| fetch_replies := []; chat_replies := []; waits := [1000; 2000]%Z |}).
Proof. vm_compute; reflexivity. Qed.

(** *** The translation orchestrator *)

Section TranslationOrchestrator.

Context {platform : Platform}.

Lemma guard_false_nonempty (s : jsstring) :
  negb (truthy_str s) || (length (trim s) =? 0)%nat = false -> s <> [].
Proof.
  intro E. apply orb_false_elim in E as [E _].
  apply truthy_str_nonempty. now destruct (truthy_str s).
Qed.

Lemma translateToTurkish_blank (text : jsstring) :
  negb (truthy_str text) || (length (trim text) =? 0)%nat = true ->
  translateToTurkish text = Resolve text.
Proof. intro G1. unfold translateToTurkish. rewrite G1. reflexivity. Qed.

Context {W : Type} `{Collaborators W}.

(** C2, amended. For English the translation operation returns the
    normalized text, whatever it is. For Turkish it returns a blank input
    as it is. For any other input it returns a non-empty string, which is
    the raw input (when the normalization is blank), the translation of the
    fast provider accepted in this run, or the cleaned text; or it returns
    the answer that the fallback provider gave in this run to the request
    for the cleaned text, after the fast provider failed or was rejected,
    an answer longer than ten code units, normalized once more. *)
Theorem translation_result (text : jsstring) (w : W) :
  run (translateText text en) w = (Ok (stripHtml text), w)
  /\ exists r w',
       run (translateText text tr) w = (Ok r, w')
       /\ if negb (truthy_str text) || (length (trim text) =? 0)%nat
          then r = text /\ w' = w
          else
            (r <> []
             /\ ((r = text /\ w' = w)
                 \/ r = stripHtml text
                 \/ (run (translateWithLibreTranslate (stripHtml text) tr) w
                     = (Ok r, w')
                     /\ libre_accepted (stripHtml text) r = true)))
            \/ exists r1 w1 response,
                 run (translateWithLibreTranslate (stripHtml text) tr) w
                 = (r1, w1)
                 /\ (forall t, r1 = Ok t ->
                                libre_accepted (stripHtml text) t = false)
                 /\ on_chat (translator_request (stripHtml text)) w1
                    = (Ok response, w')
                 /\ openai_accepted (first_content response) = true
                 /\ r = stripHtml (first_content response).
Proof.
  split; [reflexivity|]. cbn [translateText].
  destruct (negb (truthy_str text) || _) eqn:G1.
  - rewrite (translateToTurkish_blank _ G1). exists text, w. auto.
  - unfold translateToTurkish. rewrite G1. cbv zeta.
    destruct (negb (truthy_str (stripHtml text)) || _) eqn:G2.
    + exists text, w. split; [reflexivity|]. left.
      split; [apply guard_false_nonempty, G1|]. left. auto.
    + rewrite run_try_catch, run_bind. unfold attempt at 1.
      rewrite run_try_catch, run_bind.
      destruct (run (translateWithLibreTranslate (stripHtml text) tr) w)
        as [r1 w1] eqn:Hfast.
      assert (Hsecond :
        (forall t, r1 = Ok t -> libre_accepted (stripHtml text) t = false) ->
        exists r w',
          run (second <- attempt
                 (response <- openaiChatCompletion
                                (translator_request (stripHtml text)) ;;
                  if openai_accepted (first_content response)
                  then Resolve (Some (stripHtml (first_content response)))
                  else Resolve None) ;;
               match second with
               | Some translation => Resolve translation
               | None => Resolve (stripHtml text)
               end) w1 = (Ok r, w')
          /\ ((r <> []
               /\ ((r = text /\ w' = w)
                   \/ r = stripHtml text
                   \/ ((r1, w1) = (Ok r, w')
                       /\ libre_accepted (stripHtml text) r = true)))
              \/ exists r1' w1' response,
                   (r1, w1) = (r1', w1')
                   /\ (forall t, r1' = Ok t ->
                                  libre_accepted (stripHtml text) t = false)
                   /\ on_chat (translator_request (stripHtml text)) w1'
                      = (Ok response, w')
                   /\ openai_accepted (first_content response) = true
                   /\ r = stripHtml (first_content response))).
      { intro Hrej. rewrite run_bind. unfold attempt.
        rewrite run_try_catch, run_bind. cbn [run openaiChatCompletion].
        destruct (on_chat (translator_request (stripHtml text)) w1)
          as [[response|e2] w2] eqn:Hchat; cbn [run lift].
        - destruct (openai_accepted (first_content response)) eqn:A;
            cbn [run].
          + eexists; eexists. split; [reflexivity|]. right.
            exists r1, w1, response. auto.
          + eexists; eexists. split; [reflexivity|]. left.
            split; [apply guard_false_nonempty, G2|]. auto.
        - eexists; eexists. split; [reflexivity|]. left.
          split; [apply guard_false_nonempty, G2|]. auto. }
      destruct r1 as [t|e]; cbn [run].
      * destruct (libre_accepted (stripHtml text) t) eqn:A; cbn [run].
        -- exists t, w1. split; [reflexivity|]. left. split.
           ++ unfold libre_accepted in A. apply andb_prop in A as [_ A].
              apply (longer_nonempty _ A).
           ++ right. right. auto.
        -- destruct Hsecond as (r & w' & R & P);
             [intros t' [= <-]; exact A|].
           rewrite R. exists r, w'. split; [reflexivity|exact P].
      * destruct Hsecond as (r & w' & R & P); [intros t' [=]|].
        rewrite R. exists r, w'. split; [reflexivity|exact P].
Qed.

(** C5, amended. Degradation order: for every input that passes the two
    blank guards of [translateToTurkish] (the input is not blank and its
    normalization is not blank), when the fast provider fails or its answer
    is rejected and the fallback provider fails or its answer is rejected,
    [translateToTurkish] returns the cleaned text. *)
Theorem degradation_to_clean_text (text : jsstring) (w w1 w2 : W)
  (r1 : outcome jsstring) (r2 : outcome chat_response) :
  negb (truthy_str text) || (length (trim text) =? 0)%nat = false ->
  negb (truthy_str (stripHtml text))
    || (length (trim (stripHtml text)) =? 0)%nat = false ->
  run (translateWithLibreTranslate (stripHtml text) tr) w = (r1, w1) ->
  (forall t, r1 = Ok t -> libre_accepted (stripHtml text) t = false) ->
  on_chat (translator_request (stripHtml text)) w1 = (r2, w2) ->
  (forall response,
      r2 = Ok response -> openai_accepted (first_content response) = false) ->
  run (translateToTurkish text) w = (Ok (stripHtml text), w2).
Proof.
  intros G1 G2 Hfast Hrej1 Hfallback Hrej2.
  unfold translateToTurkish. rewrite G1. cbv zeta. rewrite G2.
  rewrite run_try_catch, run_bind. unfold attempt at 1.
  rewrite run_try_catch, run_bind, Hfast.
  assert (Hsecond :
    run (attempt
           (response <- openaiChatCompletion
                          (translator_request (stripHtml text)) ;;
            if openai_accepted (first_content response)
            then Resolve (Some (stripHtml (first_content response)))
            else Resolve None)) w1 = (Ok None, w2)).
  { unfold attempt. rewrite run_try_catch, run_bind.
    cbn [run openaiChatCompletion]. rewrite Hfallback.
    destruct r2 as [response|e]; cbn [run lift]; [|reflexivity].
    rewrite (Hrej2 response eq_refl). reflexivity. }
  destruct r1 as [t|e].
  - rewrite (Hrej1 t eq_refl). cbn [run]. rewrite run_bind, Hsecond.
    reflexivity.
  - cbn [run]. rewrite run_bind, Hsecond. reflexivity.
Qed.

End TranslationOrchestrator.

(** C2, counterexample: the empty input is returned as the empty string for
    both target languages, and for English so is an input shorter than ten
    characters. *)
Lemma translation_result_can_be_empty :
  @run script scripted _ (@translateText plain_platform [] tr) silent
  = (Ok [], silent)
  /\ @run script scripted _ (@translateText plain_platform [] en) silent
     = (Ok [], silent)
  /\ @run script scripted _
       (@translateText plain_platform (js "ETH up") en) silent
     = (Ok [], silent).
Proof. repeat split; vm_compute; reflexivity. Qed.

(** C5, witness: in the world that rejects every request, a headline is
    returned cleaned. *)
Lemma degradation_to_clean_text_witness :
  @run script scripted _
     (@translateToTurkish plain_platform (js "Bitcoin hits a  new record"))
     silent
  = (Ok (js "Bitcoin hits a new record"), silent).
Proof.
  apply (@degradation_to_clean_text plain_platform script scripted
           (js "Bitcoin hits a  new record") silent silent silent
           (Raise (External 0)) (Raise (External 0)));
    try (vm_compute; reflexivity); intros ? [=].
Defined.

(** *** The summarization orchestrators *)

Section SummarizationOrchestrator.

Context {platform : Platform} {W : Type} `{Collaborators W}.

Lemma coerce_sentiment_out_of_set (label : option json) :
  (forall v, label = Some v -> ~ valid_sentiment v) ->
  coerce_sentiment label = neutral.
Proof.
  intro Hout. destruct label as [v|]; [|reflexivity].
  unfold coerce_sentiment. destruct (in_sentiments (Some v)) eqn:E;
    [|reflexivity].
  exfalso. apply (Hout v eq_refl).
  pose proof (coerce_sentiment_valid (Some v)) as Hv.
  unfold coerce_sentiment in Hv. now rewrite E in Hv.
Qed.

Lemma coerce_sentiment_kept (label : option json) :
  coerce_sentiment label <> neutral ->
  label = Some (coerce_sentiment label).
Proof.
  destruct label as [v|]; [|intro N; now contradiction N].
  unfold coerce_sentiment. destruct (in_sentiments (Some v));
    [reflexivity|intro N; now contradiction N].
Qed.

(** The sentiment that the inner [try] block returns is the coercion of
    the [sentiment] member of the parsed answer. *)
Lemma turkish_summary_label (title result : jsstring) r :
  turkish_summary title result = Ok r ->
  exists label,
    provider_sentiment result label /\ sentiment r = coerce_sentiment label.
Proof.
  unfold turkish_summary, provider_sentiment, obind.
  destruct (parse_result result) as [parsed|]; [|discriminate].
  destruct (get_member parsed "summary") as [member|]; [|discriminate].
  destruct (if truthy member then _ else _) as [cleanSummary|];
    [|discriminate].
  destruct (get_member parsed "sentiment") as [label|] eqn:L; [|discriminate].
  intro E; apply Ok_inj in E; rewrite <- E; cbn [sentiment].
  exists label. split; [exists parsed; auto|reflexivity].
Qed.

Lemma english_summary_label (title result : jsstring) r :
  english_summary title result = Ok r ->
  exists label,
    provider_sentiment result label /\ sentiment r = coerce_sentiment label.
Proof.
  unfold english_summary, provider_sentiment, obind.
  destruct (parse_result result) as [parsed|]; [|discriminate].
  destruct (get_member parsed "summary") as [member|]; [|discriminate].
  destruct (match member with Some _ => _ | None => _ end) as [long|];
    [|discriminate].
  destruct (get_member parsed "sentiment") as [label|] eqn:L; [|discriminate].
  intro E; apply Ok_inj in E; rewrite <- E; cbn [sentiment].
  exists label. split; [exists parsed; auto|reflexivity].
Qed.

Lemma provider_sentiment_unique (result : jsstring) (l1 l2 : option json) :
  provider_sentiment result l1 -> provider_sentiment result l2 -> l1 = l2.
Proof.
  intros (p1 & P1 & L1) (p2 & P2 & L2). congruence.
Qed.

Lemma neutral_closed (answered : jsstring -> Prop) r :
  sentiment r = neutral -> closed_under answered r.
Proof.
  intro E. unfold closed_under. rewrite E.
  split; [apply valid_neutral|]. split; [auto|]. intro N. now contradiction N.
Qed.

Lemma parsed_closed (answered : jsstring -> Prop) (result : jsstring)
  (label : option json) r :
  (forall result', answered result' -> result' = result) ->
  answered result ->
  provider_sentiment result label ->
  sentiment r = coerce_sentiment label ->
  closed_under answered r.
Proof.
  intros Honly Hans Hlabel E. unfold closed_under. rewrite E.
  split; [apply coerce_sentiment_valid|]. split.
  - intros result' label' Hans' Hlabel' Hout.
    apply Honly in Hans'. subst result'.
    rewrite (provider_sentiment_unique Hlabel Hlabel').
    apply coerce_sentiment_out_of_set, Hout.
  - intro N. exists result. split; [exact Hans|].
    rewrite <- (coerce_sentiment_kept _ N). exact Hlabel.
Qed.

(** C3. Sentiment closure: whatever the provider returns, the sentiment of
    the result of [summarizeAndTranslate] and of [summarizeInEnglish] is
    one of ['positive'], ['negative'], ['neutral']. When the answer that the
    run parsed has a [sentiment] member outside the set, or none, the
    sentiment of the result is ['neutral']; and a sentiment of the result
    other than ['neutral'] is the [sentiment] member of the answer that the
    run parsed. *)
Theorem sentiment_closure (title : jsstring) (text : option jsstring) (w : W) :
  (exists r w',
      run (summarizeAndTranslate title text) w = (Ok r, w')
      /\ closed_under
           (provider_answer TurkishSummaryInstruction title text w) r)
  /\ (exists r w',
        run (summarizeInEnglish title text) w = (Ok r, w')
        /\ closed_under
             (provider_answer EnglishSummaryInstruction title text w) r).
Proof.
  split.
  - unfold summarizeAndTranslate. cbv zeta.
    destruct (negb (truthy_str (summary_content title text)) || _) eqn:G.
    + exists (untranslated title), w. split; [reflexivity|].
      now apply neutral_closed.
    + match goal with
      | |- context [try_catch _ (fun error => ?body)] =>
          set (fallback := body)
      end.
      assert (Hfallback :
        forall w1, exists r w',
          run fallback w1 = (Ok r, w') /\ sentiment r = neutral).
      { intro w1. apply always_run. unfold fallback.
        apply title_fallback_always; [reflexivity|intros; reflexivity]. }
      clearbody fallback. rewrite run_try_catch, run_bind.
      destruct (run (retryWithBackoff
                       (ask_summary TurkishSummaryInstruction
                                    (summary_content title text)) 3 1000) w)
        as [[result|e] w1] eqn:A.
      * rewrite run_try_catch.
        destruct (turkish_summary title result) as [p|e'] eqn:TS;
          cbn [lift run].
        -- exists p, w1. split; [reflexivity|].
           destruct (turkish_summary_label _ _ TS) as (label & Hl & E).
           apply parsed_closed with (result := result) (label := label);
             [|split; [exact G|rewrite A; reflexivity]|exact Hl|exact E].
           intros result' [_ R]. rewrite A in R. cbn [fst] in R. congruence.
        -- unfold on_parse_error.
           destruct (truthy_str result && _); cbn [run].
           ++ eexists; eexists. split; [reflexivity|].
              now apply neutral_closed.
           ++ destruct (Hfallback w1) as (r & w' & R & E).
              exists r, w'. split; [exact R|]. now apply neutral_closed.
      * destruct (Hfallback w1) as (r & w' & R & E).
        exists r, w'. split; [exact R|]. now apply neutral_closed.
  - unfold summarizeInEnglish. cbv zeta.
    destruct (negb (truthy_str (summary_content title text)) || _) eqn:G.
    + exists (untranslated title), w. split; [reflexivity|].
      now apply neutral_closed.
    + rewrite run_try_catch, run_bind.
      destruct (run (retryWithBackoff
                       (ask_summary EnglishSummaryInstruction
                                    (summary_content title text)) 3 1000) w)
        as [[result|e] w1] eqn:A.
      * rewrite run_try_catch.
        destruct (english_summary title result) as [p|e'] eqn:TS;
          cbn [lift run].
        -- exists p, w1. split; [reflexivity|].
           destruct (english_summary_label _ _ TS) as (label & Hl & E).
           apply parsed_closed with (result := result) (label := label);
             [|split; [exact G|rewrite A; reflexivity]|exact Hl|exact E].
           intros result' [_ R]. rewrite A in R. cbn [fst] in R. congruence.
        -- unfold on_parse_error.
           destruct (truthy_str result && _); cbn [run].
           ++ eexists; eexists. split; [reflexivity|].
              now apply neutral_closed.
           ++ eexists; eexists. split; [reflexivity|].
              now apply neutral_closed.
      * cbn [run]. eexists; eexists. split; [reflexivity|].
        now apply neutral_closed.
Qed.

(** The truncation boundary: content of 2000 code units is passed as it
    is, longer content is cut to 2000 code units and an ellipsis. *)
Lemma truncation_boundary (title : jsstring) :
  summary_content title None
  = if (length title <=? 2000)%nat then title
    else firstn 2000 title ++ js "...".
Proof.
  unfold summary_content, substring0.
  destruct (length title <=? 2000)%nat eqn:E.
  - apply Nat.leb_le in E.
    replace (2000 <? length title)%nat with false
      by (symmetry; apply Nat.ltb_ge; exact E).
    reflexivity.
  - apply Nat.leb_gt in E.
    replace (2000 <? length title)%nat with true
      by (symmetry; apply Nat.ltb_lt; exact E).
    reflexivity.
Qed.

Lemma run_ask_summary (system : instruction) (content : jsstring)
  (w w' : W) (response : chat_response) :
  on_chat (summary_request system content) w = (Ok response, w') ->
  run (ask_summary system content) w = (Ok (first_content response), w').
Proof.
  intro E. unfold ask_summary. rewrite run_bind.
  cbn [run openaiChatCompletion]. rewrite E. reflexivity.
Qed.

(** The first tier: an answer that parses settles the result at once. *)
Lemma summarizeAndTranslate_answered (title : jsstring) (text : option jsstring)
  (w w' : W) (response : chat_response) (r : SummaryWithSentiment) :
  negb (truthy_str (summary_content title text))
    || (length (trim (summary_content title text)) =? 0)%nat = false ->
  on_chat (summary_request TurkishSummaryInstruction
                           (summary_content title text)) w
    = (Ok response, w') ->
  turkish_summary title (first_content response) = Ok r ->
  run (summarizeAndTranslate title text) w = (Ok r, w').
Proof.
  intros G Hchat Hparsed. unfold summarizeAndTranslate. cbv zeta. rewrite G.
  rewrite run_try_catch, run_bind.
  rewrite retry_first_success with (v := first_content response) (w' := w');
    [|lia|apply run_ask_summary, Hchat].
  rewrite run_try_catch, Hparsed. reflexivity.
Qed.

Lemma summarizeInEnglish_answered (title : jsstring) (text : option jsstring)
  (w w' : W) (response : chat_response) (r : SummaryWithSentiment) :
  negb (truthy_str (summary_content title text))
    || (length (trim (summary_content title text)) =? 0)%nat = false ->
  on_chat (summary_request EnglishSummaryInstruction
                           (summary_content title text)) w
    = (Ok response, w') ->
  english_summary title (first_content response) = Ok r ->
  run (summarizeInEnglish title text) w = (Ok r, w').
Proof.
  intros G Hchat Hparsed. unfold summarizeInEnglish. cbv zeta. rewrite G.
  rewrite run_try_catch, run_bind.
  rewrite retry_first_success with (v := first_content response) (w' := w');
    [|lia|apply run_ask_summary, Hchat].
  rewrite run_try_catch, Hparsed. reflexivity.
Qed.

(** C8. Short-summary rejection: for the title [ETH surges] without body,
    when the model provider returns the raw text
    [{"summary": "ok", "sentiment": "positive"}], the result of
    [summarizeAndTranslate] is the title with the sentiment ['positive']. *)
Theorem short_summary_rejected (w w' : W) (response : chat_response) :
  on_chat (summary_request TurkishSummaryInstruction (js "ETH surges")) w
    = (Ok response, w') ->
  first_content response = short_summary_answer ->
  run (summarizeAndTranslate (js "ETH surges") None) w
  = (Ok {| summary := JString (js "ETH surges"); sentiment := positive |}, w').
Proof.
  intros Hchat Hraw.
  apply summarizeAndTranslate_answered with (response := response).
  - vm_compute; reflexivity.
  - exact Hchat.
  - rewrite Hraw. vm_compute; reflexivity.
Qed.

(** The summary of [summarizeAndTranslate] is a non-empty string whenever
    the title is one. *)
Lemma summarizeAndTranslate_summary_nonempty
  (title : jsstring) (text : option jsstring) (w : W) :
  title <> [] ->
  exists r w', run (summarizeAndTranslate title text) w = (Ok r, w')
               /\ nonempty_string (summary r).
Proof.
  intro Htitle. apply always_run, summarizeAndTranslate_always.
  - exists title; auto.
  - intros t Ht; exists t; auto.
  - intros result r. unfold turkish_summary, obind.
    destruct (parse_result result) as [parsed|]; [|discriminate].
    destruct (get_member parsed "summary") as [member|]; [|discriminate].
    destruct (if truthy member then _ else _) as [cleanSummary|];
      [|discriminate].
    destruct (get_member parsed "sentiment") as [label|]; [|discriminate].
    intro E; apply Ok_inj in E; rewrite <- E; cbn [summary].
    eexists; split; [reflexivity|].
    destruct (truthy_str (scrub cleanSummary) && _) eqn:C; [|assumption].
    apply andb_prop in C as [C _]. apply truthy_str_nonempty, C.
Qed.

(** The summary of [summarizeInEnglish] is a non-empty string whenever the
    title is one and the parsed [summary] member, if any, is a string. *)
Lemma english_summary_nonempty (title result : jsstring) r :
  title <> [] ->
  english_summary title result = Ok r ->
  nonempty_string (summary r)
  \/ exists parsed v,
       parse_result result = Ok parsed
       /\ get_member parsed "summary" = Ok (Some v)
       /\ ~ is_string v /\ summary r = v.
Proof.
  intro Htitle. unfold english_summary, obind.
  destruct (parse_result result) as [parsed|]; [|discriminate].
  destruct (get_member parsed "summary") as [member|] eqn:M; [|discriminate].
  destruct (match member with Some _ => _ | None => _ end) as [long|] eqn:L;
    [|discriminate].
  destruct (get_member parsed "sentiment") as [label|]; [|discriminate].
  intro E; apply Ok_inj in E; rewrite <- E; cbn [summary].
  destruct member as [v|]; [|left; exists title; auto].
  destruct long; [|left; exists title; auto].
  destruct (truthy (Some v)) eqn:T; [|discriminate].
  destruct v as [ |b|m e|s|l|members];
    try solve [right; exists parsed; eexists; repeat split;
               try reflexivity; try exact M; intros [s' [=]]].
  left. exists s. split; [reflexivity|].
  apply truthy_str_nonempty, T.
Qed.

End SummarizationOrchestrator.

(** The sentiment of the provider ends in the result only when it is one
    of the three: ["Positive!"], a number and a missing member give
    ['neutral'], ["negative"] is kept. *)
Example sentiment_closure_examples :
  let result label :=
    fst (@run script scripted _
           (@summarizeInEnglish plain_platform (js "ETH surges") None)
           (answering (answer (labelled_answer label)))) in
  let expected label :=
    Ok {| summary := JString (js "Ether rose sharply today");
          sentiment := label |} in
  result (Some (quoted "Positive!")) = expected neutral
  /\ result (Some (js "7")) = expected neutral
  /\ result None = expected neutral
  /\ result (Some (quoted "negative")) = expected negative.
Proof. repeat split; vm_compute; reflexivity. Qed.

(** C8, witness: the scripted world whose model endpoint gives that
    answer. *)
Lemma short_summary_rejected_witness :
  @run script scripted _
     (@summarizeAndTranslate plain_platform (js "ETH surges") None)
     (answering (answer short_summary_answer))
  = (Ok {| summary := JString (js "ETH surges"); sentiment := positive |},
     silent).
Proof.
  apply (@short_summary_rejected plain_platform script scripted
           (answering (answer short_summary_answer)) silent
           (answer short_summary_answer)); reflexivity.
Defined.

(** C1, failing input: title [ETH surges], no body, and the model provider
    answers with a [summary] member that is an array of eleven numbers.
    [summarizeInEnglish] is fulfilled, but with a result that is not of the
    declared type. *)
Theorem summarizeInEnglish_result_not_of_declared_type :
  exists r,
    @run script scripted _
       (@summarizeInEnglish plain_platform (js "ETH surges") None)
       (answering (answer array_summary_answer))
    = (Ok r, silent)
    /\ ~ well_typed r.
Proof.
  eexists; split; [vm_compute; reflexivity|].
  intros [[s E] _]. discriminate E.
Qed.

(** C10, failing input: with a non-empty title and the same answer of the
    model provider, the summary returned by [summarizeInEnglish] is the
    array, not a string. *)
Theorem summarizeInEnglish_summary_not_a_string :
  let title := js "ETH surges" in
  let r :=
    fst (@run script scripted _
           (@summarizeInEnglish plain_platform title None)
           (answering (answer array_summary_answer))) in
  title <> []
  /\ r = Ok {| summary :=
                 JArray (map (fun n => JNumber n 0)
                             [1; 2; 3; 4; 5; 6; 7; 8; 9; 10; 11]%Z);
               sentiment := neutral |}
  /\ forall r', r = Ok r' -> ~ nonempty_string (summary r').
Proof.
  cbv zeta. split; [discriminate|]. split; [vm_compute; reflexivity|].
  intros r' E. vm_compute in E. apply Ok_inj in E. subst r'.
  intros [s [E _]]. discriminate E.
Qed.

(** *** Batch translation *)

Section Batch.

Context {platform : Platform} {W : Type} `{Collaborators W}.

Lemma pool_steps_trans {A} (c1 c2 c3 : W * pool A) :
  pool_steps c1 c2 -> pool_steps c2 c3 -> pool_steps c1 c3.
Proof.
  intros H12 H23; induction H23 as [|c2 c3 c4 _ IH Hstep];
    [assumption|].
  eapply pool_more; [apply IH, H12|exact Hstep].
Qed.

Lemma pool_steps_first {A} (c1 c2 c3 : W * pool A) :
  pool_step c1 c2 -> pool_steps c2 c3 -> pool_steps c1 c3.
Proof.
  intros H12 H23. apply pool_steps_trans with c2; [|assumption].
  eapply pool_more; [apply pool_done|exact H12].
Qed.

Lemma update_middle {X} (pre post : list X) (x y : X) :
  update (length pre) y (pre ++ x :: post) = pre ++ y :: post.
Proof. induction pre as [|z pre IH]; simpl; [reflexivity|now rewrite IH]. Qed.

Lemma nth_error_middle {X} (pre post : list X) (x : X) :
  nth_error (pre ++ x :: post) (length pre) = Some x.
Proof. induction pre as [|z pre IH]; simpl; [reflexivity|exact IH]. Qed.

Lemma update_length {X} (i : nat) (x : X) (l : list X) :
  length (update i x l) = length l.
Proof.
  revert i; induction l as [|y l IH]; intros [|i]; simpl; auto.
Qed.

(** *** Replaying the replies *)

Lemma replay_snoc {A} (p q q' : async A) (log : list reply) (r : reply)
  (w w' : W) :
  replay p log = Some q -> await_step q w = Some (q', r, w') ->
  replay p (log ++ [r]) = Some q'.
Proof.
  revert p; induction log as [|r0 log IH]; intros p Hp Hstep.
  - cbn [replay] in Hp. injection Hp as ->.
    destruct q as [a|e|req k|req k|ms k];
      cbn [await_step] in Hstep; try discriminate.
    + destruct (on_fetch req w) as [x w1]. injection Hstep as <- <- _.
      reflexivity.
    + destruct (on_chat req w) as [x w1]. injection Hstep as <- <- _.
      reflexivity.
    + injection Hstep as <- <- _. reflexivity.
  - cbn [replay app] in *.
    destruct p as [a|e|req k|req k|ms k]; destruct r0; try discriminate;
      eapply IH; eassumption.
Qed.

Lemma always_replay {A} (P : A -> Prop) (p q : async A) (log : list reply) :
  always P p -> replay p log = Some q -> always P q.
Proof.
  revert p; induction log as [|r log IH]; intros p Hp E.
  - cbn [replay] in E. injection E as <-; assumption.
  - cbn [replay] in E.
    destruct Hp as [a Ha|req k Hk|req k Hk|ms k Hk]; destruct r;
      try discriminate; eapply IH; eauto.
Qed.

(** *** The invariant of a batch *)

Lemma batch_consistent_start (texts : list jsstring) :
  batch_consistent texts (batch_pool texts).
Proof.
  unfold batch_consistent, batch_pool.
  induction texts; simpl; constructor; auto.
Qed.

Lemma Forall2_update {X Y} (R : X -> Y -> Prop) (xs : list X) (ys : list Y)
  (i : nat) (y y' : Y) :
  Forall2 R xs ys -> nth_error ys i = Some y ->
  (forall x, R x y -> R x y') ->
  Forall2 R xs (update i y' ys).
Proof.
  intros HF; revert i; induction HF as [|x y0 xs ys Hxy HF IH];
    intros [|i] Hi Hy'; simpl in *; try discriminate.
  - injection Hi as ->. constructor; auto.
  - constructor; eauto.
Qed.

Lemma batch_consistent_step (texts : list jsstring) (c1 c2 : W * pool jsstring) :
  pool_step c1 c2 -> batch_consistent texts (snd c1) ->
  batch_consistent texts (snd c2).
Proof.
  intros [i p p' log r w w' ps Hi Hstep] Hinv; cbn [snd] in *.
  apply Forall2_update with (y := (p, log)); [assumption..|].
  cbn [fst snd]. intros text Hreplay.
  eapply replay_snoc; eassumption.
Qed.

Lemma batch_consistent_steps (texts : list jsstring) (c1 c2 : W * pool jsstring) :
  pool_steps c1 c2 -> batch_consistent texts (snd c1) ->
  batch_consistent texts (snd c2).
Proof.
  induction 1 as [|c1 c2 c3 _ IH Hstep]; [auto|].
  intro Hinv. eapply batch_consistent_step; eauto.
Qed.

(** No invocation of a batch is ever rejected: the [catch] of
    [translateBatch] is never entered. *)
Lemma batch_never_rejected (texts : list jsstring) (ps : pool jsstring) :
  batch_consistent texts ps -> existsb rejected ps = false.
Proof.
  induction 1 as [|text [p log] texts ps Hreplay _ IH]; [reflexivity|].
  cbn [existsb]. rewrite IH, orb_false_r. cbn [fst snd] in Hreplay.
  pose proof (always_replay _ (translateToTurkish_never_rejects text) Hreplay)
    as Hp.
  destruct Hp; reflexivity.
Qed.

Lemma fulfilled_values {A} (ps : pool A) (vs : list A) :
  fulfilled ps = Some vs ->
  Forall2 (fun pl v => fst pl = Resolve v) ps vs.
Proof.
  revert vs; induction ps as [|[p log] ps IH]; intros vs E; simpl in E.
  - injection E as <-; constructor.
  - destruct p; try discriminate.
    destruct (fulfilled ps) as [l|]; [|discriminate].
    injection E as <-. constructor; auto.
Qed.

(** *** A batch can always be completed *)

Lemma pool_step_middle {A} (pre post : pool A) (p p' : async A)
  (log : list reply) (r : reply) (w w' : W) :
  await_step p w = Some (p', r, w') ->
  pool_step (w, pre ++ (p, log) :: post)
            (w', pre ++ (p', log ++ [r]) :: post).
Proof.
  intro E. rewrite <- (update_middle pre post (p, log) (p', log ++ [r])).
  eapply pool_step_at; [apply nth_error_middle|exact E].
Qed.

Lemma complete_one {A} (P : A -> Prop) (p : async A) :
  always P p ->
  forall (pre post : pool A) (log : list reply) (w : W),
  exists w' a log',
    pool_steps (w, pre ++ (p, log) :: post)
               (w', pre ++ (Resolve a, log') :: post).
Proof.
  induction 1 as [a Ha|req k _ IH|req k _ IH|ms k _ IH]; intros pre post log w.
  - exists w, a, log. apply pool_done.
  - destruct (on_fetch req w) as [x w1] eqn:E.
    destruct (IH x pre post (log ++ [FetchReply x]) w1) as (w' & a & log' & S).
    exists w', a, log'. eapply pool_steps_first; [|exact S].
    apply pool_step_middle. cbn [await_step]. rewrite E. reflexivity.
  - destruct (on_chat req w) as [x w1] eqn:E.
    destruct (IH x pre post (log ++ [ChatReply x]) w1) as (w' & a & log' & S).
    exists w', a, log'. eapply pool_steps_first; [|exact S].
    apply pool_step_middle. cbn [await_step]. rewrite E. reflexivity.
  - destruct (IH tt pre post (log ++ [TimeoutReply]) (on_timeout ms w))
      as (w' & a & log' & S).
    exists w', a, log'. eapply pool_steps_first; [|exact S].
    apply pool_step_middle. reflexivity.
Qed.

Lemma complete_all {A} (ps : pool A) :
  Forall (fun pl => always (fun _ => True) (fst pl)) ps ->
  forall (pre : pool A) (w : W),
  exists w' ps' vs,
    pool_steps (w, pre ++ ps) (w', pre ++ ps') /\ fulfilled ps' = Some vs.
Proof.
  induction 1 as [|[p log] ps Hp _ IH]; intros pre w.
  - exists w, [], []. split; [apply pool_done|reflexivity].
  - destruct (complete_one Hp pre ps log w) as (w1 & a & log' & S1).
    destruct (IH (pre ++ [(Resolve a, log')]) w1) as (w2 & ps' & vs & S2 & F).
    rewrite <- !app_assoc in S2. cbn [app] in S2.
    exists w2, ((Resolve a, log') :: ps'), (a :: vs). split.
    + eapply pool_steps_trans; eassumption.
    + cbn [fulfilled]. rewrite F. reflexivity.
Qed.

(** C9. Batch order preservation and failure isolation. [translateBatch]
    can return from every world, and whenever it returns, after whatever
    interleaving of the invocations, the result has the length of the input
    and its element of index [i] is the value with which the invocation of
    index [i] fulfilled: what [translateToTurkish] of the text of index [i]
    computes from the replies [log] to its own requests, whichever replies,
    failures included, the other invocations received. *)
Theorem translateBatch_order_and_isolation (texts : list jsstring) (w : W) :
  (exists result, translateBatch texts w result)
  /\ forall result,
       translateBatch texts w result ->
       length result = length texts
       /\ exists (w' : W) (ps : pool jsstring),
            pool_steps (w, batch_pool texts) (w', ps)
            /\ forall i text,
                 nth_error texts i = Some text ->
                 exists r log,
                   nth_error result i = Some r
                   /\ nth_error ps i = Some (Resolve r, log)
                   /\ replay (translateToTurkish text) log
                      = Some (Resolve r).
Proof.
  split.
  - destruct (@complete_all jsstring (batch_pool texts))
      with (pre := @nil (async jsstring * list reply)) (w := w)
      as (w' & ps' & vs & S & F).
    + unfold batch_pool. apply Forall_forall. intros pl Hin.
      apply in_map_iff in Hin as (text & <- & _).
      apply translateToTurkish_never_rejects.
    + exists vs, w', ps'. split; [exact S|left; exact F].
  - intros result (w' & ps & S & Hend).
    pose proof (batch_consistent_steps S (batch_consistent_start texts))
      as Hinv; cbn [snd] in Hinv.
    destruct Hend as [F|[Hrej _]];
      [|rewrite (batch_never_rejected Hinv) in Hrej; discriminate].
    apply fulfilled_values in F.
    split.
    + rewrite <- (Forall2_length F). symmetry. apply (Forall2_length Hinv).
    + exists w', ps. split; [exact S|]. clear S. revert result F.
      induction Hinv as [|text0 [p log] texts ps Hreplay _ IH];
        intros result F i text Hi.
      * destruct i; discriminate.
      * inversion F as [|pl r ps' result' Hr F' E1 E2]; subst.
        cbn [fst snd] in *. destruct i as [|i]; cbn [nth_error] in *.
        -- injection Hi as <-. exists r, log. subst p.
           repeat split; [exact Hreplay].
        -- apply (IH result' F' i text Hi).
Qed.

End Batch.

(** C9, witness: two headlines against collaborators that reject every
    request; the second invocation finishes before the first, and the
    result is in input order. *)
Lemma translateBatch_order_and_isolation_witness :
  @translateBatch plain_platform script scripted
     [headline_a; headline_b] silent
     [js "Bitcoin hits a new record"; headline_b]
  /\ length [js "Bitcoin hits a new record"; headline_b]
     = length [headline_a; headline_b].
Proof.
  assert (R : @translateBatch plain_platform script scripted
                [headline_a; headline_b] silent
                [js "Bitcoin hits a new record"; headline_b]).
  { exists silent. eexists. split.
    - eapply pool_steps_first;
        [eapply (pool_step_at 0);
           [reflexivity|reflexivity]|].
      eapply pool_steps_first;
        [eapply (pool_step_at 1);
           [reflexivity|reflexivity]|].
      eapply pool_steps_first;
        [eapply (pool_step_at 1);
           [reflexivity|reflexivity]|].
      eapply pool_steps_first;
        [eapply (pool_step_at 0);
           [reflexivity|reflexivity]|].
      apply pool_done.
    - left. reflexivity. }
  split; [exact R|].
  exact (proj1 (proj2 (@translateBatch_order_and_isolation plain_platform
                         script scripted [headline_a; headline_b] silent)
                      _ R)).
Defined.

(** *** The normalizer *)

(** **** White-space collapse *)

Lemma star_chr (p : N -> bool) (fuel : nat) (s : jsstring) :
  (length s < fuel)%nat ->
  star_loop (rmatch (Chr p)) (fun t => Some t) fuel s = Some (skip_while p s).
Proof.
  revert s; induction fuel as [|fuel IH]; intros s Hlt; [lia|].
  destruct s as [|c s']; [reflexivity|].
  cbn [star_loop rmatch skip_while]. destruct (p c); [|reflexivity].
  replace (length s' <? length (c :: s'))%nat with true
    by (symmetry; apply Nat.ltb_lt; cbn [length]; lia).
  rewrite IH by (cbn [length] in Hlt; lia). reflexivity.
Qed.

Lemma exec_plus_chr (p : N -> bool) (s : jsstring) :
  exec_at (Plus (Chr p)) s
  = match s with
    | c :: s' => if p c then Some (skip_while p s') else None
    | [] => None
    end.
Proof.
  destruct s as [|c s']; [reflexivity|].
  unfold exec_at, Plus. cbn [rmatch]. destruct (p c); [|reflexivity].
  apply star_chr. lia.
Qed.

Lemma skip_while_length (p : N -> bool) (s : jsstring) :
  (length s - length (skip_while p s) = run_length p s)%nat
  /\ (length (skip_while p s) <= length s)%nat.
Proof.
  induction s as [|c s' [IH1 IH2]]; [split; reflexivity|].
  cbn [skip_while run_length]. destruct (p c); cbn [length]; lia.
Qed.

Lemma collapse_ws_ignores_flag (s : jsstring) :
  head_not_space s = true -> collapse_ws true s = collapse_ws false s.
Proof.
  destruct s as [|c s']; [reflexivity|]. cbn [head_not_space collapse_ws].
  destruct (is_space c); [discriminate|reflexivity].
Qed.

(** The replacement [/\s+/g -> ' '] is the direct collapse; inside a match,
    with the rest of the run still to skip, it is the collapse within a
    run. *)
Lemma replace_spaces_collapse (s : jsstring) :
  replace_from re_spaces (js " ") 0 s = collapse_ws false s
  /\ replace_from re_spaces (js " ") (run_length is_space s) s
     = collapse_ws true s.
Proof.
  induction s as [|c s' [IHA IHB]]; [split; reflexivity|].
  assert (A : replace_from re_spaces (js " ") 0 (c :: s')
              = collapse_ws false (c :: s')).
  { cbn [replace_from collapse_ws].
    change (exec_at re_spaces (c :: s'))
      with (exec_at (Plus (Chr is_space)) (c :: s')).
    rewrite exec_plus_chr. destruct (is_space c); [|now rewrite IHA].
    destruct (skip_while_length is_space s') as [E L].
    replace (length (c :: s') - length (skip_while is_space s'))%nat
      with (S (run_length is_space s')) by (cbn [length]; lia).
    rewrite IHB. reflexivity. }
  split; [exact A|].
  cbn [run_length]. destruct (is_space c) eqn:C.
  - cbn [replace_from collapse_ws]. rewrite C. exact IHB.
  - rewrite A. cbn [collapse_ws]. rewrite C. reflexivity.
Qed.

Lemma collapse_ws_head (s : jsstring) :
  head_not_space (collapse_ws true s) = true.
Proof.
  induction s as [|c s' IH]; [reflexivity|]. cbn [collapse_ws].
  destruct (is_space c) eqn:C; [exact IH|].
  cbn [head_not_space]. now rewrite C.
Qed.

Lemma collapse_ws_collapsed (b : bool) (s : jsstring) :
  collapsed (collapse_ws b s) = true.
Proof.
  revert b; induction s as [|c s' IH]; intro b; [reflexivity|].
  cbn [collapse_ws]. destruct (is_space c) eqn:C.
  - destruct b; [apply IH|].
    cbn [collapsed]. change (is_space 32) with true. cbv iota.
    change (32 =? 32)%N with true.
    fold (head_not_space (collapse_ws true s')).
    rewrite collapse_ws_head, IH. reflexivity.
  - cbn [collapsed]. rewrite C, IH. reflexivity.
Qed.

Lemma collapsed_tail (c : N) (s : jsstring) :
  collapsed (c :: s) = true -> collapsed s = true.
Proof. cbn [collapsed]. intro E. apply andb_prop in E as [_ E]. exact E. Qed.

(** On collapsed text the collapse changes nothing. *)
Lemma collapse_ws_collapsed_id (s : jsstring) :
  collapsed s = true -> collapse_ws false s = s.
Proof.
  induction s as [|c s' IH]; [reflexivity|]. intro E.
  pose proof (collapsed_tail _ _ E) as E'.
  cbn [collapse_ws collapsed] in *. destruct (is_space c) eqn:C.
  - apply andb_prop in E as [E _]. apply andb_prop in E as [E1 E2].
    apply N.eqb_eq in E1. subst c.
    rewrite collapse_ws_ignores_flag by exact E2. now rewrite IH.
  - now rewrite IH.
Qed.

Lemma collapsed_no_newline (s : jsstring) :
  collapsed s = true -> Forall (fun c => one newline c = false) s.
Proof.
  induction s as [|c s' IH]; intro E; constructor.
  - cbn [collapsed] in E. apply andb_prop in E as [E _].
    unfold one. destruct (c =? newline)%N eqn:C; [|reflexivity].
    apply N.eqb_eq in C. subst c. discriminate E.
  - apply IH. apply (collapsed_tail _ _ E).
Qed.

(** A pattern that starts with a character class matches nowhere in a text
    without a character of the class. *)
Lemma replace_all_no_start (p : N -> bool) (r rep s : _) :
  Forall (fun c => p c = false) s ->
  replace_all (Seq (Chr p) r) rep s = s.
Proof.
  unfold replace_all. induction 1 as [|c s' Hc _ IH]; [reflexivity|].
  cbn [replace_from]. unfold exec_at. cbn [rmatch]. rewrite Hc.
  fold (exec_at (Seq (Chr p) r)). now rewrite IH.
Qed.

(** **** Trimming *)

Lemma trimEnd_idempotent (s : jsstring) : trimEnd (trimEnd s) = trimEnd s.
Proof.
  induction s as [|c s' IH]; [reflexivity|]. cbn [trimEnd].
  destruct (trimEnd s') as [|d t] eqn:E.
  - destruct (is_space c) eqn:C; [reflexivity|].
    cbn [trimEnd]. now rewrite C.
  - cbn [trimEnd]. cbn [trimEnd] in IH. rewrite IH. reflexivity.
Qed.

Lemma trimEnd_head (c : N) (s : jsstring) :
  is_space c = false -> exists t, trimEnd (c :: s) = c :: t.
Proof.
  intro C. cbn [trimEnd]. destruct (trimEnd s) as [|d t].
  - rewrite C. eexists; reflexivity.
  - eexists; reflexivity.
Qed.

Lemma trimStart_head (s : jsstring) : head_not_space (trimStart s) = true.
Proof.
  induction s as [|c s' IH]; [reflexivity|]. cbn [trimStart].
  destruct (is_space c) eqn:C; [exact IH|].
  cbn [head_not_space]. now rewrite C.
Qed.

Lemma trim_idempotent (s : jsstring) : trim (trim s) = trim s.
Proof.
  unfold trim. pose proof (trimStart_head s) as Hh.
  destruct (trimStart s) as [|c u]; [reflexivity|].
  cbn [head_not_space] in Hh. apply negb_true_iff in Hh.
  destruct (@trimEnd_head c u Hh) as [t E]. rewrite E.
  cbn [trimStart]. rewrite Hh, <- E. apply trimEnd_idempotent.
Qed.

Lemma trimEnd_prefix_head (s : jsstring) (d : N) (t : jsstring) :
  trimEnd s = d :: t -> exists s', s = d :: s'.
Proof.
  destruct s as [|c s']; [discriminate|]. cbn [trimEnd].
  destruct (trimEnd s'); [destruct (is_space c)|]; intros [= <- _]; eauto.
Qed.

Lemma trimStart_collapsed (s : jsstring) :
  collapsed s = true -> collapsed (trimStart s) = true.
Proof.
  induction s as [|c s' IH]; [auto|]. intro E. cbn [trimStart].
  destruct (is_space c); [|exact E]. apply IH, (collapsed_tail _ _ E).
Qed.

Lemma trimEnd_collapsed (s : jsstring) :
  collapsed s = true -> collapsed (trimEnd s) = true.
Proof.
  induction s as [|c s' IH]; [auto|]. intro E.
  pose proof (IH (collapsed_tail _ _ E)) as IH'. cbn [trimEnd].
  destruct (trimEnd s') as [|d t] eqn:T.
  - destruct (is_space c) eqn:C; [reflexivity|].
    cbn [collapsed]. now rewrite C.
  - destruct (trimEnd_prefix_head _ T) as [s'' ->].
    cbn [collapsed] in *. rewrite IH', andb_true_r.
    apply andb_prop in E as [E _]. exact E.
Qed.

Lemma trim_collapsed (s : jsstring) :
  collapsed s = true -> collapsed (trim s) = true.
Proof. intro E. apply trimEnd_collapsed, trimStart_collapsed, E. Qed.

(** **** The pipe *)

Lemma replace_from_Forall (P : N -> Prop) (r : regex) (rep s : jsstring)
  (n : nat) :
  Forall P rep -> Forall P s -> Forall P (replace_from r rep n s).
Proof.
  intros Hrep Hs; revert n; induction Hs as [|c s' Hc Hs IH]; intro n.
  - cbn [replace_from]. destruct n; [destruct (exec_at r [])|]; auto.
  - cbn [replace_from]. destruct n as [|n]; [|apply IH].
    destruct (exec_at r (c :: s')) as [rest|].
    + destruct (length (c :: s') - length rest)%nat;
        apply Forall_app; split; auto.
    + constructor; auto.
Qed.

Lemma trimStart_Forall (P : N -> Prop) (s : jsstring) :
  Forall P s -> Forall P (trimStart s).
Proof.
  induction 1 as [|c s' Hc Hs IH]; [constructor|]. cbn [trimStart].
  destruct (is_space c); [exact IH|constructor; assumption].
Qed.

Lemma trimEnd_Forall (P : N -> Prop) (s : jsstring) :
  Forall P s -> Forall P (trimEnd s).
Proof.
  induction 1 as [|c s' Hc Hs IH]; [constructor|]. cbn [trimEnd].
  destruct (trimEnd s'); [destruct (is_space c)|]; constructor; auto.
Qed.

Lemma first_segment_no_pipe (s : jsstring) : no_pipe (first_segment s).
Proof.
  unfold no_pipe. induction s as [|c s' IH]; [constructor|].
  cbn [first_segment]. destruct (c =? pipe)%N eqn:C; constructor; auto.
  apply N.eqb_neq, C.
Qed.

Lemma first_segment_id (s : jsstring) : no_pipe s -> first_segment s = s.
Proof.
  induction 1 as [|c s' Hc _ IH]; [reflexivity|]. cbn [first_segment].
  apply N.eqb_neq in Hc. now rewrite Hc, IH.
Qed.

Lemma first_segment_nil (s : jsstring) :
  first_segment s = [] -> s = [] \/ starts_with_pipe s.
Proof.
  destruct s as [|c s']; [auto|]. cbn [first_segment].
  destruct (c =? pipe)%N eqn:C; [|discriminate].
  apply N.eqb_eq in C. subst c. right; eexists; reflexivity.
Qed.

Lemma or_else_same (s : jsstring) : or_else s s = s.
Proof. unfold or_else; destruct (truthy_str s); reflexivity. Qed.

(** The segment kept by the pipe truncation is unchanged by a second
    truncation. *)
Lemma truncation_fixed (s : jsstring) :
  no_pipe s \/ starts_with_pipe s -> or_else (first_segment s) s = s.
Proof.
  intros [Hn|[s' ->]].
  - rewrite first_segment_id by exact Hn. apply or_else_same.
  - cbn [first_segment]. change (pipe =? pipe)%N with true. reflexivity.
Qed.

Lemma replace_all_keeps_pipe (p : regex) (rep s : jsstring) :
  no_match_at_pipe p ->
  replace_all p rep (pipe :: s) = pipe :: replace_all p rep s.
Proof.
  intro Hp. unfold replace_all. cbn [replace_from]. now rewrite Hp.
Qed.

Lemma noise_patterns_no_match_at_pipe :
  Forall no_match_at_pipe noise_patterns.
Proof. repeat constructor; intro s; reflexivity. Qed.

Lemma spaces_no_match_at_pipe : no_match_at_pipe re_spaces.
Proof. intro s; reflexivity. Qed.

Lemma blank_lines_no_match_at_pipe : no_match_at_pipe re_blank_lines.
Proof. intro s; reflexivity. Qed.

(** Each replacement of the structured path keeps a text without pipe
    without pipe, and a leading pipe in place. *)
Lemma replace_all_pipe_shape (p : regex) (rep s : jsstring) :
  no_match_at_pipe p -> no_pipe rep ->
  no_pipe s \/ starts_with_pipe s ->
  no_pipe (replace_all p rep s) \/ starts_with_pipe (replace_all p rep s).
Proof.
  intros Hp Hrep [Hs|[s' ->]].
  - left. apply replace_from_Forall; assumption.
  - right. rewrite replace_all_keeps_pipe by exact Hp. eexists; reflexivity.
Qed.

Lemma remove_all_pipe_shape (ps : list regex) (s : jsstring) :
  Forall no_match_at_pipe ps ->
  no_pipe s \/ starts_with_pipe s ->
  no_pipe (remove_all ps s) \/ starts_with_pipe (remove_all ps s).
Proof.
  intro Hps; revert s; induction Hps as [|p ps Hp _ IH]; intros s Hs;
    [exact Hs|].
  cbn [remove_all fold_left]. apply IH.
  apply replace_all_pipe_shape; [exact Hp|constructor|exact Hs].
Qed.

Lemma trim_pipe_shape (s : jsstring) :
  no_pipe s \/ starts_with_pipe s ->
  no_pipe (trim s) \/ starts_with_pipe (trim s).
Proof.
  intros [Hs|[s' ->]].
  - left. apply trimEnd_Forall, trimStart_Forall, Hs.
  - right. unfold trim. cbn [trimStart].
    change (is_space pipe) with false. cbv iota.
    destruct (@trimEnd_head pipe s' eq_refl) as [t ->]. eexists; reflexivity.
Qed.

Lemma remove_all_fixed (ps : list regex) (s : jsstring) :
  Forall (fun p => replace_all p [] s = s) ps -> remove_all ps s = s.
Proof.
  induction 1 as [|p ps Hp _ IH]; [reflexivity|].
  cbn [remove_all fold_left]. rewrite Hp. exact IH.
Qed.

(** **** The structured path applied to its own output *)

Lemma truncation_shape (t : jsstring) :
  no_pipe (or_else (first_segment t) t)
  \/ starts_with_pipe (or_else (first_segment t) t).
Proof.
  unfold or_else. destruct (first_segment t) as [|c u] eqn:E.
  - cbn [truthy_str]. destruct (first_segment_nil _ E) as [->|Hp];
      [left; constructor|right; exact Hp].
  - cbn [truthy_str]. left. rewrite <- E. apply first_segment_no_pipe.
Qed.

Lemma replace_blank_lines_collapsed (s : jsstring) :
  collapsed s = true -> replace_all re_blank_lines [newline] s = s.
Proof.
  intro E. unfold re_blank_lines, cat. cbn [fold_right].
  apply replace_all_no_start, collapsed_no_newline, E.
Qed.

Lemma replace_spaces_collapsed (s : jsstring) :
  collapsed s = true -> replace_all re_spaces (js " ") s = s.
Proof.
  intro E. unfold replace_all.
  rewrite (proj1 (replace_spaces_collapse s)).
  apply collapse_ws_collapsed_id, E.
Qed.

(** What the structured path returns: nothing, or a text of at least ten
    characters that is collapsed, trimmed, and either free of pipes or
    starting with one. *)
Lemma clean_text_cases (t : jsstring) :
  clean_text t = []
  \/ ((no_pipe (clean_text t) \/ starts_with_pipe (clean_text t))
      /\ collapsed (clean_text t) = true
      /\ trim (clean_text t) = clean_text t
      /\ (length (clean_text t) <? 10)%nat = false).
Proof.
  unfold clean_text. cbv zeta.
  set (t2 := remove_all noise_patterns (or_else (first_segment t) t)).
  assert (S2 : no_pipe t2 \/ starts_with_pipe t2)
    by (apply remove_all_pipe_shape;
        [apply noise_patterns_no_match_at_pipe|apply truncation_shape]).
  set (t3 := replace_all re_spaces (js " ") t2).
  assert (C3 : collapsed t3 = true).
  { unfold t3, replace_all. rewrite (proj1 (replace_spaces_collapse t2)).
    apply collapse_ws_collapsed. }
  assert (S3 : no_pipe t3 \/ starts_with_pipe t3).
  { apply replace_all_pipe_shape;
      [apply spaces_no_match_at_pipe| |exact S2].
    repeat constructor. discriminate. }
  rewrite (replace_blank_lines_collapsed _ C3).
  destruct (length (trim t3) <? 10)%nat eqn:L; [left; reflexivity|right].
  split; [apply trim_pipe_shape, S3|].
  split; [apply trim_collapsed, C3|].
  split; [apply trim_idempotent|exact L].
Qed.

Lemma clean_text_of_clean (y : jsstring) :
  no_pipe y \/ starts_with_pipe y ->
  collapsed y = true -> trim y = y -> (length y <? 10)%nat = false ->
  Forall (fun p => replace_all p [] y = y) noise_patterns ->
  clean_text y = y.
Proof.
  intros Hshape Hc Ht Hl Hnoise. unfold clean_text. cbv zeta.
  rewrite (truncation_fixed Hshape), (remove_all_fixed Hnoise).
  rewrite (replace_spaces_collapsed _ Hc), (replace_blank_lines_collapsed _ Hc).
  rewrite Ht, Hl. reflexivity.
Qed.

Lemma clean_text_idempotent (t : jsstring) :
  Forall (fun p => replace_all p [] (clean_text t) = clean_text t)
         noise_patterns ->
  clean_text (clean_text t) = clean_text t.
Proof.
  intro Hnoise. destruct (clean_text_cases t) as [E|(Hs & Hc & Ht & Hl)].
  - rewrite E. reflexivity.
  - apply clean_text_of_clean; assumption.
Qed.

(** C7, amended. Normalization is idempotent on clean output: for every
    input on which the structured parsing succeeds, if the text extraction
    returns the normalized text unchanged and none of the URL, tracking and
    artifact patterns matches in the normalized text, then normalizing it
    again changes nothing. *)
Theorem stripHtml_idempotent_on_clean_output {platform : Platform}
  (html : jsstring) (dom dom' : dom_text) :
  cheerio_load html = Some dom ->
  cheerio_load (stripHtml html) = Some dom' ->
  or_else (body_text dom') (root_text dom') = stripHtml html ->
  Forall (fun p => replace_all p [] (stripHtml html) = stripHtml html)
         noise_patterns ->
  stripHtml (stripHtml html) = stripHtml html.
Proof.
  intros Hload Hload' Hsame Hnoise.
  assert (E : stripHtml html
              = clean_text (or_else (body_text dom) (root_text dom)))
    by (unfold stripHtml; rewrite Hload; reflexivity).
  rewrite E in *. unfold stripHtml. rewrite Hload', Hsame.
  apply clean_text_idempotent, Hnoise.
Qed.

(** C7, witness: the pipe-truncation example normalizes to
    [Bitcoin hits $50k], which a second pass leaves as it is. *)
Lemma stripHtml_idempotent_on_clean_output_witness :
  @stripHtml plain_platform
     (@stripHtml plain_platform (js "Bitcoin hits $50k | via @cryptoNews"))
  = js "Bitcoin hits $50k".
Proof.
  apply (@stripHtml_idempotent_on_clean_output plain_platform
           (js "Bitcoin hits $50k | via @cryptoNews")
           {| body_text := js "Bitcoin hits $50k | via @cryptoNews";
              root_text := js "Bitcoin hits $50k | via @cryptoNews" |}
           {| body_text := js "Bitcoin hits $50k";
              root_text := js "Bitcoin hits $50k" |}).
  - reflexivity.
  - vm_compute; reflexivity.
  - vm_compute; reflexivity.
  - repeat constructor; vm_compute; reflexivity.
Defined.

(** **** The regex fallback on nested markup *)

(** A greedy run of a character class that a character outside the class
    ends: the continuation sees the text from that character on. *)
Lemma star_until (p : N -> bool) (k : jsstring -> option jsstring)
  (t rest : jsstring) (c : N) (r : jsstring) (fuel : nat) :
  Forall (fun x => p x = true) t -> p c = false ->
  (length (t ++ c :: rest) < fuel)%nat ->
  k (c :: rest) = Some r ->
  star_loop (rmatch (Chr p)) k fuel (t ++ c :: rest) = Some r.
Proof.
  intros Ht Hc. revert fuel.
  induction Ht as [|a t' Ha _ IH]; intros fuel Hlt Hk.
  - destruct fuel as [|fuel']; [cbn [app length] in Hlt; lia|].
    cbn [app star_loop rmatch]. now rewrite Hc, Hk.
  - destruct fuel as [|fuel']; [cbn [app length] in Hlt; lia|].
    cbn [app star_loop rmatch]. rewrite Ha.
    replace (length (t' ++ c :: rest) <? length (a :: t' ++ c :: rest))%nat
      with true by (symmetry; apply Nat.ltb_lt; cbn [length]; lia).
    rewrite IH; [reflexivity| |exact Hk].
    cbn [app length] in Hlt. lia.
Qed.

(** A tag: [<], characters other than [>], and [>]. *)
Lemma exec_tag (t rest : jsstring) :
  Forall (fun x => (x =? 62)%N = false) t ->
  exec_at re_tag (60%N :: t ++ 62%N :: rest) = Some rest.
Proof.
  intro Ht. unfold exec_at.
  change re_tag
    with (Seq (Seq (Chr (one 60)) Eps)
              (Seq (Star (Chr (neg (one 62))))
                   (Seq (Seq (Chr (one 62)) Eps) Eps))).
  cbn [rmatch]. change (one 60 60) with true. cbv iota.
  apply star_until with (c := 62%N).
  - apply Forall_impl with (2 := Ht). intros x Hx. unfold neg, one.
    now rewrite Hx.
  - reflexivity.
  - lia.
  - reflexivity.
Qed.

Lemma exec_tag_elsewhere (c : N) (s : jsstring) :
  (c =? 60)%N = false -> exec_at re_tag (c :: s) = None.
Proof.
  intro Hc. unfold exec_at.
  change re_tag
    with (Seq (Seq (Chr (one 60)) Eps)
              (Seq (Star (Chr (neg (one 62))))
                   (Seq (Seq (Chr (one 62)) Eps) Eps))).
  cbn [rmatch]. unfold one. now rewrite Hc.
Qed.

Lemma replace_from_skip (r : regex) (rep u s : jsstring) :
  replace_from r rep (length u) (u ++ s) = replace_from r rep 0 s.
Proof. induction u as [|a u IH]; [reflexivity|exact IH]. Qed.

(** The replacement of a tag, and of text without [<]. *)
Lemma replace_tag (rep t rest : jsstring) :
  Forall (fun x => (x =? 62)%N = false) t ->
  replace_all re_tag rep (60%N :: t ++ 62%N :: rest)
  = rep ++ replace_all re_tag rep rest.
Proof.
  intro Ht. unfold replace_all. cbn [replace_from]. rewrite exec_tag by exact Ht.
  replace (length (60%N :: t ++ 62%N :: rest) - length rest)%nat
    with (S (length (t ++ [62%N])))
    by (cbn [length]; rewrite !length_app; cbn [length]; lia).
  replace (t ++ 62%N :: rest) with ((t ++ [62%N]) ++ rest)
    by (rewrite <- app_assoc; reflexivity).
  now rewrite replace_from_skip.
Qed.

Lemma replace_tag_text (rep u s : jsstring) :
  Forall (fun x => (x =? 60)%N = false) u ->
  replace_all re_tag rep (u ++ s) = u ++ replace_all re_tag rep s.
Proof.
  unfold replace_all. induction 1 as [|c u' Hc _ IH]; [reflexivity|].
  cbn [app replace_from]. rewrite exec_tag_elsewhere by exact Hc. now rewrite IH.
Qed.

Lemma replace_tag_wrap (tag : jsstring) (n : nat) (s : jsstring) :
  (exists t, tag = 60%N :: t ++ [62%N]
             /\ Forall (fun x => (x =? 62)%N = false) t) ->
  replace_all re_tag (js " ") (wrap tag n s)
  = repeat 32%N n ++ replace_all re_tag (js " ") s.
Proof.
  intros (t & -> & Ht). induction n as [|n IH]; [reflexivity|].
  cbn [wrap repeat]. rewrite <- app_comm_cons, <- app_assoc.
  cbn [app]. rewrite replace_tag by exact Ht. now rewrite IH.
Qed.

Lemma replace_tag_nested (n : nat) (inner rest : jsstring) :
  Forall (fun x => (x =? 60)%N = false) inner ->
  Forall (fun x => (x =? 60)%N = false) rest ->
  replace_all re_tag (js " ") (nested n inner rest)
  = repeat 32%N n ++ inner ++ repeat 32%N n ++ rest.
Proof.
  intros Hi Hr. unfold nested.
  rewrite replace_tag_wrap
    by (exists (js "div"); split; [reflexivity|repeat constructor]).
  rewrite replace_tag_text by exact Hi.
  rewrite replace_tag_wrap
    by (exists (js "/div"); split; [reflexivity|repeat constructor]).
  rewrite <- (app_nil_r rest) at 1. rewrite replace_tag_text by exact Hr.
  now rewrite app_nil_r.
Qed.

Lemma first_segment_app (u s : jsstring) :
  no_pipe u -> first_segment (u ++ s) = u ++ first_segment s.
Proof.
  induction 1 as [|c u' Hc _ IH]; [reflexivity|]. cbn [app first_segment].
  apply N.eqb_neq in Hc. now rewrite Hc, IH.
Qed.

Lemma no_pipe_spaces (n : nat) : no_pipe (repeat 32%N n).
Proof. induction n; constructor; [discriminate|assumption]. Qed.

Lemma no_pipe_app (u v : jsstring) : no_pipe u -> no_pipe v -> no_pipe (u ++ v).
Proof. intros Hu Hv. apply Forall_app; split; assumption. Qed.

Lemma trimStart_all_space (s : jsstring) :
  forallb is_space s = true -> trimStart s = [].
Proof.
  induction s as [|c s' IH]; [reflexivity|]. cbn [forallb trimStart].
  intro E. apply andb_prop in E as [E1 E2]. rewrite E1. apply IH, E2.
Qed.

Lemma trim_all_space (s : jsstring) :
  forallb is_space s = true -> trim s = [].
Proof. intro E. unfold trim. now rewrite (trimStart_all_space _ E). Qed.

Lemma trimEnd_nil (s : jsstring) :
  trimEnd s = [] -> forallb is_space s = true.
Proof.
  induction s as [|c s' IH]; [reflexivity|]. cbn [trimEnd forallb].
  destruct (trimEnd s') as [|d t]; [|discriminate].
  destruct (is_space c); [|discriminate]. intros _. now rewrite IH.
Qed.

Lemma trimStart_nil (s : jsstring) :
  forallb is_space (trimStart s) = true -> forallb is_space s = true.
Proof.
  induction s as [|c s' IH]; [reflexivity|]. cbn [trimStart forallb].
  destruct (is_space c) eqn:C; [exact IH|].
  cbn [forallb]. rewrite C. discriminate.
Qed.

(** A string trims to nothing exactly when it is all white space. *)
Lemma trim_nil_iff (s : jsstring) :
  trim s = [] <-> forallb is_space s = true.
Proof.
  split; [|apply trim_all_space].
  unfold trim. intro E. apply trimStart_nil, trimEnd_nil, E.
Qed.

Lemma all_space_spaces (n : nat) : forallb is_space (repeat 32%N n) = true.
Proof. induction n as [|n IH]; [reflexivity|exact IH]. Qed.

(** What the fallback makes of the nested headline and of the nested
    space. *)
Lemma fallback_deep_headline (n : nat) :
  stripHtml_fallback (deep_headline n)
  = repeat 32%N n ++ js "Bitcoin  rallies" ++ repeat 32%N n ++ js " ".
Proof.
  unfold stripHtml_fallback, deep_headline.
  rewrite replace_tag_nested by (repeat constructor).
  replace (repeat 32%N n ++ js "Bitcoin  rallies" ++ repeat 32%N n
             ++ js " | via feed")
    with ((repeat 32%N n ++ js "Bitcoin  rallies" ++ repeat 32%N n ++ js " ")
            ++ js "| via feed")
    by (rewrite <- !app_assoc; reflexivity).
  rewrite first_segment_app.
  - cbn [first_segment js]. rewrite app_nil_r. unfold or_else.
    destruct n; reflexivity.
  - apply no_pipe_app; [apply no_pipe_spaces|].
    apply no_pipe_app; [repeat constructor; discriminate|].
    apply no_pipe_app; [apply no_pipe_spaces|].
    repeat constructor; discriminate.
Qed.

Lemma fallback_deep_blank (n : nat) :
  stripHtml_fallback (deep_blank n) = repeat 32%N n ++ 32%N :: repeat 32%N n.
Proof.
  unfold stripHtml_fallback, deep_blank.
  rewrite replace_tag_nested by (repeat constructor).
  rewrite app_nil_r. rewrite first_segment_id.
  - unfold or_else. destruct n; reflexivity.
  - apply no_pipe_app; [apply no_pipe_spaces|].
    apply (no_pipe_app (u := js " "));
      [repeat constructor; discriminate|apply no_pipe_spaces].
Qed.

Lemma collapse_run_spaces (n : nat) (s : jsstring) :
  collapse_ws true (repeat 32%N n ++ s) = collapse_ws true s.
Proof. induction n as [|n IH]; [reflexivity|exact IH]. Qed.

(** The collapse of a text that ends in a character other than white
    space goes on after it outside a run. *)
Lemma collapse_ws_app (b : bool) (u : jsstring) (c : N) (s : jsstring) :
  is_space c = false ->
  collapse_ws b ((u ++ [c]) ++ s)
  = collapse_ws b (u ++ [c]) ++ collapse_ws false s.
Proof.
  intro Hc. revert b. induction u as [|a u IH]; intro b.
  - cbn [app collapse_ws]. now rewrite Hc.
  - cbn [app collapse_ws]. destruct (is_space a); [destruct b|];
      cbn [app]; now rewrite IH.
Qed.

(** The white-space collapse and the trimming of the structured path,
    applied to what the fallback returns for the nested headline. *)
Lemma collapse_trim_deep_headline (n : nat) :
  trim (collapse_ws false
          (repeat 32%N n ++ js "Bitcoin  rallies" ++ repeat 32%N n ++ js " "))
  = js "Bitcoin rallies".
Proof.
  assert (E : forall b,
             collapse_ws b (js "Bitcoin  rallies" ++ repeat 32%N n ++ js " ")
             = js "Bitcoin rallies ").
  { intro b.
    change (js "Bitcoin  rallies") with (js "Bitcoin  rallie" ++ [115%N]).
    rewrite collapse_ws_app by reflexivity.
    replace (collapse_ws false (repeat 32%N n ++ js " ")) with (js " ").
    - destruct b; vm_compute; reflexivity.
    - destruct n as [|n]; [reflexivity|].
      cbn [repeat app collapse_ws]. change (is_space 32) with true.
      cbv iota. now rewrite collapse_run_spaces. }
  destruct n as [|n].
  - cbn [repeat app]. rewrite E. vm_compute. reflexivity.
  - cbn [repeat app collapse_ws]. change (is_space 32) with true. cbv iota.
    rewrite collapse_run_spaces, E. vm_compute. reflexivity.
Qed.

(** The nesting counted by the reference platform. *)
Lemma nesting_from_deepest (s : jsstring) (open deepest : N) :
  (deepest <= nesting_from open deepest s)%N.
Proof.
  revert open deepest. induction s as [|c s' IH]; intros open deepest;
    cbn [nesting_from]; [lia|].
  destruct (c =? 60)%N; [|apply IH].
  destruct s' as [|d s'']; [lia|].
  destruct (d =? 47)%N; [apply IH|].
  etransitivity; [|apply IH]. lia.
Qed.

Lemma nesting_from_wrap (n : nat) (s : jsstring) (open deepest : N) :
  (open <= deepest)%N ->
  (open + N.of_nat n
   <= nesting_from open deepest (wrap (js "<div>") n s))%N.
Proof.
  revert open deepest. induction n as [|n IH]; intros open deepest Hod.
  - cbn [wrap]. pose proof (nesting_from_deepest s open deepest). lia.
  - cbn [wrap]. change (js "<div>") with [60; 100; 105; 118; 62]%N.
    cbn [app nesting_from].
    change (60 =? 60)%N with true. change (100 =? 47)%N with false.
    change (100 =? 60)%N with false. change (105 =? 60)%N with false.
    change (118 =? 60)%N with false. change (62 =? 60)%N with false.
    cbv iota.
    change (wrap [60; 100; 105; 118; 62]%N n s) with (wrap (js "<div>") n s).
    specialize (IH (N.succ open) (N.max deepest (N.succ open))). lia.
Qed.

(** On the reference platform the text extraction overflows on text nested
    deeper than the limit. *)
Lemma overflow_on_nested (n : nat) (inner rest : jsstring) :
  (stack_limit < N.of_nat n)%N ->
  @cheerio_load overflowing_platform (nested n inner rest) = None.
Proof.
  intro Hn. cbn [cheerio_load overflowing_platform].
  replace (stack_limit <? nesting_depth (nested n inner rest))%N with true;
    [reflexivity|].
  symmetry. apply N.ltb_lt. unfold nesting_depth, nested.
  pose proof (@nesting_from_wrap n
                (inner ++ wrap (js "</div>") n rest) 0 0) as H.
  unfold stack_limit in *. lia.
Qed.

(** C6, failing input: a headline with a double space, nested so deep
    that the structured parsing throws, followed by a pipe and a source.
    The fallback returns the segment before the pipe with every tag
    replaced by a space: the white space is neither collapsed nor trimmed,
    and the result is not [Bitcoin rallies], the headline collapsed and
    trimmed. The URL removal, the collapse and the trimming of the [catch]
    branch belong to the right operand of [||], which is not evaluated. *)
Theorem stripHtml_fallback_keeps_white_space {platform : Platform} (n : nat) :
  cheerio_load (deep_headline n) = None ->
  stripHtml (deep_headline n)
  = repeat 32%N n ++ js "Bitcoin  rallies" ++ repeat 32%N n ++ js " "
  /\ stripHtml (deep_headline n) <> js "Bitcoin rallies"
  /\ trim (replace_all re_spaces (js " ") (stripHtml (deep_headline n)))
     = js "Bitcoin rallies".
Proof.
  intro Hthrow.
  assert (E : stripHtml (deep_headline n)
              = repeat 32%N n ++ js "Bitcoin  rallies" ++ repeat 32%N n
                  ++ js " ").
  { unfold stripHtml. rewrite Hthrow. apply fallback_deep_headline. }
  rewrite E. split; [reflexivity|]. split.
  - intro Heq. apply (f_equal (@length N)) in Heq.
    rewrite !length_app, !repeat_length in Heq. cbn [length js] in Heq.
    vm_compute (length _) in Heq. lia.
  - unfold replace_all. rewrite (proj1 (replace_spaces_collapse _)).
    apply collapse_trim_deep_headline.
Qed.

(** C6, witness: 100001 levels on the reference platform. *)
Lemma stripHtml_fallback_keeps_white_space_witness :
  @stripHtml overflowing_platform (deep_headline (N.to_nat 100001))
  = repeat 32%N (N.to_nat 100001) ++ js "Bitcoin  rallies"
      ++ repeat 32%N (N.to_nat 100001) ++ js " "
  /\ @stripHtml overflowing_platform (deep_headline (N.to_nat 100001))
     <> js "Bitcoin rallies"
  /\ trim (replace_all re_spaces (js " ")
             (@stripHtml overflowing_platform
                (deep_headline (N.to_nat 100001))))
     = js "Bitcoin rallies".
Proof.
  apply (@stripHtml_fallback_keeps_white_space overflowing_platform
           (N.to_nat 100001)).
  apply overflow_on_nested. rewrite N2Nat.id. reflexivity.
Defined.

(** C5, counterexample: a single space nested so deep that the structured
    parsing throws. The normalization is the fallback's: one space for each
    tag and the space itself, a non-empty text. It is all white space, so
    the second guard of [translateToTurkish] returns the raw input, which is
    not the cleaned text; the providers, here rejecting every request, are
    not asked. *)
Lemma degradation_returns_raw_input :
  let text := deep_blank (N.to_nat 100001) in
  @stripHtml overflowing_platform text
  = repeat 32%N (N.to_nat 100001) ++ 32%N :: repeat 32%N (N.to_nat 100001)
  /\ @stripHtml overflowing_platform text <> []
  /\ @run script scripted _ (@translateToTurkish overflowing_platform text)
       silent
     = (Ok text, silent)
  /\ text <> @stripHtml overflowing_platform text.
Proof.
  cbv zeta. set (n := N.to_nat 100001).
  assert (Hn : (stack_limit < N.of_nat n)%N)
    by (unfold n; rewrite N2Nat.id; reflexivity).
  clearbody n.
  assert (E : @stripHtml overflowing_platform (deep_blank n)
              = repeat 32%N n ++ 32%N :: repeat 32%N n).
  { unfold stripHtml, deep_blank. rewrite overflow_on_nested by exact Hn.
    apply fallback_deep_blank. }
  assert (Hblank : forallb is_space (repeat 32%N n ++ 32%N :: repeat 32%N n)
                   = true).
  { rewrite forallb_app. cbn [forallb]. rewrite !all_space_spaces.
    reflexivity. }
  assert (Hhead : exists rest, deep_blank n = 60%N :: rest).
  { destruct n as [|m]; [vm_compute in Hn; discriminate Hn|].
    eexists. reflexivity. }
  destruct Hhead as [rest Hrest].
  split; [exact E|]. split; [|split].
  - rewrite E. destruct n; discriminate.
  - unfold translateToTurkish.
    replace (negb (truthy_str (deep_blank n))
             || (length (trim (deep_blank n)) =? 0)%nat) with false.
    + cbv zeta. rewrite E.
      replace (negb (truthy_str (repeat 32%N n ++ 32%N :: repeat 32%N n))
               || (length (trim (repeat 32%N n ++ 32%N :: repeat 32%N n))
                   =? 0)%nat) with true; [reflexivity|].
      rewrite (trim_all_space _ Hblank). symmetry. apply orb_true_r.
    + symmetry. rewrite Hrest. apply orb_false_iff. split; [reflexivity|].
      apply Nat.eqb_neq. intro L. apply length_zero_iff_nil in L.
      apply trim_nil_iff in L. discriminate L.
  - rewrite E, Hrest. destruct n; discriminate.
Qed.

(** The pipe-truncation example. *)
Example pipe_truncation :
  @stripHtml plain_platform (js "Bitcoin hits $50k | via @cryptoNews")
  = js "Bitcoin hits $50k".
Proof. vm_compute; reflexivity. Qed.

(** C7, counterexample: the double space keeps [Read  more:] from matching
    in the first pass; the white-space collapse then produces
    [Read more:], which the second pass removes. *)
Lemma stripHtml_not_idempotent :
  @stripHtml plain_platform (js "Read  more: hello world")
  = js "Read more: hello world"
  /\ @stripHtml plain_platform
       (@stripHtml plain_platform (js "Read  more: hello world"))
     = js "hello world"
  /\ @stripHtml plain_platform
       (@stripHtml plain_platform (js "Read  more: hello world"))
     <> @stripHtml plain_platform (js "Read  more: hello world").
Proof.
  split; [vm_compute; reflexivity|].
  split; [vm_compute; reflexivity|]. vm_compute. discriminate.
Qed.

(* ===================================================================== *)
(** ** Further properties of the translation service *)
(* ===================================================================== *)

(** *** The fast provider *)

Section FastProvider.

Context {platform : Platform} {W : Type} `{Collaborators W}.

(** The one request of [translateWithLibreTranslate] and what becomes of
    its reply. *)
Lemma run_translateWithLibreTranslate (text : jsstring) (targetLang : lang)
  (w : W) :
  run (translateWithLibreTranslate text targetLang) w
  = (match fst (on_fetch (libre_request text targetLang) w) with
     | Raise e => Raise e
     | Ok response =>
         if negb (ok response)
         then Raise (Error (js "LibreTranslate API error: "
                              ++ decimal (status response)))
         else obind (response_json response) translated_text
     end,
     snd (on_fetch (libre_request text targetLang) w)).
Proof.
  unfold translateWithLibreTranslate. rewrite run_try_catch, run_bind.
  cbn [run fetch_proxy].
  destruct (on_fetch (libre_request text targetLang) w) as [[response|e] w1];
    cbn [run lift fst snd]; [|reflexivity].
  destruct (negb (ok response)); cbn [run]; [reflexivity|].
  rewrite run_bind.
  destruct (response_json response) as [data|e]; cbn [run lift obind];
    [|reflexivity].
  destruct (translated_text data); reflexivity.
Qed.

Lemma translated_text_ok (data : json) (t : jsstring) :
  translated_text data = Ok t
  <-> exists members,
        data = JObject members
        /\ lookup (js "translatedText") members = Some (JString t)
        /\ trim t <> [].
Proof.
  unfold translated_text, obind. split.
  - destruct data as [ |b|m e|s|l|members]; cbn [get_member];
      try discriminate.
    destruct (lookup (js "translatedText") members) as [[ |b|m e|s|l|ms]|] eqn:L;
      cbn [truthy negb]; try discriminate;
      try (destruct b; discriminate);
      try (destruct (number_truthy m e); discriminate).
    destruct (truthy_str s); cbn [negb]; [|discriminate].
    destruct (length (trim s) =? 0)%nat eqn:E; [discriminate|].
    intros [= <-]. exists members.
    split; [reflexivity|]. split; [exact L|].
    intro Hnil. rewrite Hnil in E. discriminate.
  - intros (members & -> & L & Ht). cbn [get_member]. rewrite L.
    cbn [truthy]. destruct t as [|c t']; [elim Ht; reflexivity|].
    cbn [truthy_str negb]. destruct (trim (c :: t')) eqn:E;
      [elim Ht; reflexivity|reflexivity].
Qed.

(** X1. [translateWithLibreTranslate] is fulfilled with [t] exactly when
    its one proxy request was answered with a successful response whose
    body parses to an object with the string [t] as [translatedText] and
    [t] is not blank; the value is that string as it is. Every other reply
    makes it reject. *)
Theorem translateWithLibreTranslate_fulfilled (text : jsstring)
  (targetLang : lang) (w w' : W) (t : jsstring) :
  run (translateWithLibreTranslate text targetLang) w = (Ok t, w')
  <-> exists response members,
        on_fetch (libre_request text targetLang) w = (Ok response, w')
        /\ ok response = true
        /\ JSON_parse (body response) = Some (JObject members)
        /\ lookup (js "translatedText") members = Some (JString t)
        /\ trim t <> [].
Proof.
  rewrite run_translateWithLibreTranslate.
  destruct (on_fetch (libre_request text targetLang) w) as [reply w1];
    cbn [fst snd].
  split.
  - destruct reply as [response|e]; [|intros [=]].
    destruct (ok response) eqn:Hok; cbn [negb]; [|intros [=]].
    unfold response_json.
    destruct (JSON_parse (body response)) as [data|] eqn:P; cbn [obind];
      [|intros [=]].
    intro E. assert (E1 : translated_text data = Ok t) by congruence.
    assert (E2 : w1 = w') by congruence. subst w1.
    apply translated_text_ok in E1 as (members & -> & L & Ht).
    exists response, members. auto.
  - intros (response & members & [= -> ->] & Hok & P & L & Ht).
    rewrite Hok. cbn [negb]. unfold response_json. rewrite P. cbn [obind].
    replace (translated_text (JObject members)) with (Ok t); [reflexivity|].
    symmetry. apply translated_text_ok. eauto.
Qed.

(** A response that is not [ok] makes [translateWithLibreTranslate] reject
    with the error [LibreTranslate API error: <status>], whatever its
    body. *)
Lemma translateWithLibreTranslate_status_error (text : jsstring)
  (targetLang : lang) (w w' : W) (response : http_response) :
  on_fetch (libre_request text targetLang) w = (Ok response, w') ->
  ok response = false ->
  run (translateWithLibreTranslate text targetLang) w
  = (Raise (Error (js "LibreTranslate API error: "
                     ++ decimal (status response))), w').
Proof.
  intros E Hok. rewrite run_translateWithLibreTranslate, E. cbn [fst snd].
  rewrite Hok. reflexivity.
Qed.

End FastProvider.

Example translateWithLibreTranslate_example :
  @run script scripted _
     (translateWithLibreTranslate (js "Bitcoin hits a new record") tr)
     (translating (translated_reply "Bitcoin yeni bir rekor kirdi"))
  = (Ok (js "Bitcoin yeni bir rekor kirdi"), silent).
Proof. vm_compute; reflexivity. Qed.

(** *** The shape of normalized text *)

(** X2. When the structured parsing succeeds, [stripHtml] returns either
    the empty string or a text of at least ten code units that has no
    leading or trailing white space, whose white space is single spaces
    only, and that either contains no pipe or starts with one. *)
Theorem stripHtml_structured_shape {platform : Platform}
  (html : jsstring) (dom : dom_text) :
  cheerio_load html = Some dom ->
  stripHtml html = []
  \/ ((10 <= length (stripHtml html))%nat
      /\ trim (stripHtml html) = stripHtml html
      /\ collapsed (stripHtml html) = true
      /\ (no_pipe (stripHtml html) \/ starts_with_pipe (stripHtml html))).
Proof.
  intro Hload. unfold stripHtml. rewrite Hload.
  destruct (clean_text_cases (or_else (body_text dom) (root_text dom)))
    as [E|(Hs & Hc & Ht & Hl)]; [left; exact E|right].
  apply Nat.ltb_ge in Hl. auto.
Qed.

(** X2, witness: a headline with a pipe and irregular white space. *)
Lemma stripHtml_structured_shape_witness :
  @stripHtml plain_platform (js "  Ether   falls | below support ") = []
  \/ ((10 <= length (@stripHtml plain_platform
                       (js "  Ether   falls | below support ")))%nat
      /\ trim (@stripHtml plain_platform
                 (js "  Ether   falls | below support "))
         = @stripHtml plain_platform (js "  Ether   falls | below support ")
      /\ collapsed (@stripHtml plain_platform
                      (js "  Ether   falls | below support ")) = true
      /\ (no_pipe (@stripHtml plain_platform
                     (js "  Ether   falls | below support "))
          \/ starts_with_pipe
               (@stripHtml plain_platform
                  (js "  Ether   falls | below support ")))).
Proof.
  apply (@stripHtml_structured_shape plain_platform
           (js "  Ether   falls | below support ")
           {| body_text := js "  Ether   falls | below support ";
              root_text := js "  Ether   falls | below support " |}).
  reflexivity.
Defined.

(** *** The tiers of [translateToTurkish] *)

Section TranslationTiers.

Context {platform : Platform} {W : Type} `{Collaborators W}.

(** X3. When the fast provider's translation passes its check,
    [translateToTurkish] returns it as it is and the model endpoint is not
    called: the world is the one the proxy request left. *)
Theorem translateToTurkish_fast_accepted (text t : jsstring) (w w1 : W) :
  negb (truthy_str text) || (length (trim text) =? 0)%nat = false ->
  negb (truthy_str (stripHtml text))
    || (length (trim (stripHtml text)) =? 0)%nat = false ->
  run (translateWithLibreTranslate (stripHtml text) tr) w = (Ok t, w1) ->
  libre_accepted (stripHtml text) t = true ->
  run (translateToTurkish text) w = (Ok t, w1).
Proof.
  intros G1 G2 Hfast Hacc.
  unfold translateToTurkish. rewrite G1. cbv zeta. rewrite G2.
  rewrite run_try_catch, run_bind. unfold attempt at 1.
  rewrite run_try_catch, run_bind, Hfast, Hacc. reflexivity.
Qed.

(** X4. When the fast provider fails or its answer is rejected and the
    answer of the model endpoint is longer than ten code units,
    [translateToTurkish] returns that answer normalized by [stripHtml]. *)
Theorem translateToTurkish_fallback_accepted (text : jsstring) (w w1 w2 : W)
  (r1 : outcome jsstring) (response : chat_response) :
  negb (truthy_str text) || (length (trim text) =? 0)%nat = false ->
  negb (truthy_str (stripHtml text))
    || (length (trim (stripHtml text)) =? 0)%nat = false ->
  run (translateWithLibreTranslate (stripHtml text) tr) w = (r1, w1) ->
  (forall t, r1 = Ok t -> libre_accepted (stripHtml text) t = false) ->
  on_chat (translator_request (stripHtml text)) w1 = (Ok response, w2) ->
  openai_accepted (first_content response) = true ->
  run (translateToTurkish text) w
  = (Ok (stripHtml (first_content response)), w2).
Proof.
  intros G1 G2 Hfast Hrej Hchat Hacc.
  unfold translateToTurkish. rewrite G1. cbv zeta. rewrite G2.
  rewrite run_try_catch, run_bind. unfold attempt at 1.
  rewrite run_try_catch, run_bind, Hfast.
  assert (Hsecond :
    run (attempt
           (response <- openaiChatCompletion
                          (translator_request (stripHtml text)) ;;
            if openai_accepted (first_content response)
            then Resolve (Some (stripHtml (first_content response)))
            else Resolve None)) w1
    = (Ok (Some (stripHtml (first_content response))), w2)).
  { unfold attempt. rewrite run_try_catch, run_bind.
    cbn [run openaiChatCompletion]. rewrite Hchat. cbn [run lift].
    rewrite Hacc. reflexivity. }
  destruct r1 as [t|e].
  - rewrite (Hrej t eq_refl). cbn [run]. rewrite run_bind, Hsecond.
    reflexivity.
  - cbn [run]. rewrite run_bind, Hsecond. reflexivity.
Qed.

End TranslationTiers.

(** X3, witness: the proxy answers with a translation. *)
Lemma translateToTurkish_fast_accepted_witness :
  @run script scripted _
     (@translateToTurkish plain_platform (js "Bitcoin hits a new record"))
     (translating (translated_reply "Bitcoin yeni bir rekor kirdi"))
  = (Ok (js "Bitcoin yeni bir rekor kirdi"), silent).
Proof.
  apply (@translateToTurkish_fast_accepted plain_platform script scripted
           (js "Bitcoin hits a new record")
           (js "Bitcoin yeni bir rekor kirdi")
           (translating (translated_reply "Bitcoin yeni bir rekor kirdi"))
           silent); vm_compute; reflexivity.
Defined.

(** X4, witness: the proxy rejects, the model endpoint answers. *)
Lemma translateToTurkish_fallback_accepted_witness :
  @run script scripted _
     (@translateToTurkish plain_platform (js "Bitcoin hits a new record"))
     (answering (answer (js "Bitcoin  yeni bir rekor | kirdi")))
  = (Ok (js "Bitcoin yeni bir rekor"), silent).
Proof.
  apply (@translateToTurkish_fallback_accepted plain_platform script scripted
           (js "Bitcoin hits a new record")
           (answering (answer (js "Bitcoin  yeni bir rekor | kirdi")))
           (answering (answer (js "Bitcoin  yeni bir rekor | kirdi")))
           silent (Raise (External 0))
           (answer (js "Bitcoin  yeni bir rekor | kirdi")));
    try (vm_compute; reflexivity); intros ? [=].
Defined.

(** *** Requests issued *)

Lemma at_most_weaken {A} (p : async A) f c t f' c' t' :
  at_most f c t p -> (f <= f')%nat -> (c <= c')%nat -> (t <= t')%nat ->
  at_most f' c' t' p.
Proof.
  intro Hp; revert f' c' t';
    induction Hp as [f c t a|f c t e|f c t req k _ IH|f c t req k _ IH
                    |f c t ms k _ IH]; intros f' c' t' Hf Hc Ht.
  - constructor.
  - constructor.
  - destruct f' as [|f']; [lia|]. constructor. intro r. apply IH; lia.
  - destruct c' as [|c']; [lia|]. constructor. intro r. apply IH; lia.
  - destruct t' as [|t']; [lia|]. constructor. intro u. apply IH; lia.
Qed.

Lemma at_most_bind {A B} (p : async A) (k : A -> async B)
  f1 c1 t1 f2 c2 t2 f c t :
  at_most f1 c1 t1 p -> (forall a, at_most f2 c2 t2 (k a)) ->
  (f1 + f2 <= f)%nat -> (c1 + c2 <= c)%nat -> (t1 + t2 <= t)%nat ->
  at_most f c t (bind p k).
Proof.
  intros Hp Hk; revert f c t;
    induction Hp as [f1 c1 t1 a|f1 c1 t1 e|f1 c1 t1 req k' _ IH
                    |f1 c1 t1 req k' _ IH|f1 c1 t1 ms k' _ IH];
    intros f c t Hf Hc Ht; cbn [bind].
  - apply at_most_weaken with f2 c2 t2; [apply Hk|lia..].
  - constructor.
  - destruct f as [|f]; [lia|]. constructor. intro r. apply IH; lia.
  - destruct c as [|c]; [lia|]. constructor. intro r. apply IH; lia.
  - destruct t as [|t]; [lia|]. constructor. intro u. apply IH; lia.
Qed.

Lemma at_most_try_catch {A} (p : async A) (h : exn -> async A)
  f1 c1 t1 f2 c2 t2 f c t :
  at_most f1 c1 t1 p -> (forall e, at_most f2 c2 t2 (h e)) ->
  (f1 + f2 <= f)%nat -> (c1 + c2 <= c)%nat -> (t1 + t2 <= t)%nat ->
  at_most f c t (try_catch p h).
Proof.
  intros Hp Hh; revert f c t;
    induction Hp as [f1 c1 t1 a|f1 c1 t1 e|f1 c1 t1 req k' _ IH
                    |f1 c1 t1 req k' _ IH|f1 c1 t1 ms k' _ IH];
    intros f c t Hf Hc Ht; cbn [try_catch].
  - constructor.
  - apply at_most_weaken with f2 c2 t2; [apply Hh|lia..].
  - destruct f as [|f]; [lia|]. constructor. intro r. apply IH; lia.
  - destruct c as [|c]; [lia|]. constructor. intro r. apply IH; lia.
  - destruct t as [|t]; [lia|]. constructor. intro u. apply IH; lia.
Qed.

Lemma at_most_lift {A} (o : outcome A) : at_most 0 0 0 (lift o).
Proof. destruct o; constructor. Qed.

Lemma requests_bind {A B} F C T (p : async A) (k : A -> async B) :
  requests F C T p -> (forall a, requests F C T (k a)) ->
  requests F C T (bind p k).
Proof. intros Hp Hk; induction Hp; cbn [bind]; try constructor; auto. Qed.

Lemma requests_try_catch {A} F C T (p : async A) (h : exn -> async A) :
  requests F C T p -> (forall e, requests F C T (h e)) ->
  requests F C T (try_catch p h).
Proof. intros Hp Hh; induction Hp; cbn [try_catch]; try constructor; auto. Qed.

Lemma requests_lift {A} F C T (o : outcome A) : requests F C T (lift o).
Proof. destruct o; constructor. Qed.

Lemma requests_weaken {A} (F F' : proxy_request -> Prop)
  (C C' : chat_request -> Prop) (T T' : Z -> Prop) (p : async A) :
  (forall r, F r -> F' r) -> (forall r, C r -> C' r) ->
  (forall ms, T ms -> T' ms) ->
  requests F C T p -> requests F' C' T' p.
Proof. intros HF HC HT; induction 1; constructor; auto. Qed.

Section RequestsOfTheService.

Context {platform : Platform}.

Lemma translateWithLibreTranslate_requests (text : jsstring) (l : lang) :
  at_most 1 0 0 (translateWithLibreTranslate text l)
  /\ requests (fun req => req = libre_request text l)
              (fun _ => False) (fun _ => False)
              (translateWithLibreTranslate text l).
Proof.
  unfold translateWithLibreTranslate, fetch_proxy. cbn [bind try_catch].
  split.
  - constructor. intros [response|e]; cbn [lift bind try_catch];
      [|constructor].
    destruct (negb (ok response)); cbn [try_catch]; [constructor|].
    apply at_most_try_catch with 0%nat 0%nat 0%nat 0%nat 0%nat 0%nat;
      try lia; [|intro; constructor].
    apply at_most_bind with 0%nat 0%nat 0%nat 0%nat 0%nat 0%nat; try lia;
      intros; apply at_most_lift.
  - constructor; [reflexivity|].
    intros [response|e]; cbn [lift bind try_catch]; [|constructor].
    destruct (negb (ok response)); cbn [try_catch]; [constructor|].
    apply requests_try_catch; [|intro; constructor].
    apply requests_bind; intros; apply requests_lift.
Qed.

Lemma translateToTurkish_at_most (text : jsstring) :
  at_most 1 1 0 (translateToTurkish text).
Proof.
  unfold translateToTurkish.
  destruct (translateWithLibreTranslate_requests (stripHtml text) tr)
    as [Hn Hr].
  apply at_most_try_catch with 1%nat 1%nat 0%nat 0%nat 0%nat 0%nat;
    try lia; [|intro; constructor].
  destruct (negb (truthy_str text) || _); [constructor|]. cbv zeta.
  destruct (negb (truthy_str (stripHtml text)) || _); [constructor|].
  apply at_most_bind with 1%nat 0%nat 0%nat 0%nat 1%nat 0%nat; try lia.
  + unfold attempt.
    apply at_most_try_catch with 1%nat 0%nat 0%nat 0%nat 0%nat 0%nat;
      try lia; [|intro; constructor].
    apply at_most_bind with 1%nat 0%nat 0%nat 0%nat 0%nat 0%nat;
      try lia; [exact Hn|].
    intro t; destruct (libre_accepted (stripHtml text) t); constructor.
  + intros [t|]; [constructor|].
    apply at_most_bind with 0%nat 1%nat 0%nat 0%nat 0%nat 0%nat; try lia.
    * unfold attempt, openaiChatCompletion. cbn [bind try_catch].
      constructor. intros [response|e]; cbn [lift bind try_catch];
        [|constructor].
      destruct (openai_accepted (first_content response)); constructor.
    * intros [t|]; constructor.
Qed.

Lemma translateToTurkish_sends (text : jsstring) :
  requests (fun req => req = libre_request (stripHtml text) tr)
           (fun req => req = translator_request (stripHtml text))
           (fun _ => False)
           (translateToTurkish text).
Proof.
  unfold translateToTurkish.
  destruct (translateWithLibreTranslate_requests (stripHtml text) tr)
    as [Hn Hr].
  apply requests_try_catch; [|intro; constructor].
  destruct (negb (truthy_str text) || _); [constructor|]. cbv zeta.
  destruct (negb (truthy_str (stripHtml text)) || _); [constructor|].
  apply requests_bind.
  + unfold attempt. apply requests_try_catch; [|intro; constructor].
    apply requests_bind.
    * eapply requests_weaken; [| | |exact Hr]; auto; intros ? [].
    * intro t; destruct (libre_accepted (stripHtml text) t); constructor.
  + intros [t|]; [constructor|].
    apply requests_bind.
    * unfold attempt, openaiChatCompletion. cbn [bind try_catch].
      constructor; [reflexivity|].
      intros [response|e]; cbn [lift bind try_catch]; [|constructor].
      destruct (openai_accepted (first_content response)); constructor.
    * intros [t|]; constructor.
Qed.

(** X5. [translateToTurkish] issues at most one proxy request and at most
    one chat request and never waits; what it sends to either provider is
    the normalized text, never the raw input. *)
Theorem translateToTurkish_requests (text : jsstring) :
  at_most 1 1 0 (translateToTurkish text)
  /\ requests (fun req => req = libre_request (stripHtml text) tr)
              (fun req => req = translator_request (stripHtml text))
              (fun _ => False)
              (translateToTurkish text).
Proof.
  split; [apply translateToTurkish_at_most|apply translateToTurkish_sends].
Qed.

End RequestsOfTheService.

(** *** Retrying an action *)

Section RetryBounds.

Context {T : Type}.
Variable fn : async T.
Variables maxRetries initialDelay : Z.

Lemma settle_at_most f c t : at_most f c t fn -> at_most f c t (settle fn).
Proof.
  intro Hfn. unfold settle.
  apply at_most_try_catch with f c t 0%nat 0%nat 0%nat; try lia;
    [|intro; constructor].
  apply at_most_bind with f c t 0%nat 0%nat 0%nat; try lia;
    [exact Hfn|intro; constructor].
Qed.

Lemma settle_requests F C M : requests F C M fn -> requests F C M (settle fn).
Proof.
  intro Hfn. unfold settle.
  apply requests_try_catch; [|intro; constructor].
  apply requests_bind; [exact Hfn|intro; constructor].
Qed.

(** [n] turns of the loop run the action at most [n] times and wait at
    most [n - 1] times. *)
Lemma retry_loop_at_most f c t :
  at_most f c t fn ->
  forall (n : nat) (i : Z) (lastError : option exn),
    (i + Z.of_nat n = maxRetries)%Z ->
    at_most (n * f) (n * c) (n * t + pred n)
            (retry_loop fn maxRetries initialDelay n i lastError).
Proof.
  intros Hfn n; induction n as [|n IH]; intros i lastError Hi.
  - cbn [retry_loop]. destruct lastError; constructor.
  - cbn [retry_loop].
    apply at_most_bind
      with f c t (n * f)%nat (n * c)%nat (n * t + n)%nat;
      [apply settle_at_most, Hfn| |cbn; lia..].
    intros [v|e]; [constructor|].
    destruct n as [|n].
    + replace (i <? maxRetries - 1)%Z with false
        by (symmetry; apply Z.ltb_ge; lia).
      cbn [bind retry_loop]. constructor.
    + apply at_most_bind
        with 0%nat 0%nat 1%nat (S n * f)%nat (S n * c)%nat
             (S n * t + pred (S n))%nat; try (cbn; lia).
      * destruct (i <? maxRetries - 1)%Z; [|constructor].
        unfold sleep. constructor. intro; constructor.
      * intro u. apply IH. lia.
Qed.

(** The waits of the loop are [initialDelay * 2 ^ j] for the indices [j]
    of attempts that are not the last. *)
Lemma retry_loop_requests F C (M : Z -> Prop) :
  requests F C M fn ->
  (forall j, (0 <= j < maxRetries - 1)%Z -> M (initialDelay * 2 ^ j)%Z) ->
  forall (n : nat) (i : Z) (lastError : option exn),
    (0 <= i)%Z ->
    requests F C M (retry_loop fn maxRetries initialDelay n i lastError).
Proof.
  intros Hfn HM n; induction n as [|n IH]; intros i lastError Hi.
  - cbn [retry_loop]. destruct lastError; constructor.
  - cbn [retry_loop]. apply requests_bind; [apply settle_requests, Hfn|].
    intros [v|e]; [constructor|].
    apply requests_bind; [|intro; apply IH; lia].
    destruct (i <? maxRetries - 1)%Z eqn:E; [|constructor].
    apply Z.ltb_lt in E. unfold sleep. constructor; [|intro; constructor].
    apply HM. lia.
Qed.

Lemma retryWithBackoff_at_most f c t :
  at_most f c t fn ->
  at_most (Z.to_nat maxRetries * f) (Z.to_nat maxRetries * c)
          (Z.to_nat maxRetries * t + pred (Z.to_nat maxRetries))
          (retryWithBackoff fn maxRetries initialDelay).
Proof.
  intro Hfn. unfold retryWithBackoff.
  destruct (Z.to_nat maxRetries) as [|n] eqn:E.
  - cbn [retry_loop throw_last]. constructor.
  - rewrite <- E. apply retry_loop_at_most; [exact Hfn|lia].
Qed.

Lemma retryWithBackoff_requests F C (M : Z -> Prop) :
  requests F C M fn ->
  (forall j, (0 <= j < maxRetries - 1)%Z -> M (initialDelay * 2 ^ j)%Z) ->
  requests F C M (retryWithBackoff fn maxRetries initialDelay).
Proof.
  intros Hfn HM. unfold retryWithBackoff.
  apply retry_loop_requests; [assumption..|lia].
Qed.

(** An action that never rejects is settled by its first attempt: the loop
    behaves as the action alone. *)
Lemma unfailing_attempt_at_most (P : T -> Prop)
  (G : outcome T -> async T) f c t :
  (forall v, G (Ok v) = Resolve v) ->
  always P fn -> at_most f c t fn -> at_most f c t (bind (settle fn) G).
Proof.
  intros HG Hal. revert f c t. unfold settle.
  induction Hal as [a Ha|req k _ IH|req k _ IH|ms k _ IH];
    intros f c t Hn; cbn [bind try_catch].
  - rewrite HG. constructor.
  - inversion Hn; subst. constructor. intro r. apply IH. auto.
  - inversion Hn; subst. constructor. intro r. apply IH. auto.
  - inversion Hn; subst. constructor. intro u. apply IH. auto.
Qed.

Lemma unfailing_attempt_requests (P : T -> Prop)
  (G : outcome T -> async T) F C M :
  (forall v, G (Ok v) = Resolve v) ->
  always P fn -> requests F C M fn -> requests F C M (bind (settle fn) G).
Proof.
  intros HG Hal. unfold settle.
  induction Hal as [a Ha|req k _ IH|req k _ IH|ms k _ IH];
    intro Hn; cbn [bind try_catch].
  - rewrite HG. constructor.
  - inversion Hn; subst. constructor; auto.
  - inversion Hn; subst. constructor; auto.
  - inversion Hn; subst. constructor; auto.
Qed.

Context {W : Type} `{Collaborators W}.

(** X6. An action that never rejects is run exactly once by
    [retryWithBackoff], without any wait: whatever [maxRetries >= 1] and
    [initialDelay], the retried action ends as the action itself, in the
    same world. *)
Theorem retry_of_unfailing_action (P : T -> Prop) (w : W) :
  always P fn -> (1 <= maxRetries)%Z ->
  run (retryWithBackoff fn maxRetries initialDelay) w = run fn w.
Proof.
  intros Hal Hmax. unfold retryWithBackoff.
  destruct (Z.to_nat maxRetries) as [|n] eqn:E; [lia|].
  cbn [retry_loop]. rewrite run_bind, run_settle.
  destruct (always_run Hal w) as (a & w' & Hrun & _). rewrite Hrun.
  reflexivity.
Qed.

End RetryBounds.

(** X6, witness: the retry of [translateToTurkish] in the fallback tier of
    [summarizeAndTranslate]. *)
Lemma retry_of_unfailing_action_witness :
  @run script scripted _
     (retryWithBackoff (@translateToTurkish plain_platform headline_a) 2 500)
     silent
  = @run script scripted _ (@translateToTurkish plain_platform headline_a)
      silent.
Proof.
  apply (@retry_of_unfailing_action jsstring
           (@translateToTurkish plain_platform headline_a) 2 500
           script scripted (fun _ => True) silent).
  - apply translateToTurkish_never_rejects.
  - lia.
Defined.

(** *** The budget of the summarization orchestrators *)

Lemma summary_content_length (title : jsstring) (text : option jsstring) :
  (length (summary_content title text) <= 2003)%nat.
Proof.
  unfold summary_content, substring0.
  set (full := match text with
               | Some t => if truthy_str t then title ++ [newline; newline] ++ t
                           else title
               | None => title
               end).
  destruct (2000 <? length full)%nat eqn:E.
  - rewrite length_app, length_firstn. cbn [length js]. vm_compute (length _).
    lia.
  - apply Nat.ltb_ge in E. lia.
Qed.

Section SummarizationBudget.

Context {platform : Platform}.

Lemma ask_summary_requests (system : instruction) (content : jsstring) :
  at_most 0 1 0 (ask_summary system content)
  /\ requests (fun _ => False) (fun req => req = summary_request system content)
              (fun _ => False) (ask_summary system content).
Proof.
  unfold ask_summary, openaiChatCompletion. cbn [bind]. split.
  - constructor. intros [response|e]; cbn [lift bind]; constructor.
  - constructor; [reflexivity|].
    intros [response|e]; cbn [lift bind]; constructor.
Qed.

Lemma on_parse_error_at_most (result : jsstring) (e : exn) :
  at_most 0 0 0 (on_parse_error result e).
Proof.
  unfold on_parse_error. destruct (truthy_str result && _); constructor.
Qed.

Lemma on_parse_error_requests (result : jsstring) (e : exn) F C M :
  requests F C M (on_parse_error result e).
Proof.
  unfold on_parse_error. destruct (truthy_str result && _); constructor.
Qed.

Lemma backoff_waits (j : Z) :
  (0 <= j < 3 - 1)%Z -> (1000 * 2 ^ j = 1000 \/ 1000 * 2 ^ j = 2000)%Z.
Proof.
  intro Hj. assert (E : j = 0%Z \/ j = 1%Z) by lia.
  destruct E as [-> | ->]; [left|right]; reflexivity.
Qed.

(** X7. [summarizeInEnglish] issues no proxy request, at most three chat
    requests and at most two waits; every chat request carries the same
    content, at most 2003 code units long, and the waits are of 1000 or
    2000 milliseconds. *)
Theorem summarizeInEnglish_budget (title : jsstring) (text : option jsstring) :
  at_most 0 3 2 (summarizeInEnglish title text)
  /\ requests (fun _ => False)
       (fun req =>
          req = summary_request EnglishSummaryInstruction
                                (summary_content title text)
          /\ (length (user req) <= 2003)%nat)
       (fun ms => ms = 1000%Z \/ ms = 2000%Z)
       (summarizeInEnglish title text).
Proof.
  unfold summarizeInEnglish. cbv zeta.
  destruct (ask_summary_requests EnglishSummaryInstruction
              (summary_content title text)) as [Hn Hr].
  split.
  - apply at_most_try_catch with 0%nat 3%nat 2%nat 0%nat 0%nat 0%nat;
      try lia; [|intro; constructor].
    destruct (negb _ || _); [constructor|].
    apply at_most_bind with 0%nat 3%nat 2%nat 0%nat 0%nat 0%nat; try lia.
    + apply (retryWithBackoff_at_most 3 1000 Hn).
    + intro result.
      apply at_most_try_catch with 0%nat 0%nat 0%nat 0%nat 0%nat 0%nat;
        try lia; [apply at_most_lift|].
      intro e; apply on_parse_error_at_most.
  - apply requests_try_catch; [|intro; constructor].
    destruct (negb _ || _); [constructor|].
    apply requests_bind.
    + apply retryWithBackoff_requests; [|apply backoff_waits].
      eapply requests_weaken; [| | |exact Hr]; [auto| |intros ? []].
      intros req ->. split; [reflexivity|]. apply summary_content_length.
    + intro result. apply requests_try_catch; [apply requests_lift|].
      intro e; apply on_parse_error_requests.
Qed.

(** X8. [summarizeAndTranslate] issues at most four chat requests, at most
    one proxy request and at most two waits. The chat requests are the
    summary request, with a content of at most 2003 code units, and the
    translation request for the normalized title; the waits are of 1000 or
    2000 milliseconds: the wait of 500 milliseconds of the fallback tier
    never happens. *)
Theorem summarizeAndTranslate_budget (title : jsstring) (text : option jsstring) :
  at_most 1 4 2 (summarizeAndTranslate title text)
  /\ requests (fun req => req = libre_request (stripHtml title) tr)
       (fun req =>
          (req = summary_request TurkishSummaryInstruction
                                 (summary_content title text)
           /\ (length (user req) <= 2003)%nat)
          \/ req = translator_request (stripHtml title))
       (fun ms => ms = 1000%Z \/ ms = 2000%Z)
       (summarizeAndTranslate title text).
Proof.
  unfold summarizeAndTranslate. cbv zeta.
  destruct (ask_summary_requests TurkishSummaryInstruction
              (summary_content title text)) as [Hn Hr].
  pose proof (translateToTurkish_at_most title) as Tn.
  pose proof (translateToTurkish_sends title) as Tr.
  pose proof (translateToTurkish_never_rejects title) as Tal.
  split.
  - apply at_most_try_catch with 0%nat 3%nat 2%nat 1%nat 1%nat 0%nat;
      try lia.
    + destruct (negb _ || _); [constructor|].
      apply at_most_bind with 0%nat 3%nat 2%nat 0%nat 0%nat 0%nat; try lia.
      * apply (retryWithBackoff_at_most 3 1000 Hn).
      * intro result.
        apply at_most_try_catch with 0%nat 0%nat 0%nat 0%nat 0%nat 0%nat;
          try lia; [apply at_most_lift|].
        intro e; apply on_parse_error_at_most.
    + intro e.
      apply at_most_try_catch with 1%nat 1%nat 0%nat 0%nat 0%nat 0%nat;
        try lia; [|intro; constructor].
      unfold retryWithBackoff. change (Z.to_nat 2) with 2%nat.
      cbn [retry_loop].
      apply at_most_bind with 1%nat 1%nat 0%nat 0%nat 0%nat 0%nat; try lia.
      * apply unfailing_attempt_at_most with (P := fun _ => True);
          [reflexivity|exact Tal|exact Tn].
      * intro t; destruct (title_accepted title t); constructor.
  - apply requests_try_catch.
    + destruct (negb _ || _); [constructor|].
      apply requests_bind.
      * apply retryWithBackoff_requests; [|apply backoff_waits].
        eapply requests_weaken; [| | |exact Hr];
          [intros ? []| |intros ? []].
        intros req ->. left. split; [reflexivity|].
        apply summary_content_length.
      * intro result. apply requests_try_catch; [apply requests_lift|].
        intro e; apply on_parse_error_requests.
    + intro e. apply requests_try_catch; [|intro; constructor].
      unfold retryWithBackoff. change (Z.to_nat 2) with 2%nat.
      cbn [retry_loop]. apply requests_bind.
      * apply unfailing_attempt_requests with (P := fun _ => True);
          [reflexivity|exact Tal|].
        eapply requests_weaken; [| | |exact Tr]; auto; intros ? [].
      * intro t; destruct (title_accepted title t); constructor.
Qed.

End SummarizationBudget.

(** *** Blank content *)

Section BlankContent.

Context {platform : Platform}.

(** X9. For a blank title with a body that is absent or blank, the whole no
    longer than 2000 code units, both summarization functions return the
    title with the sentiment ['neutral'] at once: no provider is called. *)
Theorem blank_content_short_circuit (title : jsstring) (text : option jsstring) :
  forallb is_space title = true ->
  forallb is_space (body_text_of text) = true ->
  (length title + length (body_text_of text) + 2 <= 2000)%nat ->
  summarizeAndTranslate title text = Resolve (untranslated title)
  /\ summarizeInEnglish title text = Resolve (untranslated title).
Proof.
  intros Ht Hb Hl.
  assert (G : negb (truthy_str (summary_content title text))
              || (length (trim (summary_content title text)) =? 0)%nat = true).
  { apply orb_true_iff; right. apply Nat.eqb_eq.
    replace (trim (summary_content title text)) with (@nil N); [reflexivity|].
    symmetry. apply trim_all_space. unfold summary_content.
    destruct text as [t|]; cbn [body_text_of] in *.
    - destruct (truthy_str t).
      + replace (2000 <? length (title ++ [newline; newline] ++ t))%nat
          with false
          by (symmetry; apply Nat.ltb_ge; rewrite !length_app;
              cbn [length]; lia).
        rewrite !forallb_app, Ht, Hb. reflexivity.
      + replace (2000 <? length title)%nat with false
          by (symmetry; apply Nat.ltb_ge; lia).
        exact Ht.
    - replace (2000 <? length title)%nat with false
        by (symmetry; apply Nat.ltb_ge; lia).
      exact Ht. }
  unfold summarizeAndTranslate, summarizeInEnglish. cbv zeta. rewrite G.
  split; reflexivity.
Qed.

End BlankContent.

(** X9, witness: a title of two spaces with a body of one. *)
Lemma blank_content_short_circuit_witness :
  @summarizeAndTranslate plain_platform (js "  ") (Some (js " "))
  = Resolve (untranslated (js "  "))
  /\ @summarizeInEnglish plain_platform (js "  ") (Some (js " "))
     = Resolve (untranslated (js "  ")).
Proof.
  apply (@blank_content_short_circuit plain_platform (js "  ")
           (Some (js " "))); [reflexivity|reflexivity|cbn; lia].
Defined.

(** *** Answers that cannot be used, and outages *)

Section UnusableAnswers.

Context {platform : Platform} {W : Type} `{Collaborators W}.

(** The inner [try] block of [summarizeAndTranslate] throws exactly on the
    unusable answers. *)
Lemma turkish_summary_throws (title result : jsstring) :
  unusable_answer result <-> exists e, turkish_summary title result = Raise e.
Proof.
  unfold unusable_answer, turkish_summary, parse_result. split.
  - intros [P|[P|(members & v & P & L & T & Hns)]]; rewrite P;
      cbn [obind get_member]; [eauto|eauto|].
    rewrite L, T. destruct v as [ |b|m e|s|l|ms]; cbn [obind]; eauto.
    now contradiction (Hns s).
  - destruct (JSON_parse (strip_code_fence result)) as [parsed|];
      [|auto].
    destruct parsed as [ |b|m e|s|l|members]; [auto| | | | |];
      cbn [obind get_member].
    1-4: cbn [truthy obind]; intros [e' [=]].
    destruct (lookup (js "summary") members) as [v|] eqn:L;
      [|cbn [truthy obind]; intros [e' [=]]].
    destruct (truthy (Some v)) eqn:T; [|cbn [obind]; intros [e' [=]]].
    destruct v as [ |b|m e|s|l|ms]; cbn [obind];
      try solve [intros _; right; right; exists members; eexists;
                 split; [reflexivity|]; split; [exact L|];
                 split; [exact T|]; intros s0 Hs; discriminate Hs].
    intros [e' [=]].
Qed.

(** X10. When the model endpoint answers the first summary request with an
    answer on which the inner [try] block of [summarizeAndTranslate] throws
    (it is not JSON, it is [null], or its [summary] member is a truthy
    value that is not a string) and the answer is longer than ten code
    units, the raw answer is returned as the summary, with the sentiment
    ['neutral']; no translation is attempted. On every other first answer
    the inner [try] block completes and its result is returned: an answer
    that parses to a number, a string, a boolean or an array is not an
    error. *)
Theorem summarizeAndTranslate_raw_answer (title : jsstring)
  (text : option jsstring) (w w' : W) (response : chat_response) :
  negb (truthy_str (summary_content title text))
    || (length (trim (summary_content title text)) =? 0)%nat = false ->
  on_chat (summary_request TurkishSummaryInstruction
                           (summary_content title text)) w
    = (Ok response, w') ->
  (unusable_answer (first_content response) ->
   (10 < length (first_content response))%nat ->
   run (summarizeAndTranslate title text) w
   = (Ok {| summary := JString (first_content response);
            sentiment := neutral |}, w'))
  /\ (~ unusable_answer (first_content response) ->
      exists r,
        turkish_summary title (first_content response) = Ok r
        /\ run (summarizeAndTranslate title text) w = (Ok r, w')).
Proof.
  intros G Hchat. split.
  - intros Hun Hlong. apply (turkish_summary_throws title) in Hun as [e E].
    unfold summarizeAndTranslate. cbv zeta.
    rewrite G, run_try_catch, run_bind.
    rewrite retry_first_success
      with (v := first_content response) (w' := w');
      [|lia|apply run_ask_summary, Hchat].
    rewrite run_try_catch, E. cbn [lift run]. unfold on_parse_error.
    apply Nat.ltb_lt in Hlong. rewrite Hlong.
    destruct (first_content response); [discriminate Hlong|reflexivity].
  - intro Hok.
    destruct (turkish_summary title (first_content response)) as [r|e] eqn:E.
    + exists r. split; [reflexivity|].
      apply summarizeAndTranslate_answered with (response := response);
        assumption.
    + exfalso. apply Hok. apply (turkish_summary_throws title). eauto.
Qed.

(** X11. When the first answer of the model endpoint is not JSON source
    text (after the removal of code fences) and is longer than ten code
    units, [summarizeInEnglish] returns the raw answer as the summary, with
    the sentiment ['neutral']. *)
Theorem summarizeInEnglish_raw_answer (title : jsstring)
  (text : option jsstring) (w w' : W) (response : chat_response) :
  negb (truthy_str (summary_content title text))
    || (length (trim (summary_content title text)) =? 0)%nat = false ->
  on_chat (summary_request EnglishSummaryInstruction
                           (summary_content title text)) w
    = (Ok response, w') ->
  JSON_parse (strip_code_fence (first_content response)) = None ->
  (10 < length (first_content response))%nat ->
  run (summarizeInEnglish title text) w
  = (Ok {| summary := JString (first_content response);
           sentiment := neutral |}, w').
Proof.
  intros G Hchat Hparsed Hlong. unfold summarizeInEnglish. cbv zeta.
  rewrite G, run_try_catch, run_bind.
  rewrite retry_first_success with (v := first_content response) (w' := w');
    [|lia|apply run_ask_summary, Hchat].
  rewrite run_try_catch. unfold english_summary, parse_result.
  rewrite Hparsed. cbn [obind lift run]. unfold on_parse_error.
  apply Nat.ltb_lt in Hlong. rewrite Hlong.
  destruct (first_content response); [discriminate Hlong|reflexivity].
Qed.

End UnusableAnswers.

(** X10, witness: the answer [{"summary": 5, "sentiment": "positive"}]; the
    number has no [replace] method. *)
Lemma summarizeAndTranslate_raw_answer_witness :
  @run script scripted _
     (@summarizeAndTranslate plain_platform (js "ETH surges") None)
     (answering (answer numeric_summary_answer))
  = (Ok {| summary := JString numeric_summary_answer; sentiment := neutral |},
     silent).
Proof.
  apply (proj1 (@summarizeAndTranslate_raw_answer plain_platform script
                  scripted (js "ETH surges") None
                  (answering (answer numeric_summary_answer)) silent
                  (answer numeric_summary_answer) eq_refl eq_refl)).
  - right. right. eexists. eexists.
    split; [vm_compute; reflexivity|].
    split; [vm_compute; reflexivity|]. split; [reflexivity|discriminate].
  - cbn; lia.
Defined.

(** X11, witness: an answer in prose. *)
Lemma summarizeInEnglish_raw_answer_witness :
  @run script scripted _
     (@summarizeInEnglish plain_platform (js "ETH surges") None)
     (answering (answer (js "Ether rose sharply today.")))
  = (Ok {| summary := JString (js "Ether rose sharply today.");
           sentiment := neutral |},
     silent).
Proof.
  apply (@summarizeInEnglish_raw_answer plain_platform script scripted
           (js "ETH surges") None
           (answering (answer (js "Ether rose sharply today.")))
           silent (answer (js "Ether rose sharply today.")));
    [reflexivity|reflexivity|reflexivity|cbn; lia].
Defined.

Section Outage.

Context {platform : Platform} {W : Type} `{Collaborators W}.

Lemma run_ask_summary_rejected (system : instruction) (content : jsstring)
  (w w' : W) (e : exn) :
  on_chat (summary_request system content) w = (Raise e, w') ->
  run (ask_summary system content) w = (Raise e, w').
Proof.
  intro E. unfold ask_summary. rewrite run_bind.
  cbn [run openaiChatCompletion]. rewrite E. reflexivity.
Qed.

(** Three rejected attempts: the retry ends with the third error after the
    waits of 1000 and 2000 ms. *)
Lemma summary_attempts_exhausted (system : instruction) (content : jsstring)
  (w : W) :
  chat_always_rejects ->
  exists e,
    run (retryWithBackoff (ask_summary system content) 3 1000) w
    = (Raise e, after_three_attempts (summary_request system content) w).
Proof.
  intro Hrej. unfold retryWithBackoff, after_three_attempts.
  change (Z.to_nat 3) with 3%nat. cbn [retry_loop].
  destruct (Hrej (summary_request system content) w) as (e1 & w1 & E1).
  rewrite run_bind, run_settle, (run_ask_summary_rejected _ _ _ E1), E1.
  cbn [fst snd]. change (0 <? 3 - 1)%Z with true. cbv iota.
  rewrite run_sleep_then. change (1000 * 2 ^ 0)%Z with 1000%Z.
  destruct (Hrej (summary_request system content) (on_timeout 1000 w1))
    as (e2 & w2 & E2).
  rewrite run_bind, run_settle, (run_ask_summary_rejected _ _ _ E2), E2.
  cbn [fst snd]. change (0 + 1 <? 3 - 1)%Z with true. cbv iota.
  rewrite run_sleep_then. change (1000 * 2 ^ (0 + 1))%Z with 2000%Z.
  destruct (Hrej (summary_request system content) (on_timeout 2000 w2))
    as (e3 & w3 & E3).
  rewrite run_bind, run_settle, (run_ask_summary_rejected _ _ _ E3), E3.
  cbn [fst snd]. change (0 + 1 + 1 <? 3 - 1)%Z with false. cbv iota.
  exists e3. reflexivity.
Qed.

Lemma content_not_blank (title : jsstring) (text : option jsstring) :
  forallb is_space title = false ->
  negb (truthy_str (summary_content title text))
    || (length (trim (summary_content title text)) =? 0)%nat = false.
Proof.
  intro Ht.
  assert (Hc : forallb is_space (summary_content title text) = false).
  { unfold summary_content, substring0.
    set (full := match text with
                 | Some t => if truthy_str t
                             then title ++ [newline; newline] ++ t else title
                 | None => title
                 end).
    assert (Hf : forallb is_space full = false).
    { unfold full. destruct text as [t|]; [|exact Ht].
      destruct (truthy_str t); [|exact Ht].
      rewrite forallb_app, Ht. reflexivity. }
    destruct (2000 <? length full)%nat; [|exact Hf].
    rewrite forallb_app. apply andb_false_iff; right. reflexivity. }
  apply orb_false_iff; split.
  - destruct (summary_content title text); [discriminate Hc|reflexivity].
  - apply Nat.eqb_neq. intro E. apply length_zero_iff_nil in E.
    apply trim_nil_iff in E. congruence.
Qed.

(** X12. When the model endpoint rejects every request,
    [summarizeInEnglish] returns the title with the sentiment ['neutral'],
    for every title and body. For a title that is not blank this is the
    result after three attempts with the same request and waits of 1000 and
    2000 ms. *)
Theorem summarizeInEnglish_outage (title : jsstring) (text : option jsstring)
  (w : W) :
  chat_always_rejects ->
  fst (run (summarizeInEnglish title text) w) = Ok (untranslated title)
  /\ (forallb is_space title = false ->
      snd (run (summarizeInEnglish title text) w)
      = after_three_attempts
          (summary_request EnglishSummaryInstruction
                           (summary_content title text)) w).
Proof.
  intro Hrej. unfold summarizeInEnglish. cbv zeta.
  destruct (negb (truthy_str (summary_content title text)) || _) eqn:G.
  - split; [reflexivity|]. intro Ht.
    rewrite (content_not_blank title text Ht) in G. discriminate G.
  - rewrite run_try_catch, run_bind.
    destruct (summary_attempts_exhausted EnglishSummaryInstruction
                (summary_content title text) w Hrej) as [e E].
    rewrite E. split; [reflexivity|]. intros _. reflexivity.
Qed.

(** The tiers of [translateToTurkish] when both providers reject. *)
Lemma translateToTurkish_providers_down (text : jsstring) (w : W) :
  negb (truthy_str text) || (length (trim text) =? 0)%nat = false ->
  negb (truthy_str (stripHtml text))
    || (length (trim (stripHtml text)) =? 0)%nat = false ->
  fetch_always_rejects -> chat_always_rejects ->
  run (translateToTurkish text) w
  = (Ok (stripHtml text),
     snd (on_chat (translator_request (stripHtml text))
            (snd (on_fetch (libre_request (stripHtml text) tr) w)))).
Proof.
  intros G1 G2 Hfetch Hchat.
  unfold translateToTurkish. rewrite G1. cbv zeta. rewrite G2.
  rewrite run_try_catch, run_bind. unfold attempt at 1.
  rewrite run_try_catch, run_bind, run_translateWithLibreTranslate.
  destruct (Hfetch (libre_request (stripHtml text) tr) w) as (e1 & w1 & E1).
  rewrite E1. cbn [fst snd run]. rewrite run_bind. unfold attempt.
  rewrite run_try_catch, run_bind. cbn [run openaiChatCompletion].
  destruct (Hchat (translator_request (stripHtml text)) w1) as (e2 & w2 & E2).
  rewrite E2. reflexivity.
Qed.

(** X13. Total outage: when the proxy and the model endpoint reject every
    request, [summarizeAndTranslate] of a title that is not blank and whose
    structured normalization is not empty returns the normalized title with
    the sentiment ['neutral'], after three attempts at the summary, one
    request to the fast provider and one to the model endpoint for the
    title. *)
Theorem summarizeAndTranslate_outage (title : jsstring)
  (text : option jsstring) (dom : dom_text) (w : W) :
  forallb is_space title = false ->
  cheerio_load title = Some dom ->
  stripHtml title <> [] ->
  fetch_always_rejects -> chat_always_rejects ->
  run (summarizeAndTranslate title text) w
  = (Ok {| summary := JString (stripHtml title); sentiment := neutral |},
     snd (on_chat (translator_request (stripHtml title))
            (snd (on_fetch (libre_request (stripHtml title) tr)
                    (after_three_attempts
                       (summary_request TurkishSummaryInstruction
                                        (summary_content title text)) w))))).
Proof.
  intros Ht Hload Hne Hfetch Hchat.
  assert (Hshape : trim (stripHtml title) = stripHtml title
                   /\ (length (stripHtml title) <? 10)%nat = false).
  { revert Hne. unfold stripHtml. rewrite Hload.
    destruct (clean_text_cases (or_else (body_text dom) (root_text dom)))
      as [E|(_ & _ & Htrim & Hlen)]; [congruence|auto]. }
  destruct Hshape as [Htrim Hlen]. apply Nat.ltb_ge in Hlen.
  assert (G1 : negb (truthy_str title) || (length (trim title) =? 0)%nat
               = false).
  { apply orb_false_iff; split.
    - destruct title; [discriminate Ht|reflexivity].
    - apply Nat.eqb_neq. intro E. apply length_zero_iff_nil in E.
      apply trim_nil_iff in E. congruence. }
  assert (G2 : negb (truthy_str (stripHtml title))
               || (length (trim (stripHtml title)) =? 0)%nat = false).
  { rewrite Htrim. apply orb_false_iff; split.
    - destruct (stripHtml title); [congruence|reflexivity].
    - apply Nat.eqb_neq. lia. }
  assert (Hacc : title_accepted title (stripHtml title) = true).
  { unfold title_accepted.
    replace (8 <? length (stripHtml title))%nat with true
      by (symmetry; apply Nat.ltb_lt; lia).
    rewrite orb_true_r. cbn [orb andb].
    destruct (stripHtml title); [congruence|reflexivity]. }
  unfold summarizeAndTranslate. cbv zeta.
  rewrite (content_not_blank title text Ht), run_try_catch, run_bind.
  destruct (summary_attempts_exhausted TurkishSummaryInstruction
              (summary_content title text) w Hchat) as [e E].
  rewrite E, run_try_catch, run_bind.
  unfold retryWithBackoff. change (Z.to_nat 2) with 2%nat.
  cbn [retry_loop]. rewrite run_bind, run_settle.
  rewrite (translateToTurkish_providers_down title _ G1 G2 Hfetch Hchat).
  cbn [fst snd run]. rewrite Hacc. reflexivity.
Qed.

End Outage.

(** X12, witness: the collaborators that reject every request. *)
Lemma summarizeInEnglish_outage_witness :
  fst (@run (list Z) outage _
         (@summarizeInEnglish plain_platform headline_a None) [])
  = Ok (untranslated headline_a)
  /\ (forallb is_space headline_a = false ->
      snd (@run (list Z) outage _
             (@summarizeInEnglish plain_platform headline_a None) [])
      = [2000; 1000]%Z).
Proof.
  apply (@summarizeInEnglish_outage plain_platform (list Z) outage
           headline_a None []).
  intros req w. exists (External 0), w. reflexivity.
Defined.

(** X13, witness. *)
Lemma summarizeAndTranslate_outage_witness :
  @run (list Z) outage _
     (@summarizeAndTranslate plain_platform headline_a None) []
  = (Ok {| summary := JString (js "Bitcoin hits a new record");
           sentiment := neutral |},
     [2000; 1000]%Z).
Proof.
  apply (@summarizeAndTranslate_outage plain_platform (list Z) outage
           headline_a None
           {| body_text := headline_a; root_text := headline_a |} []).
  - reflexivity.
  - reflexivity.
  - discriminate.
  - intros req w. exists (External 0), w. reflexivity.
  - intros req w. exists (External 0), w. reflexivity.
Defined.

(* ===================================================================== *)
(** ** The metadata store *)
(* ===================================================================== *)

Lemma jsstring_eqb_neq (a b : jsstring) : jsstring_eqb a b = false <-> a <> b.
Proof.
  split.
  - intros E Hab. apply jsstring_eqb_eq in Hab. congruence.
  - intro Hab. destruct (jsstring_eqb a b) eqn:E; [|reflexivity].
    apply jsstring_eqb_eq in E. contradiction.
Qed.

Lemma jsstring_eqb_refl (a : jsstring) : jsstring_eqb a a = true.
Proof. now apply jsstring_eqb_eq. Qed.

Section StorageLaws.

Import MetadataStorage.

Lemma map_get_set (key : jsstring) (v : NFTMetadata) (m : metadataStore)
  (id : jsstring) :
  map_get id (map_set key v m)
  = if jsstring_eqb key id then Some v else map_get id m.
Proof.
  induction m as [|[k x] rest IH]; cbn [map_set map_get]; [reflexivity|].
  destruct (jsstring_eqb k key) eqn:Ek; cbn [map_get].
  - apply jsstring_eqb_eq in Ek; subst k.
    destruct (jsstring_eqb key id); reflexivity.
  - rewrite IH. destruct (jsstring_eqb k id) eqn:Ei; [|reflexivity].
    apply jsstring_eqb_eq in Ei; subst k.
    destruct (jsstring_eqb key id) eqn:E2; [|reflexivity].
    apply jsstring_eqb_eq in E2; subst key.
    rewrite jsstring_eqb_refl in Ek. discriminate Ek.
Qed.

Lemma map_has_get (id : jsstring) (m : metadataStore) :
  map_has id m = match map_get id m with Some _ => true | None => false end.
Proof.
  induction m as [|[k x] rest IH]; cbn [map_has map_get]; [reflexivity|].
  destruct (jsstring_eqb k id); [reflexivity|exact IH].
Qed.

(** X14. Insert and lookup: after [saveMetadata(m)], [getMetadata] and
    [hasMetadata] find [m] under its token id, and answer for every other
    token id as before. *)
Theorem saveMetadata_getMetadata (m : NFTMetadata) (store : metadataStore) :
  getMetadata (tokenId m) (saveMetadata m store) = Some m
  /\ hasMetadata (tokenId m) (saveMetadata m store) = true
  /\ forall id, id <> tokenId m ->
       getMetadata id (saveMetadata m store) = getMetadata id store
       /\ hasMetadata id (saveMetadata m store) = hasMetadata id store.
Proof.
  unfold getMetadata, hasMetadata, saveMetadata.
  split; [|split].
  - now rewrite map_get_set, jsstring_eqb_refl.
  - now rewrite map_has_get, map_get_set, jsstring_eqb_refl.
  - intros id Hid.
    assert (E : jsstring_eqb (tokenId m) id = false)
      by (apply jsstring_eqb_neq; congruence).
    rewrite !map_has_get, map_get_set, E. split; reflexivity.
Qed.

Lemma map_has_keys (key : jsstring) (m : metadataStore) :
  map_has key m = true <-> In key (map fst m).
Proof.
  induction m as [|[k x] rest IH]; cbn [map_has map fst In].
  - split; [discriminate|tauto].
  - rewrite orb_true_iff, IH, jsstring_eqb_eq. tauto.
Qed.

Lemma map_set_keys (key : jsstring) (v : NFTMetadata) (m : metadataStore) :
  map fst (map_set key v m)
  = if map_has key m then map fst m else map fst m ++ [key].
Proof.
  induction m as [|[k x] rest IH]; cbn [map_set map_has map fst app];
    [reflexivity|].
  destruct (jsstring_eqb k key) eqn:Ek; cbn [orb map fst].
  - apply jsstring_eqb_eq in Ek. now subst k.
  - rewrite IH. destruct (map_has key rest); reflexivity.
Qed.

Lemma map_set_length (key : jsstring) (v : NFTMetadata) (m : metadataStore) :
  (length (map_set key v m) <= S (length m))%nat.
Proof.
  induction m as [|[k x] rest IH]; cbn [map_set length]; [lia|].
  destruct (jsstring_eqb k key); cbn [length]; lia.
Qed.

Lemma map_set_keyed (v : NFTMetadata) (m : metadataStore) :
  Forall (fun e => fst e = tokenId (snd e)) m ->
  Forall (fun e => fst e = tokenId (snd e)) (map_set (tokenId v) v m).
Proof.
  induction 1 as [|[k x] rest Hk Hrest IH]; cbn [map_set].
  - constructor; [reflexivity|constructor].
  - destruct (jsstring_eqb k (tokenId v)); constructor;
      solve [reflexivity|assumption].
Qed.

Lemma saveMetadata_invariant (m : NFTMetadata) (store : metadataStore) :
  store_invariant store -> store_invariant (saveMetadata m store).
Proof.
  intros [Hnd Hk]. unfold saveMetadata. split; [|apply map_set_keyed, Hk].
  rewrite map_set_keys. destruct (map_has (tokenId m) store) eqn:E; [exact Hnd|].
  assert (Hnot : ~ In (tokenId m) (map fst store)).
  { intro Hin. apply map_has_keys in Hin. congruence. }
  apply NoDup_rev in Hnd. rewrite <- (rev_involutive (_ ++ _)).
  apply NoDup_rev. rewrite rev_unit. constructor; [|exact Hnd].
  intro Hin. apply Hnot. apply in_rev, Hin.
Qed.

Lemma saved_from_invariant (ms : list NFTMetadata) (store : metadataStore) :
  store_invariant store ->
  store_invariant (fold_left (fun s m => saveMetadata m s) ms store).
Proof.
  revert store. induction ms as [|m ms IH]; intros store Hs; [exact Hs|].
  cbn [fold_left]. apply IH, saveMetadata_invariant, Hs.
Qed.

Lemma saved_invariant (ms : list NFTMetadata) : store_invariant (saved ms).
Proof.
  apply saved_from_invariant. split; constructor.
Qed.

Lemma map_get_In (k : jsstring) (x : NFTMetadata) (m : metadataStore) :
  map_get k m = Some x -> In (k, x) m.
Proof.
  induction m as [|[k' x'] rest IH]; cbn [map_get In]; [discriminate|].
  destruct (jsstring_eqb k' k) eqn:E.
  - apply jsstring_eqb_eq in E. intro S. left. congruence.
  - intro S. right. apply IH, S.
Qed.

Lemma In_map_get (k : jsstring) (x : NFTMetadata) (m : metadataStore) :
  NoDup (map fst m) -> In (k, x) m -> map_get k m = Some x.
Proof.
  induction m as [|[k' x'] rest IH]; cbn [map fst map_get In]; [tauto|].
  intros Hnd [E|Hin].
  - injection E as -> ->. now rewrite jsstring_eqb_refl.
  - inversion Hnd as [|? ? Hnot Hnd']; subst.
    destruct (jsstring_eqb k' k) eqn:E; [|apply IH; assumption].
    apply jsstring_eqb_eq in E; subst k'. exfalso. apply Hnot.
    apply (in_map fst) in Hin. exact Hin.
Qed.

(** In a store that keeps the invariant, the listed entries are the
    values found under their own token id. *)
Lemma listed_iff_current (store : metadataStore) :
  store_invariant store ->
  forall m, In m (getAllMetadata store)
            <-> getMetadata (tokenId m) store = Some m.
Proof.
  intros [Hnd Hk] m. unfold getAllMetadata, getMetadata. split.
  - intro Hin. apply in_map_iff in Hin as [[k x] [E Hin]].
    cbn [snd] in E; subst x. rewrite Forall_forall in Hk.
    pose proof (Hk _ Hin) as Ek. cbn [fst snd] in Ek. subst k.
    apply In_map_get; assumption.
  - intro Hget. apply map_get_In in Hget.
    apply (in_map snd) in Hget. exact Hget.
Qed.

(** X15. Whatever the sequence of saves, the store holds one entry for each
    token id: the token ids of [getAllMetadata()] are pairwise different,
    there are no more entries than saves, and the entries are exactly the
    values [getMetadata] returns for their own token id. *)
Theorem saved_one_entry_per_token (ms : list NFTMetadata) :
  NoDup (map tokenId (getAllMetadata (saved ms)))
  /\ (length (getAllMetadata (saved ms)) <= length ms)%nat
  /\ forall m, In m (getAllMetadata (saved ms))
               <-> getMetadata (tokenId m) (saved ms) = Some m.
Proof.
  destruct (saved_invariant ms) as [Hnd Hk].
  assert (Hkeys : map tokenId (getAllMetadata (saved ms))
                  = map fst (saved ms)).
  { unfold getAllMetadata. rewrite map_map. apply map_ext_in.
    intros e He. rewrite Forall_forall in Hk. symmetry. apply Hk, He. }
  split; [rewrite Hkeys; exact Hnd|]. split.
  - unfold getAllMetadata, saved. rewrite length_map.
    assert (G : forall l s,
               (length (fold_left (fun s m => saveMetadata m s) l s)
                <= length s + length l)%nat).
    { induction l as [|m l IH]; intro s; cbn [fold_left length]; [lia|].
      specialize (IH (saveMetadata m s)).
      pose proof (map_set_length (tokenId m) m s) as L.
      unfold saveMetadata in *. lia. }
    apply (G ms []).
  - apply listed_iff_current; split; assumption.
Qed.

(** X16. The last save wins: [getMetadata(id)] is the metadata of the
    latest save whose token id is [id], and [null] when there is none. *)
Theorem getMetadata_last_saved (ms : list NFTMetadata) (id : jsstring) :
  getMetadata id (saved ms)
  = find (fun m => jsstring_eqb (tokenId m) id) (rev ms).
Proof.
  unfold getMetadata, saved.
  induction ms as [|m ms IH] using rev_ind; [reflexivity|].
  rewrite fold_left_app, rev_unit. cbn [fold_left find].
  unfold saveMetadata at 1. rewrite map_get_set, IH. reflexivity.
Qed.


End StorageLaws.

(* ===================================================================== *)
(** ** The metadata routes *)
(* ===================================================================== *)

Section UncheckedLaws.

Import UncheckedStorage.

Context {platform : Platform} {numbers : Numbers}.

Lemma same_key_string (k : json) (id : jsstring) :
  same_key k (JString id) = true <-> k = JString id.
Proof.
  destruct k; cbn [same_key]; try (split; discriminate).
  rewrite jsstring_eqb_eq. split; congruence.
Qed.

Lemma same_key_of_string (id : jsstring) (k : json) :
  same_key (JString id) k = true <-> k = JString id.
Proof.
  destruct k; cbn [same_key]; try (split; discriminate).
  rewrite jsstring_eqb_eq. split; congruence.
Qed.

(** A lookup under a string after a [set] under any key. *)
Lemma map_get_set_string (key : json) (v : NFTMetadata) (m : metadataStore)
  (id : jsstring) :
  map_get (JString id) (map_set key v m)
  = if same_key key (JString id) then Some v else map_get (JString id) m.
Proof.
  induction m as [|[k x] rest IH]; cbn [map_set map_get]; [reflexivity|].
  destruct (same_key k key) eqn:Ek; cbn [map_get].
  - destruct (same_key key (JString id)) eqn:Eq; [reflexivity|].
    destruct (same_key k (JString id)) eqn:Ei; [|reflexivity].
    apply same_key_string in Ei. subst k.
    apply same_key_of_string in Ek. subst key.
    cbn [same_key] in Eq. rewrite jsstring_eqb_refl in Eq. discriminate Eq.
  - rewrite IH. destruct (same_key k (JString id)) eqn:Ei; [|reflexivity].
    destruct (same_key key (JString id)) eqn:Eq; [|reflexivity].
    apply same_key_string in Ei, Eq. subst k key.
    cbn [same_key] in Ek. rewrite jsstring_eqb_refl in Ek. discriminate Ek.
Qed.

(** On values of the declared types the storage module on unchecked values
    is the storage module. *)
Lemma createNFTMetadata_typed (time : MetadataStorage.clock)
  (id newsTitle newsContent newsDate : jsstring) (newsUrl : option jsstring)
  (language : lang) (minter news : option jsstring) :
  createNFTMetadata time (JString id) (JString newsTitle)
    (JString newsContent) (JString newsDate) newsUrl
    (JString (lang_code language)) (option_map JString minter)
    (option_map JString news)
  = Ok (of_typed
          (MetadataStorage.createNFTMetadata time id newsTitle newsContent
             newsDate newsUrl language minter news)).
Proof. reflexivity. Qed.

Lemma getMetadata_typed (id : jsstring) (store : MetadataStorage.metadataStore) :
  getMetadata (JString id) (of_typed_store store)
  = option_map of_typed (MetadataStorage.getMetadata id store).
Proof.
  unfold getMetadata, MetadataStorage.getMetadata, of_typed_store.
  induction store as [|[k x] rest IH]; [reflexivity|].
  cbn [map map_get MetadataStorage.map_get fst snd same_key].
  destruct (jsstring_eqb k id); [reflexivity|exact IH].
Qed.

Lemma saveMetadata_typed (m : MetadataStorage.NFTMetadata)
  (store : MetadataStorage.metadataStore) :
  saveMetadata (of_typed m) (of_typed_store store)
  = (Ok tt, of_typed_store (MetadataStorage.saveMetadata m store)).
Proof.
  unfold saveMetadata, MetadataStorage.saveMetadata, of_typed_store.
  cbn [tokenId of_typed to_string obind]. f_equal.
  generalize (MetadataStorage.tokenId m). intro key.
  induction store as [|[k x] rest IH]; [reflexivity|].
  cbn [map map_set MetadataStorage.map_set fst snd same_key].
  destruct (jsstring_eqb k key); cbn [map fst snd]; [reflexivity|].
  now rewrite IH.
Qed.

End UncheckedLaws.

Section RouteLaws.

Import MetadataRoutes.

Context {platform : Platform} {numbers : Numbers}.
Variable time : MetadataStorage.clock.
Variables env origin : option jsstring.

(** The three ways of [POST]: the body cannot be taken apart, it does not
    pass the check, or it passes. *)
Lemma POST_unreadable (parsed : outcome json)
  (store : UncheckedStorage.metadataStore) (e : exn) :
  (let? body := parsed in destructure body) = Raise e ->
  POST time env origin parsed store
  = (json_response (ErrorBody (js "Failed to save metadata")) 500, store).
Proof. intro E. unfold POST. now rewrite E. Qed.

Lemma POST_missing (parsed : outcome json)
  (store : UncheckedStorage.metadataStore) (b : save_body) :
  (let? body := parsed in destructure body) = Ok b ->
  required b = false ->
  POST time env origin parsed store
  = (json_response
       (ErrorBody
          (js "Missing required fields: tokenId, title, content, date"))
       400, store).
Proof. intros E R. unfold POST. now rewrite E, R. Qed.

Lemma POST_unbuilt (parsed : outcome json)
  (store : UncheckedStorage.metadataStore) (b : save_body) (e : exn) :
  (let? body := parsed in destructure body) = Ok b ->
  required b = true ->
  build time env origin b = Raise e ->
  POST time env origin parsed store
  = (json_response (ErrorBody (js "Failed to save metadata")) 500, store).
Proof. intros E R B. unfold POST. now rewrite E, R, B. Qed.

Lemma POST_built (parsed : outcome json)
  (store : UncheckedStorage.metadataStore) (b : save_body)
  (m : UncheckedStorage.NFTMetadata) :
  (let? body := parsed in destructure body) = Ok b ->
  required b = true ->
  build time env origin b = Ok m ->
  POST time env origin parsed store
  = (match UncheckedStorage.to_string (UncheckedStorage.tokenId m) with
     | Ok id =>
         json_response
           (SavedBody (UncheckedStorage.tokenId m)
              (base_url env origin ++ js "/api/metadata/" ++ id)) 200
     | Raise _ =>
         json_response (ErrorBody (js "Failed to save metadata")) 500
     end,
     UncheckedStorage.map_set (UncheckedStorage.tokenId m) m store).
Proof.
  intros E R B. unfold POST. rewrite E, R, B. cbn [negb].
  unfold UncheckedStorage.saveMetadata.
  destruct (UncheckedStorage.to_string (UncheckedStorage.tokenId m));
    reflexivity.
Qed.

(** What [build] makes of the members. *)
Lemma build_ok (b : save_body) (m : UncheckedStorage.NFTMetadata) :
  build time env origin b = Ok m ->
  exists id newsContent newsDate d n,
    tokenId b = Some id /\ content b = Some newsContent
    /\ date b = Some newsDate
    /\ UncheckedStorage.shortDescription newsContent = Ok d
    /\ UncheckedStorage.interpolate (newsId b) = Ok n
    /\ m = {| UncheckedStorage.tokenId := id;
              UncheckedStorage.name := js "Volt News";
              UncheckedStorage.description := d;
              UncheckedStorage.image := MetadataStorage.volt_image;
              UncheckedStorage.external_url :=
                Some (base_url env origin ++ js "/news/" ++ n);
              UncheckedStorage.attributes :=
                [ {| UncheckedStorage.trait_type := js "Date";
                     UncheckedStorage.value := newsDate |};
                  {| UncheckedStorage.trait_type := js "Source";
                     UncheckedStorage.value := JString (js "Volt News") |};
                  {| UncheckedStorage.trait_type := js "Mint Time";
                     UncheckedStorage.value :=
                       JString (MetadataStorage.toISOString time) |} ];
              UncheckedStorage.timestamp := MetadataStorage.now time;
              UncheckedStorage.minterAddress := minterAddress b;
              UncheckedStorage.newsId := newsId b |}.
Proof.
  unfold build. destruct (tokenId b) as [id|]; [|discriminate].
  destruct (title b) as [newsTitle|]; [|discriminate].
  destruct (content b) as [newsContent|]; [|discriminate].
  destruct (date b) as [newsDate|]; [|discriminate]. cbv zeta.
  destruct (UncheckedStorage.interpolate (newsId b)) as [n|] eqn:Hn;
    cbn [obind]; [|discriminate].
  unfold UncheckedStorage.createNFTMetadata.
  destruct (UncheckedStorage.shortDescription newsContent) as [d|] eqn:Hd;
    cbn [obind]; [|discriminate].
  intro E. apply Ok_inj in E. subst m.
  exists id, newsContent, newsDate, d, n.
  repeat (split; [solve [reflexivity|assumption]|]). reflexivity.
Qed.

Lemma build_of_members (b : save_body) (id newsContent newsDate d : json)
  (n : jsstring) :
  required b = true ->
  tokenId b = Some id -> content b = Some newsContent ->
  date b = Some newsDate ->
  UncheckedStorage.shortDescription newsContent = Ok d ->
  UncheckedStorage.interpolate (newsId b) = Ok n ->
  build time env origin b
  = Ok {| UncheckedStorage.tokenId := id;
          UncheckedStorage.name := js "Volt News";
          UncheckedStorage.description := d;
          UncheckedStorage.image := MetadataStorage.volt_image;
          UncheckedStorage.external_url :=
            Some (base_url env origin ++ js "/news/" ++ n);
          UncheckedStorage.attributes :=
            [ {| UncheckedStorage.trait_type := js "Date";
                 UncheckedStorage.value := newsDate |};
              {| UncheckedStorage.trait_type := js "Source";
                 UncheckedStorage.value := JString (js "Volt News") |};
              {| UncheckedStorage.trait_type := js "Mint Time";
                 UncheckedStorage.value :=
                   JString (MetadataStorage.toISOString time) |} ];
          UncheckedStorage.timestamp := MetadataStorage.now time;
          UncheckedStorage.minterAddress := minterAddress b;
          UncheckedStorage.newsId := newsId b |}.
Proof.
  intros R Ei Ec Ed Hd Hn. unfold build. rewrite Ei, Ec, Ed.
  unfold required in R. rewrite Ei, Ec, Ed in R.
  destruct (title b) as [newsTitle|];
    [|cbn [truthy] in R; rewrite andb_false_r in R; discriminate R].
  cbv zeta. rewrite Hn. cbn [obind].
  unfold UncheckedStorage.createNFTMetadata. rewrite Hd. reflexivity.
Qed.

(** X18. Save, then read: after a save request whose body has a string
    that is not empty as [tokenId] and truthy [title], [content] and
    [date] members, whose [newsId] can be converted to a string and whose
    [content] has a short description, the save route answers 200 with the
    token id and the URL [`${baseUrl}/api/metadata/${tokenId}`], and the
    read route answers 200 for that token id with the name ['Volt News'],
    the short description of the content, the fixed image, the URL
    [`${baseUrl}/news/${newsId}`] and the three attributes; neither the
    title nor the language of the body reaches the answer. For every other
    token id the read route answers as before. *)
Theorem POST_then_GET (body : json) (b : save_body)
  (store : UncheckedStorage.metadataStore)
  (id : jsstring) (newsContent newsDate d : json) (n : jsstring) :
  destructure body = Ok b ->
  required b = true ->
  tokenId b = Some (JString id) ->
  content b = Some newsContent -> date b = Some newsDate ->
  UncheckedStorage.shortDescription newsContent = Ok d ->
  UncheckedStorage.interpolate (newsId b) = Ok n ->
  fst (POST time env origin (Ok body) store)
  = json_response
      (SavedBody (JString id)
         (base_url env origin ++ js "/api/metadata/" ++ id)) 200
  /\ status (GET (Ok id) (snd (POST time env origin (Ok body) store)))
     = 200%N
  /\ MetadataRoutes.body
       (GET (Ok id) (snd (POST time env origin (Ok body) store)))
     = MetadataBody (js "Volt News") d MetadataStorage.volt_image
         (Some (base_url env origin ++ js "/news/" ++ n))
         [ {| UncheckedStorage.trait_type := js "Date";
              UncheckedStorage.value := newsDate |};
           {| UncheckedStorage.trait_type := js "Source";
              UncheckedStorage.value := JString (js "Volt News") |};
           {| UncheckedStorage.trait_type := js "Mint Time";
              UncheckedStorage.value :=
                JString (MetadataStorage.toISOString time) |} ]
  /\ forall other,
       other <> id ->
       GET (Ok other) (snd (POST time env origin (Ok body) store))
       = GET (Ok other) store.
Proof.
  intros Hb R Ei Ec Ed Hd Hn.
  pose proof (@build_of_members b _ _ _ _ _ R Ei Ec Ed Hd Hn) as B.
  assert (Ti : truthy_str id = true).
  { unfold required in R. rewrite Ei in R. cbn [truthy] in R.
    destruct (truthy_str id); [reflexivity|discriminate R]. }
  rewrite (@POST_built (Ok body) store b _ Hb R B).
  cbn [UncheckedStorage.tokenId UncheckedStorage.to_string fst snd].
  split; [reflexivity|].
  unfold GET, UncheckedStorage.getMetadata.
  rewrite Ti, !map_get_set_string. cbn [UncheckedStorage.same_key negb].
  rewrite jsstring_eqb_refl. cbn [status MetadataRoutes.body].
  split; [reflexivity|]. split; [reflexivity|].
  intros other Hne. rewrite map_get_set_string.
  cbn [UncheckedStorage.same_key].
  replace (jsstring_eqb id other) with false
    by (symmetry; apply jsstring_eqb_neq; congruence).
  reflexivity.
Qed.


(** Whether a string token id is found after a save request. *)
Lemma found_after_POST (id : jsstring) (p : outcome json)
  (store : UncheckedStorage.metadataStore) :
  match UncheckedStorage.map_get (JString id)
          (snd (POST time env origin p store)) with
  | Some _ => true
  | None => false
  end
  = saves_token time env origin id p
    || match UncheckedStorage.map_get (JString id) store with
       | Some _ => true
       | None => false
       end.
Proof.
  unfold saves_token.
  destruct (let? body := p in destructure body) as [b|e] eqn:E;
    [|now rewrite (@POST_unreadable p store e E)].
  destruct (required b) eqn:R; [|now rewrite (@POST_missing p store b E R)].
  destruct (build time env origin b) as [m|e] eqn:B;
    [|rewrite (@POST_unbuilt p store b e E R B), andb_false_r; reflexivity].
  rewrite (@POST_built p store b m E R B). cbn [snd andb].
  rewrite map_get_set_string, andb_true_r.
  destruct (@build_ok b m B) as (i & c & dt & d & n & Ei & _ & _ & _ & _ & Em).
  rewrite Ei, Em. cbn [UncheckedStorage.tokenId].
  destruct i as [ |x|x y|s|l|ms]; cbn [UncheckedStorage.same_key];
    try reflexivity.
  destruct (jsstring_eqb s id); reflexivity.
Qed.

(** X20. From the empty store and after any sequence of save requests,
    the read route answers 400 for the empty token id, 200 for a token id
    that one of the requests set (its body passed the check with that
    string as [tokenId] and the metadata could be built), and 404 for
    every other token id: an entry saved under a token id that is a
    number, a boolean, an array or an object is never read. *)
Theorem GET_after_posts (posts : list (outcome json)) (id : jsstring) :
  status (GET (Ok id) (after_posts time env origin posts []))
  = if negb (truthy_str id) then 400%N
    else if existsb (saves_token time env origin id) posts then 200%N
         else 404%N.
Proof.
  assert (G : forall store,
             match UncheckedStorage.map_get (JString id)
                     (after_posts time env origin posts store) with
             | Some _ => true
             | None => false
             end
             = existsb (saves_token time env origin id) posts
               || match UncheckedStorage.map_get (JString id) store with
                  | Some _ => true
                  | None => false
                  end).
  { unfold after_posts. induction posts as [|p posts IH]; intro store;
      cbn [fold_left existsb]; [reflexivity|].
    rewrite IH, found_after_POST.
    destruct (saves_token time env origin id p),
      (existsb (saves_token time env origin id) posts); reflexivity. }
  specialize (G []). cbn [UncheckedStorage.map_get] in G.
  rewrite orb_false_r in G.
  unfold GET. destruct (truthy_str id); [|reflexivity]. cbn [negb].
  unfold UncheckedStorage.getMetadata.
  destruct (UncheckedStorage.map_get (JString id) _); rewrite <- G;
    reflexivity.
Qed.

End RouteLaws.

(** X18, witness: a body without [newsId]. *)
Lemma POST_then_GET_witness :
  let time := {| MetadataStorage.toISOString := js "2025-01-01T00:00:00.000Z";
                 MetadataStorage.now := 1735689600000 |} in
  let body :=
    JObject [ (js "tokenId", JString (js "42"));
              (js "title", JString headline_a);
              (js "content", JString headline_b);
              (js "date", JString (js "2025-01-01")) ] in
  @MetadataRoutes.body
    (@MetadataRoutes.GET integer_numbers (Ok (js "42"))
       (snd (@MetadataRoutes.POST plain_platform integer_numbers time None
               None (Ok body) [])))
  = MetadataRoutes.MetadataBody (js "Volt News") (JString headline_b)
      MetadataStorage.volt_image
      (Some (js "https://your-app.vercel.app/news/undefined"))
      [ {| UncheckedStorage.trait_type := js "Date";
           UncheckedStorage.value := JString (js "2025-01-01") |};
        {| UncheckedStorage.trait_type := js "Source";
           UncheckedStorage.value := JString (js "Volt News") |};
        {| UncheckedStorage.trait_type := js "Mint Time";
           UncheckedStorage.value :=
             JString (js "2025-01-01T00:00:00.000Z") |} ].
Proof.
  intros time body.
  apply (@POST_then_GET plain_platform integer_numbers time None None body
           {| MetadataRoutes.tokenId := Some (JString (js "42"));
              MetadataRoutes.title := Some (JString headline_a);
              MetadataRoutes.content := Some (JString headline_b);
              MetadataRoutes.date := Some (JString (js "2025-01-01"));
              MetadataRoutes.newsId := None;
              MetadataRoutes.language := None;
              MetadataRoutes.minterAddress := None |}
           [] (js "42") (JString headline_b) (JString (js "2025-01-01"))
           (JString headline_b) (js "undefined")); reflexivity.
Defined.

(** A token id that is a number: the save is answered 200, and the read
    route, which looks the string [47] up, answers 404. A token id that
    cannot be converted to a string: the save is answered 500 after the
    entry has been set. *)
Example unchecked_token_ids :
  let time := {| MetadataStorage.toISOString := js "2025-01-01T00:00:00.000Z";
                 MetadataStorage.now := 1735689600000 |} in
  let saved body :=
    @MetadataRoutes.POST plain_platform integer_numbers time None None
      (Ok body) [] in
  MetadataRoutes.status (fst (saved numeric_token_body)) = 200%N
  /\ MetadataRoutes.status
       (@MetadataRoutes.GET integer_numbers (Ok (js "47"))
          (snd (saved numeric_token_body))) = 404%N
  /\ MetadataRoutes.status (fst (saved opaque_token_body)) = 500%N
  /\ length (snd (saved opaque_token_body)) = 1%nat.
Proof. repeat split; vm_compute; reflexivity. Qed.

(* ===================================================================== *)
(** ** Token identifiers *)
(* ===================================================================== *)

Lemma decimal_nonempty (n : N) : decimal n <> [].
Proof.
  unfold decimal, DecimalString.NilZero.string_of_uint.
  destruct (N.to_uint n); discriminate.
Qed.

(** A reduction that commutes with one step commutes with the loop. *)
Lemma fold_left_commutes {A B} (red : A -> A) (step poly : A -> B -> A) :
  (forall x c, step (red x) c = red (poly x c)) ->
  forall (l : list B) (x : A),
    fold_left step l (red x) = red (fold_left poly l x).
Proof.
  intros Hstep l. induction l as [|c l IH]; intro x; cbn [fold_left];
    [reflexivity|].
  rewrite Hstep. apply IH.
Qed.

Section TokenIdentifiers.

Import Web3Config.

Lemma toInt32_shift (x : Z) : exists k : Z, toInt32 x = (x + k * 4294967296)%Z.
Proof.
  unfold toInt32. change (2 ^ 32)%Z with 4294967296%Z.
  change (2 ^ 31)%Z with 2147483648%Z.
  exists (- ((x + 2147483648) / 4294967296))%Z.
  pose proof (Z.div_mod (x + 2147483648) 4294967296). lia.
Qed.

Lemma toInt32_range (x : Z) : (- 2147483648 <= toInt32 x < 2147483648)%Z.
Proof.
  unfold toInt32. change (2 ^ 32)%Z with 4294967296%Z.
  change (2 ^ 31)%Z with 2147483648%Z.
  pose proof (Z.mod_pos_bound (x + 2147483648) 4294967296). lia.
Qed.

Lemma toInt32_congruent (x k : Z) : toInt32 (x + k * 4294967296) = toInt32 x.
Proof.
  unfold toInt32. change (2 ^ 32)%Z with 4294967296%Z.
  replace (x + k * 4294967296 + 2 ^ 31)%Z with (x + 2 ^ 31 + k * 4294967296)%Z
    by lia.
  now rewrite Z.mod_add by lia.
Qed.

Lemma toInt32_congruent_to (x y k : Z) :
  y = (x + k * 4294967296)%Z -> toInt32 y = toInt32 x.
Proof. intros ->. apply toInt32_congruent. Qed.

(** One turn of the loop on a reduced hash is one step of the polynomial,
    reduced. *)
Lemma hash_step_polynomial (x : Z) (c : N) :
  hash_step (toInt32 x) c = toInt32 (x * 31 + Z.of_N c).
Proof.
  unfold hash_step. cbv zeta.
  destruct (toInt32_shift x) as [k1 E1].
  destruct (toInt32_shift (toInt32 x)) as [k2 E2].
  destruct (toInt32_shift (toInt32 (toInt32 x) * 2 ^ 5)) as [k3 E3].
  apply toInt32_congruent_to with (k := (31 * k1 + 32 * k2 + k3)%Z).
  generalize dependent (toInt32 (toInt32 (toInt32 x) * 2 ^ 5)).
  generalize dependent (toInt32 (toInt32 x)).
  generalize dependent (toInt32 x). intros. lia.
Qed.

Lemma hash_polynomial_from (id : jsstring) (x : Z) :
  fold_left hash_step id (toInt32 x)
  = toInt32 (fold_left (fun h c => (h * 31 + Z.of_N c)%Z) id x).
Proof.
  apply (fold_left_commutes toInt32 hash_step
           (fun h c => (h * 31 + Z.of_N c)%Z) hash_step_polynomial).
Qed.

Lemma hash_polynomial (id : jsstring) :
  fold_left hash_step id 0%Z = toInt32 (polynomial31 id).
Proof. apply (hash_polynomial_from id 0). Qed.

(** X21. The token id is the decimal numeral of the absolute value of the
    base-31 polynomial of the code units reduced to the signed 32-bit range:
    a number between 0 and 2^31, never the empty string. *)
Theorem generateTokenId_polynomial (id : jsstring) :
  generateTokenId id = decimal (Z.to_N (Z.abs (toInt32 (polynomial31 id))))
  /\ (0 <= Z.abs (toInt32 (polynomial31 id)) <= 2147483648)%Z
  /\ generateTokenId id <> [].
Proof.
  unfold generateTokenId. rewrite hash_polynomial. split; [reflexivity|]. split.
  - pose proof (toInt32_range (polynomial31 id)). lia.
  - apply decimal_nonempty.
Qed.

(** X22. Two identifiers that differ in two adjacent code units [a b] and
    [c d] with [31 a + b = 31 c + d] have the same token id, whatever
    stands before and after. *)
Theorem generateTokenId_collision (prefix suffix : jsstring) (a b c d : N) :
  (31 * a + b = 31 * c + d)%N ->
  generateTokenId (prefix ++ [a; b] ++ suffix)
  = generateTokenId (prefix ++ [c; d] ++ suffix).
Proof.
  intro E. unfold generateTokenId. rewrite !hash_polynomial.
  unfold polynomial31. rewrite !fold_left_app. cbn [fold_left].
  do 4 f_equal. f_equal. lia.
Qed.

End TokenIdentifiers.

(** X22, witness: [Aa] and [BB]. *)
Lemma generateTokenId_collision_witness :
  Web3Config.generateTokenId (js "news-Aa-1")
  = Web3Config.generateTokenId (js "news-BB-1").
Proof.
  apply (@generateTokenId_collision (js "news-") (js "-1") 65 97 66 66).
  reflexivity.
Defined.

(* ===================================================================== *)
(** ** From the mint hook to the read route *)
(* ===================================================================== *)

Section MintHook.

Import MetadataRoutes.

Context {platform : Platform} {numbers : Numbers}.
Variable time : MetadataStorage.clock.
Variables env origin : option jsstring.

(** X23. The save request of the mint hook always carries a token id; when
    the title, the content and the date of the news are not empty, the
    request is accepted, and the read route then answers, for the token id
    of the news and so for every identifier with the same token id, with
    the content and the date of this news and the URL
    [`${baseUrl}/news/${newsId}`], whatever the store held for that token
    id before. *)
Theorem mint_save_then_read (newsId : jsstring)
  (metadata : UseNFTMint.NewsMetadata) (language : lang)
  (signerAddress : jsstring) (store : UncheckedStorage.metadataStore) :
  UseNFTMint.title metadata <> [] ->
  UseNFTMint.content metadata <> [] ->
  UseNFTMint.date metadata <> [] ->
  status (fst (POST time env origin
                 (Ok (UseNFTMint.save_request newsId metadata language
                        signerAddress)) store)) = 200%N
  /\ forall other,
       Web3Config.generateTokenId other = Web3Config.generateTokenId newsId ->
       body (GET (Ok (Web3Config.generateTokenId other))
               (snd (POST time env origin
                       (Ok (UseNFTMint.save_request newsId metadata language
                              signerAddress)) store)))
       = MetadataBody (js "Volt News")
           (JString
              (MetadataStorage.shortDescription (UseNFTMint.content metadata)))
           MetadataStorage.volt_image
           (Some (base_url env origin ++ js "/news/" ++ newsId))
           [ {| UncheckedStorage.trait_type := js "Date";
                UncheckedStorage.value :=
                  JString (UseNFTMint.date metadata) |};
             {| UncheckedStorage.trait_type := js "Source";
                UncheckedStorage.value := JString (js "Volt News") |};
             {| UncheckedStorage.trait_type := js "Mint Time";
                UncheckedStorage.value :=
                  JString (MetadataStorage.toISOString time) |} ].
Proof.
  intros Ht Hc Hd.
  set (request := UseNFTMint.save_request newsId metadata language
                    signerAddress).
  set (b := {| tokenId := Some (JString (Web3Config.generateTokenId newsId));
               title := Some (JString (UseNFTMint.title metadata));
               content := Some (JString (UseNFTMint.content metadata));
               date := Some (JString (UseNFTMint.date metadata));
               MetadataRoutes.newsId := Some (JString newsId);
               MetadataRoutes.language := Some (JString (lang_code language));
               minterAddress := Some (JString signerAddress) |}).
  assert (E : (let? body := Ok request in destructure body) = Ok b)
    by reflexivity.
  assert (Ti : truthy_str (Web3Config.generateTokenId newsId) = true).
  { unfold Web3Config.generateTokenId.
    destruct (decimal _) eqn:D; [|reflexivity].
    now apply decimal_nonempty in D. }
  assert (R : required b = true).
  { unfold required, b. cbn [tokenId title content date truthy]. rewrite Ti.
    destruct (UseNFTMint.title metadata); [congruence|].
    destruct (UseNFTMint.content metadata); [congruence|].
    destruct (UseNFTMint.date metadata); [congruence|]. reflexivity. }
  pose proof (@build_of_members platform numbers time env origin b
                (JString (Web3Config.generateTokenId newsId))
                (JString (UseNFTMint.content metadata))
                (JString (UseNFTMint.date metadata))
                (JString (MetadataStorage.shortDescription
                            (UseNFTMint.content metadata)))
                newsId R eq_refl eq_refl eq_refl eq_refl eq_refl) as B.
  rewrite (@POST_built platform numbers time env origin (Ok request) store b _ E R B).
  cbn [UncheckedStorage.tokenId UncheckedStorage.to_string fst snd status
       json_response].
  split; [reflexivity|].
  intros other ->.
  unfold GET, UncheckedStorage.getMetadata.
  rewrite Ti, map_get_set_string. cbn [UncheckedStorage.same_key negb].
  rewrite jsstring_eqb_refl. reflexivity.
Qed.

End MintHook.

(** X23, witness: the news [news-BB-1], whose token id is also that of
    [news-Aa-1]. *)
Lemma mint_save_then_read_witness :
  let time := {| MetadataStorage.toISOString := js "2025-01-01T00:00:00.000Z";
                 MetadataStorage.now := 1735689600000 |} in
  let news := {| UseNFTMint.title := headline_a;
                 UseNFTMint.content := headline_b;
                 UseNFTMint.date := js "2025-01-02" |} in
  let request := UseNFTMint.save_request (js "news-BB-1") news tr (js "0xB") in
  MetadataRoutes.status
    (fst (@MetadataRoutes.POST plain_platform integer_numbers time None None
            (Ok request) [])) = 200%N
  /\ forall other,
       Web3Config.generateTokenId other
       = Web3Config.generateTokenId (js "news-BB-1") ->
       MetadataRoutes.body
         (@MetadataRoutes.GET integer_numbers
            (Ok (Web3Config.generateTokenId other))
            (snd (@MetadataRoutes.POST plain_platform integer_numbers time
                    None None (Ok request) [])))
       = MetadataRoutes.MetadataBody (js "Volt News")
           (JString (MetadataStorage.shortDescription headline_b))
           MetadataStorage.volt_image
           (Some (MetadataRoutes.base_url None None ++ js "/news/"
                    ++ js "news-BB-1"))
           [ {| UncheckedStorage.trait_type := js "Date";
                UncheckedStorage.value := JString (js "2025-01-02") |};
             {| UncheckedStorage.trait_type := js "Source";
                UncheckedStorage.value := JString (js "Volt News") |};
             {| UncheckedStorage.trait_type := js "Mint Time";
                UncheckedStorage.value :=
                  JString (js "2025-01-01T00:00:00.000Z") |} ].
Proof.
  intros time news request.
  apply (@mint_save_then_read plain_platform integer_numbers time None None
           (js "news-BB-1") news tr (js "0xB") []); discriminate.
Defined.
